(** * rag-chatbot: a shallow embedding of the RAG pipeline core

    The development follows the layout of [backend/rag]:

    - [Py]              the fragments of Python semantics the code relies on
                        (str.strip, slicing, truthiness, exceptions);
    - [Chunker]         [rag/services/chunker.py];
    - [Llm]             [rag/services/llm.py] (the oracle boundary);
    - [Prompts]         [rag/prompts/classifier.py], [rag/prompts/rag.py];
    - [Classifier]      [rag/pipeline/query_classifier.py];
    - [Retriever]       [rag/pipeline/retriever.py];
    - [Generator]       [rag/pipeline/generator.py];
    - [Ocr]             [rag/services/ocr_service.py];
    - [ImageProcessor]  [rag/services/image_processor.py] together with
                        [rag/services/vision_service.py];
    - [PyStr], [ImageFiles], [DocumentProcessor], [Cloudinary]
                        file names and kinds, [rag/services/document_processor.py],
                        the upload of [rag/services/cloudinary_service.py];
    - [Views]           the event stream of [rag/views.py];
    - [Binary64]        the numbers that binary64 floats stand for;
    - [Doubles]         scripted collaborators, used to run the functions
                        on concrete inputs.

    The properties follow the definitions, one section per component.

    External collaborators (tokenizer, embedding model, database server
    and pgvector distance operator, chat-completion oracle, Pillow,
    Tesseract, the Unicode case mapping) are interfaces: they appear as
    type classes or as explicit outcomes of a call, never as code.

    Numeric model: Python ints are [Z].  A similarity is a [float]: a
    rational number or NaN, compared as PostgreSQL compares [float8] inside
    the statement and as Python compares floats outside it.  The scaling
    of an image is computed in binary64, bit for bit.  The OCR signals are
    read as exact rationals ([Q]). *)

From Stdlib Require Import ZArith QArith Qround Qpower Lia Lqa Sorted Ascii SpecFloat.
From stdpp Require Import gmap strings list pretty.

Set Warnings "-register-all".
#[local] Open Scope Z_scope.

(* ===================================================================== *)
(** * Python fragments *)
(* ===================================================================== *)

Module Py.

(** Exceptions that can cross the functions modelled below. *)
Inductive exn :=
| ValueError
| AttributeError
| IndexError
| ZeroDivisionError
| OverflowError
| JSONDecodeError
| ServiceError (msg : string)   (* any failure of an external service *)
| DatabaseError (msg : string).

(** A call either returns or raises. *)
Inductive result (A : Type) :=
| Ok (a : A)
| Raise (e : exn).
Arguments Ok {A} a.
Arguments Raise {A} e.

(** Sequencing: an exception raised by a call ends the caller. *)
#[global] Instance result_ret : MRet result := fun A a => Ok a.
#[global] Instance result_bind : MBind result := fun A B k r =>
  match r with
  | Ok a => k a
  | Raise e => Raise e
  end.

(** A [str] is a sequence of code points; [Strings.String.string] carries
    the code points below 256.  [is_space] is [str.isspace] on them. *)
Definition is_space (c : ascii) : bool :=
  let n := nat_of_ascii c in
  ((9 <=? n)%nat && (n <=? 13)%nat)
  || ((28 <=? n)%nat && (n <=? 32)%nat)
  || (n =? 133)%nat || (n =? 160)%nat.

Fixpoint lstrip (s : string) : string :=
  match s with
  | EmptyString => EmptyString
  | String c s' => if is_space c then lstrip s' else s
  end.

Fixpoint rstrip (s : string) : string :=
  match s with
  | EmptyString => EmptyString
  | String c s' =>
      match rstrip s' with
      | EmptyString => if is_space c then EmptyString else String c EmptyString
      | r => String c r
      end
  end.

(** [s.strip()] *)
Definition strip (s : string) : string := rstrip (lstrip s).

(** Truth value of a [str]: only the empty string is falsy. *)
Definition truthy (s : string) : bool :=
  match s with EmptyString => false | String _ _ => true end.

(** Truth value of [str | None]. *)
Definition truthy_opt (o : option string) : bool :=
  match o with None => false | Some s => truthy s end.

(** [s[:n]] for [n >= 0]. *)
Fixpoint str_prefix (n : nat) (s : string) : string :=
  match n, s with
  | O, _ => EmptyString
  | S _, EmptyString => EmptyString
  | S n', String c s' => String c (str_prefix n' s')
  end.

(** Slice bounds are clamped, negative ones count from the end. *)
Definition clamp_index (len i : Z) : Z :=
  if i <? 0 then Z.max (i + len) 0 else Z.min i len.

(** [l[lo:hi]] *)
Definition slice {A} (l : list A) (lo hi : Z) : list A :=
  let n := Z.of_nat (length l) in
  let lo' := clamp_index n lo in
  let hi' := clamp_index n hi in
  take (Z.to_nat (hi' - lo')) (drop (Z.to_nat lo') l).

(** [sep.join(parts)] *)
Fixpoint join (sep : string) (parts : list string) : string :=
  match parts with
  | [] => EmptyString
  | [p] => p
  | p :: ps => p +:+ sep +:+ join sep ps
  end.

Definition newline : string := String (ascii_of_nat 10) EmptyString.

(** [str.upper] is the Unicode case mapping: it may change the length
    of a text (the sharp s becomes SS) and leave the code points below
    256 (the micro sign, y with diaeresis).  It is an interface, like the
    other library calls. *)
Class Unicode := {
  upper : string -> string
}.

(** A [float] of Python, a [float8] of PostgreSQL: a number or NaN. *)
Inductive float :=
| Num (x : Q)
| NaN.

(** [a >= b] and [a < b] on Python floats: false when a side is NaN. *)
Definition float_ge (a b : float) : bool :=
  match a, b with
  | Num x, Num y => Qle_bool y x
  | _, _ => false
  end.

Definition float_lt (a b : float) : bool :=
  match a, b with
  | Num x, Num y => negb (Qle_bool y x)
  | _, _ => false
  end.

End Py.

(* ===================================================================== *)
(** * rag/services/chunker.py *)
(* ===================================================================== *)

Module Chunker.
Import Py.

(** The tiktoken encoding [cl100k_base]: tokens are integers. *)
Class Tokenizer := {
  encode : string -> list Z;
  decode : list Z -> string
}.

Definition DEFAULT_CHUNK_SIZE : Z := 500.
Definition DEFAULT_CHUNK_OVERLAP : Z := 100.

(** The variables the [while] loop of [chunk_text] updates. *)
Record loop_state := { start : Z; chunks : list string }.

(** The loop test, [start < len(tokens)]. *)
Definition loop_cond (tokens : list Z) (st : loop_state) : bool :=
  start st <? Z.of_nat (length tokens).

(** One pass through the loop body. *)
Definition loop_body `{Tokenizer} (tokens : list Z)
    (chunk_size chunk_overlap : Z) (st : loop_state) : loop_state :=
  let end_ := Z.min (start st + chunk_size) (Z.of_nat (length tokens)) in
  let chunk_tokens := slice tokens (start st) end_ in
  let chunk_text := decode chunk_tokens in
  let chunks' := chunks st ++ [chunk_text] in
  let start' := start st + (chunk_size - chunk_overlap) in
  (* Safety check: ensure we make progress *)
  let start'' := if start' <=? 0 then chunk_size else start' in
  {| start := start''; chunks := chunks' |}.

(** The [while] loop, run for at most [fuel] passes.  [None] means that
    the loop test still held when the fuel ran out. *)
Fixpoint while_loop `{Tokenizer} (fuel : nat) (tokens : list Z)
    (chunk_size chunk_overlap : Z) (st : loop_state) : option (list string) :=
  if loop_cond tokens st then
    match fuel with
    | O => None
    | S fuel' =>
        while_loop fuel' tokens chunk_size chunk_overlap
          (loop_body tokens chunk_size chunk_overlap st)
    end
  else Some (chunks st).

(** [TextChunker.chunk_text], with the loop bounded by [fuel]. *)
Definition chunk_text `{Tokenizer} (fuel : nat) (text : string)
    (chunk_size chunk_overlap : Z) : option (list string) :=
  if negb (truthy (strip text)) then Some []
  else
    let tokens := encode text in
    if Z.of_nat (length tokens) <=? chunk_size then Some [text]
    else while_loop fuel tokens chunk_size chunk_overlap
           {| start := 0; chunks := [] |}.

(** [TextChunker.count_tokens] *)
Definition count_tokens `{Tokenizer} (text : string) : Z :=
  Z.of_nat (length (encode text)).

(** A tokenizer for concrete runs: one token per code point. *)
Definition char_tokenizer : Tokenizer := {|
  encode := fun s => map (fun c => Z.of_nat (nat_of_ascii c)) (String.list_ascii_of_string s);
  decode := fun ts => String.string_of_list_ascii (map (fun t => ascii_of_nat (Z.to_nat t)) ts)
|}.

End Chunker.

(* ===================================================================== *)
(** * rag/services/llm.py *)
(* ===================================================================== *)

Module Llm.
Import Py.

(** Values produced by [json.loads]; an object is a [dict] keyed by
    strings. *)
Inductive json :=
| JNull
| JBool (b : bool)
| JNum (q : Q)
| JStr (s : string)
| JArr (l : list json)
| JObj (m : gmap string json).

(** What a streaming completion delivers: the [delta.content] of each
    chunk in arrival order, ended by normal exhaustion ([None]) or by an
    exception raised while iterating. *)
Inductive upstream :=
| UEnd (e : option exn)
| UChunk (delta : option string) (rest : upstream).

Record chat_request := {
  model : string;
  messages : list (string * string);   (* role, content *)
  temperature : Q;
  max_tokens : Z;
  json_mode : bool                     (* response_format = json_object *)
}.

Record vision_request := {
  v_model : string;
  v_prompt : string;
  v_image_url : string;
  v_max_tokens : Z
}.

(** The chat-completion endpoint and the JSON decoder, as the service
    sees them.  [create] and [create_vision] give
    [response.choices[0].message.content], which may be [None]. *)
Class Oracle := {
  create : chat_request -> result (option string);
  create_stream : chat_request -> result upstream;
  create_vision : vision_request -> result (option string);
  json_loads : string -> result json
}.

Definition DEFAULT_MODEL : string := "gpt-4.1-mini".
Definition DEFAULT_TEMPERATURE : Q := 7 # 10.
Definition CLASSIFICATION_TEMPERATURE : Q := 0.

(** [x or d] on [str | None]. *)
Definition or_default (x : option string) (d : string) : string :=
  match x with
  | Some s => if truthy s then s else d
  | None => d
  end.

Definition chat_messages (system_prompt user_message : string)
    : list (string * string) :=
  [("system", system_prompt); ("user", user_message)].

(** [LLMService.complete] *)
Definition complete `{Oracle} (system_prompt user_message : string)
    (model : option string) (temperature : option Q) (max_tokens : Z)
    : result string :=
  content ← create {| Llm.model := or_default model DEFAULT_MODEL;
                      messages := chat_messages system_prompt user_message;
                      temperature := default DEFAULT_TEMPERATURE temperature;
                      max_tokens := max_tokens;
                      json_mode := false |};
  Ok (or_default content "").

(** [LLMService.complete_json] *)
Definition complete_json `{Oracle} (system_prompt user_message : string)
    (model : option string) (temperature : option Q) (max_tokens : Z)
    : result json :=
  content ← create {| Llm.model := or_default model DEFAULT_MODEL;
                      messages := chat_messages system_prompt user_message;
                      temperature := default CLASSIFICATION_TEMPERATURE temperature;
                      max_tokens := max_tokens;
                      json_mode := true |};
  json_loads (or_default content "{}").

(** [LLMService.complete_with_vision] *)
Definition complete_with_vision `{Oracle} (prompt image_url model : string)
    (max_tokens : Z) : result string :=
  content ← create_vision {| v_model := model; v_prompt := prompt;
                             v_image_url := image_url;
                             v_max_tokens := max_tokens |};
  Ok (or_default content "").

(** A generator is driven by [next]: it yields a value and a new state,
    stops, or raises. *)
Inductive step (E S : Type) :=
| Yield (ev : E) (st : S)
| StopIteration
| Raised (e : exn).
Arguments Yield {E S} ev st.
Arguments StopIteration {E S}.
Arguments Raised {E S} e.

(** One [next] of the generator [LLMService.stream_complete] once the
    stream is open: chunks without content are skipped, the first chunk
    with content is yielded. *)
Fixpoint stream_complete_next (u : upstream) : step string upstream :=
  match u with
  | UEnd None => StopIteration
  | UEnd (Some e) => Raised e
  | UChunk delta rest =>
      match delta with
      | Some s => if truthy s then Yield s rest else stream_complete_next rest
      | None => stream_complete_next rest
      end
  end.

(** Opening the stream of [LLMService.stream_complete]. *)
Definition stream_complete_open `{Oracle} (system_prompt user_message : string)
    (model : option string) (temperature : option Q) (max_tokens : Z)
    : result upstream :=
  create_stream {| Llm.model := or_default model DEFAULT_MODEL;
                   messages := chat_messages system_prompt user_message;
                   temperature := default DEFAULT_TEMPERATURE temperature;
                   max_tokens := max_tokens;
                   json_mode := false |}.

End Llm.

(* ===================================================================== *)
(** * rag/prompts *)
(* ===================================================================== *)

Module Prompts.
Import Py.

(** The two system prompts are fixed texts; nothing below depends on
    their wording. *)
Class SystemPrompts := {
  CLASSIFIER_SYSTEM_PROMPT : string;
  RAG_SYSTEM_PROMPT : string
}.

Definition get_classifier_prompt `{SystemPrompts} : string :=
  CLASSIFIER_SYSTEM_PROMPT.

Definition get_rag_system_prompt `{SystemPrompts} : string :=
  RAG_SYSTEM_PROMPT.

Definition NO_CONTEXT_MARKER : string :=
  "No relevant context found. Answer from general knowledge.".

(** [RAG_USER_TEMPLATE.format(context=..., question=...)] *)
Definition RAG_USER_TEMPLATE (context question : string) : string :=
  "CONTEXT:" +:+ newline +:+ context +:+ newline +:+ newline
  +:+ "USER QUESTION:" +:+ newline +:+ question.

Definition format_rag_user_message (question : string)
    (context : option string) : string :=
  let context_text :=
    match context with
    | Some c => if truthy c then c else NO_CONTEXT_MARKER
    | None => NO_CONTEXT_MARKER
    end in
  RAG_USER_TEMPLATE context_text question.

End Prompts.

(* ===================================================================== *)
(** * rag/pipeline/query_classifier.py *)
(* ===================================================================== *)

Module Classifier.
Import Py Llm Prompts.

Inductive QueryType := GENERAL | PROFILE_DEPENDENT | HYBRID.

(** The value of each member of the [str]-valued enum. *)
Definition value (t : QueryType) : string :=
  match t with
  | GENERAL => "GENERAL"
  | PROFILE_DEPENDENT => "PROFILE_DEPENDENT"
  | HYBRID => "HYBRID"
  end.

(** [QueryType(raw)]: lookup by value, [ValueError] when no member has
    that value. *)
Definition QueryType_of_value (raw : json) : result QueryType :=
  match raw with
  | JStr s =>
      if String.eqb s (value GENERAL) then Ok GENERAL
      else if String.eqb s (value PROFILE_DEPENDENT) then Ok PROFILE_DEPENDENT
      else if String.eqb s (value HYBRID) then Ok HYBRID
      else Raise ValueError
  | _ => Raise ValueError
  end.

(** [response.get(key, default)]: a method of [dict] only. *)
Definition get (response : json) (key : string) (dflt : json) : result json :=
  match response with
  | JObj m => Ok (default dflt (m !! key))
  | _ => Raise AttributeError
  end.

(** The one call [classify] makes to the oracle. *)
Definition oracle_reply `{Oracle} `{SystemPrompts} (query : string)
    : result json :=
  complete_json get_classifier_prompt query None (Some 0%Q) 50.

(** [QueryClassifier.classify] *)
Definition classify `{Oracle} `{SystemPrompts} (query : string)
    : result QueryType :=
  let system_prompt := get_classifier_prompt in
  response ← complete_json system_prompt query None (Some 0%Q) 50;
  raw_type ← get response "query_type" (JStr "GENERAL");
  (* try: return QueryType(raw_type)  except ValueError: return GENERAL *)
  match QueryType_of_value raw_type with
  | Ok t => Ok t
  | Raise ValueError => Ok GENERAL
  | Raise e => Raise e
  end.

(** [QueryClassifier.needs_retrieval] *)
Definition needs_retrieval (query_type : QueryType) : bool :=
  match query_type with
  | GENERAL => false
  | _ => true
  end.

End Classifier.

(* ===================================================================== *)
(** * rag/pipeline/retriever.py *)
(* ===================================================================== *)

Module Retriever.
Import Py.

Definition DEFAULT_TOP_K : Z := 8.
Definition SIMILARITY_THRESHOLD : Q := 25 # 100.

(** A row of the table [document_chunks]; UUIDs in their text form. *)
Record DocumentChunk := {
  id : string;
  user_id : string;
  asset_id : option string;
  document_id : string;
  doc_type : string;
  source : string;
  content : string;
  embedding : list Q
}.

(** The embedding model and the database server.

    [cosine_distance] is pgvector's operator [<=>]; it gives NaN when one
    of the vectors has norm zero.  The textual form [[x1,x2,...]] built by
    [retrieve] is parsed back by the [::vector] cast, so the query vector
    reaches the operator as it left the model.

    [execute_error] is what [cursor.execute] raises for the statement on
    the current content of the table, if anything: a lost connection,
    vectors of different dimensions, a [LIMIT] out of range.  PostgreSQL
    refuses a negative [LIMIT]. *)
Class VectorBackend := {
  generate_embedding : string -> result (list Q);
  cosine_distance : list Q -> list Q -> float;
  execute_error : list DocumentChunk -> list Q -> string -> Z -> option exn;
  negative_limit_refused : forall table q user top_k,
    top_k < 0 -> execute_error table q user top_k <> None
}.

(** A tuple fetched by the cursor:
    [(id, content, document_id, doc_type, asset_id, similarity)]. *)
Record row := {
  row0 : string;
  row1 : string;
  row2 : string;
  row3 : string;
  row4 : option string;
  row5 : float
}.

Record RetrievedChunk := {
  rc_content : string;
  rc_document_id : string;
  rc_doc_type : string;
  rc_similarity : float;
  rc_asset_id : option string
}.

(** [1 - d] on [float8]. *)
Definition one_minus (d : float) : float :=
  match d with
  | Num x => Num (1 - x)
  | NaN => NaN
  end.

(** [a <= b] on [float8]: PostgreSQL takes NaN as equal to NaN and
    greater than every number. *)
Definition float8_le (a b : float) : bool :=
  match a, b with
  | Num x, Num y => Qle_bool x y
  | _, NaN => true
  | NaN, Num _ => false
  end.

Section Search.
Context `{VectorBackend}.

(** [1 - (embedding <=> q)] *)
Definition similarity (q : list Q) (r : DocumentChunk) : float :=
  one_minus (cosine_distance (embedding r) q).

(** The [WHERE] clause. *)
Definition where_clause (q : list Q) (user : string) (r : DocumentChunk) : bool :=
  String.eqb (user_id r) user
  && float8_le (Num SIMILARITY_THRESHOLD) (similarity q r).

(** The order of [ORDER BY embedding <=> q]: ascending distance. *)
Definition nearer (q : list Q) (a b : DocumentChunk) : Prop :=
  float8_le (cosine_distance (embedding a) q) (cosine_distance (embedding b) q) = true.

(** The sort itself, by insertion. *)
Fixpoint insert_by_distance (q : list Q) (r : DocumentChunk)
    (l : list DocumentChunk) : list DocumentChunk :=
  match l with
  | [] => [r]
  | r' :: l' =>
      if float8_le (cosine_distance (embedding r) q)
                   (cosine_distance (embedding r') q)
      then r :: l
      else r' :: insert_by_distance q r l'
  end.

Fixpoint order_by_distance (q : list Q) (l : list DocumentChunk)
    : list DocumentChunk :=
  match l with
  | [] => []
  | r :: l' => insert_by_distance q r (order_by_distance q l')
  end.

(** The rows of the table the statement selects, before projection,
    unless [cursor.execute] raises. *)
Definition selected_rows (table : list DocumentChunk) (q : list Q)
    (user : string) (top_k : Z) : result (list DocumentChunk) :=
  match execute_error table q user top_k with
  | Some e => Raise e
  | None =>
      Ok (take (Z.to_nat top_k)
            (order_by_distance q (filter (fun r => where_clause q user r = true) table)))
  end.

(** The [SELECT] list. *)
Definition project (q : list Q) (r : DocumentChunk) : row :=
  {| row0 := id r; row1 := content r; row2 := document_id r;
     row3 := doc_type r; row4 := asset_id r; row5 := similarity q r |}.

(** [_execute_vector_search] against a given content of the table. *)
Definition _execute_vector_search (table : list DocumentChunk)
    (embedding_str : list Q) (user : string) (top_k : Z) : result (list row) :=
  rows ← selected_rows table embedding_str user top_k;
  Ok (map (project embedding_str) rows).

(** The body of the [for row in rows] loop of [retrieve]:
    [asset_id=str(row[4]) if row[4] else None]. *)
Definition to_chunk (r : row) : RetrievedChunk :=
  {| rc_content := row1 r;
     rc_document_id := row2 r;
     rc_doc_type := row3 r;
     rc_asset_id := if truthy_opt (row4 r) then row4 r else None;
     rc_similarity := row5 r |}.

(** [Retriever.retrieve] *)
Definition retrieve (table : list DocumentChunk) (query user : string)
    (top_k : Z) : result (list RetrievedChunk) :=
  query_embedding ← generate_embedding query;
  let embedding_str := query_embedding in
  rows ← _execute_vector_search table embedding_str user top_k;
  Ok (map to_chunk rows).

End Search.

(** The block for the [i]-th chunk. *)
Definition context_part `{Unicode} (i : nat) (chunk : RetrievedChunk) : string :=
  "[Document " +:+ pretty i +:+ " - " +:+ upper (rc_doc_type chunk) +:+ "]"
  +:+ newline +:+ rc_content chunk.

Fixpoint context_parts `{Unicode} (i : nat) (chunks : list RetrievedChunk)
    : list string :=
  match chunks with
  | [] => []
  | c :: cs => context_part i c :: context_parts (S i) cs
  end.

(** [Retriever.format_context] *)
Definition format_context `{Unicode} (chunks : list RetrievedChunk)
    : option string :=
  match chunks with
  | [] => None
  | _ => Some (join (newline +:+ newline +:+ "---" +:+ newline +:+ newline)
                 (context_parts 1 chunks))
  end.

(** [Retriever.has_relevant_context] *)
Definition has_relevant_context (chunks : list RetrievedChunk) : bool :=
  (0 <? length chunks)%nat.

End Retriever.

(* ===================================================================== *)
(** * rag/pipeline/generator.py *)
(* ===================================================================== *)

Module Generator.
Import Py Llm Prompts Retriever.

Record SourceSnippet := { asset_id : string; excerpt : string }.

Record GeneratedAnswer := {
  answer : string;
  used_context : bool;
  sources : option (list SourceSnippet)
}.

(** [chunks is not None and Retriever.has_relevant_context(chunks)] *)
Definition use_context_of (chunks : option (list RetrievedChunk)) : bool :=
  match chunks with
  | None => false
  | Some cs => has_relevant_context cs
  end.

(** [use_context and chunks]: the truth value of the guard. *)
Definition sources_guard (use_context : bool)
    (chunks : option (list RetrievedChunk)) : bool :=
  use_context &&
  match chunks with
  | None => false
  | Some [] => false
  | Some (_ :: _) => true
  end.

(** [str(chunk.asset_id) if chunk.asset_id else "unknown"] *)
Definition source_asset_id (chunk : RetrievedChunk) : string :=
  match rc_asset_id chunk with
  | Some a => if truthy a then a else "unknown"
  | None => "unknown"
  end.

Definition source_excerpt (chunk : RetrievedChunk) : string :=
  str_prefix 100 (rc_content chunk).

(** The prompt both entry points build. *)
Definition context_of `{Unicode} (use_context : bool)
    (chunks : option (list RetrievedChunk)) : option string :=
  if use_context then
    match chunks with
    | Some cs => format_context cs
    | None => None
    end
  else None.

(** The source snippets of the batch entry point. *)
Definition batch_sources (use_context : bool)
    (chunks : option (list RetrievedChunk)) : option (list SourceSnippet) :=
  if sources_guard use_context chunks then
    Some (map (fun chunk => {| asset_id := source_asset_id chunk;
                               excerpt := source_excerpt chunk |})
              (slice (default [] chunks) 0 3))
  else None.

(** [Generator.generate] *)
Definition generate `{Oracle} `{SystemPrompts} `{Unicode} (question : string)
    (chunks : option (list RetrievedChunk)) : result GeneratedAnswer :=
  let use_context := use_context_of chunks in
  let context := context_of use_context chunks in
  let system_prompt := get_rag_system_prompt in
  let user_message := format_rag_user_message question context in
  answer ← complete system_prompt user_message None (Some (7 # 10)%Q) 1024;
  let sources := batch_sources use_context chunks in
  Ok {| answer := strip answer; used_context := use_context; sources := sources |}.

(** The events of the streaming entry point are dictionaries tagged by
    their ["type"]; a source is the dictionary
    [{"asset_id": ..., "excerpt": ...}]. *)
Inductive event :=
| Token (content : string)
| Done (used_context : bool) (sources : option (list (gmap string string))).

Definition source_dict (chunk : RetrievedChunk) : gmap string string :=
  {[ "asset_id" := source_asset_id chunk; "excerpt" := source_excerpt chunk ]}.

(** The source dictionaries of the streaming entry point. *)
Definition stream_sources (use_context : bool)
    (chunks : option (list RetrievedChunk))
    : option (list (gmap string string)) :=
  if sources_guard use_context chunks then
    Some (map source_dict (slice (default [] chunks) 0 3))
  else None.

(** Where the generator [stream_generate] is suspended. *)
Inductive gen_state :=
| Created                                    (* body not entered yet *)
| Streaming (use_context : bool) (u : upstream)  (* at the [yield] of the loop *)
| Finished.                                  (* after the final [yield] *)

(** Resume the [async for]: ask [stream_complete] for its next token. *)
Definition resume_loop (chunks : option (list RetrievedChunk))
    (use_context : bool) (u : upstream) : step event gen_state :=
  match stream_complete_next u with
  | Yield token u' => Yield (Token token) (Streaming use_context u')
  | StopIteration =>
      let sources := stream_sources use_context chunks in
      Yield (Done use_context sources) Finished
  | Raised e => Raised e
  end.

(** One [__anext__] of [Generator.stream_generate]. *)
Definition next `{Oracle} `{SystemPrompts} `{Unicode} (question : string)
    (chunks : option (list RetrievedChunk)) (st : gen_state)
    : step event gen_state :=
  match st with
  | Created =>
      let use_context := use_context_of chunks in
      let context := context_of use_context chunks in
      let system_prompt := get_rag_system_prompt in
      let user_message := format_rag_user_message question context in
      match stream_complete_open system_prompt user_message None (Some (7 # 10)%Q) 1024 with
      | Ok u => resume_loop chunks use_context u
      | Raise e => Raised e
      end
  | Streaming use_context u => resume_loop chunks use_context u
  | Finished => StopIteration
  end.

(** How a consumer's [async for] over the generator ends. *)
Inductive ending :=
| Exhausted
| Failed (e : exn)
| Pending.          (* the consumer stopped pulling *)

(** [async for event in stream_generate(...)], at most [fuel] pulls. *)
Fixpoint drain `{Oracle} `{SystemPrompts} `{Unicode} (fuel : nat) (question : string)
    (chunks : option (list RetrievedChunk)) (st : gen_state)
    : list event * ending :=
  match fuel with
  | O => ([], Pending)
  | S fuel' =>
      match next question chunks st with
      | Yield ev st' =>
          let '(evs, e) := drain fuel' question chunks st' in (ev :: evs, e)
      | StopIteration => ([], Exhausted)
      | Raised e => ([], Failed e)
      end
  end.

(** The chunks of an upstream and how it ends. *)
Fixpoint deltas (u : upstream) : list (option string) :=
  match u with
  | UEnd _ => []
  | UChunk d rest => d :: deltas rest
  end.

Fixpoint upstream_end (u : upstream) : option exn :=
  match u with
  | UEnd e => e
  | UChunk _ rest => upstream_end rest
  end.

(** The fragments [stream_complete] hands on: those with content. *)
Fixpoint fragments (ds : list (option string)) : list string :=
  match ds with
  | [] => []
  | Some s :: ds' => if truthy s then s :: fragments ds' else fragments ds'
  | None :: ds' => fragments ds'
  end.

(** The request [stream_generate] sends for a question and chunks. *)
Definition stream_request `{Oracle} `{SystemPrompts} `{Unicode} (question : string)
    (chunks : option (list RetrievedChunk)) : result upstream :=
  stream_complete_open get_rag_system_prompt
    (format_rag_user_message question (context_of (use_context_of chunks) chunks))
    None (Some (7 # 10)%Q) 1024.

(** The terminal event for a given input. *)
Definition done_event (chunks : option (list RetrievedChunk)) : event :=
  Done (use_context_of chunks) (stream_sources (use_context_of chunks) chunks).

(** A snippet agrees with the chunk it is derived from: same asset, and
    an excerpt that is the first 100 characters at most of the content. *)
Definition snippet_of (s : SourceSnippet) (c : RetrievedChunk) : Prop :=
  asset_id s = source_asset_id c
  /\ String.length (excerpt s) = Nat.min 100 (String.length (rc_content c))
  /\ exists rest, rc_content c = excerpt s +:+ rest.

(** A source dictionary and a snippet with the same two fields. *)
Definition same_source (d : gmap string string) (s : SourceSnippet) : Prop :=
  d = {[ "asset_id" := asset_id s; "excerpt" := excerpt s ]}.

Definition same_sources (ds : option (list (gmap string string)))
    (ss : option (list SourceSnippet)) : Prop :=
  match ds, ss with
  | None, None => True
  | Some ds, Some ss => Forall2 same_source ds ss
  | _, _ => False
  end.

End Generator.

(* ===================================================================== *)
(** * rag/services/ocr_service.py *)
(* ===================================================================== *)

Module Ocr.
Import Py.

(** [django.conf.settings]: the three thresholds are configuration. *)
Class Settings := {
  OCR_TEXT_COVERAGE_THRESHOLD : Q;
  OCR_BOX_DENSITY_THRESHOLD : Q;
  OCR_CONFIDENCE_THRESHOLD : Q
}.

(** One line of Tesseract's TSV output, the columns the service reads.
    Boxes are in pixels; [conf] is -1 for a line that is not a word. *)
Record tsv_row := {
  left : N; top : N; width : N; height : N;
  conf : Q;
  text : string
}.

(** [pytesseract.Output.DICT]: the same table, one list per column. *)
Record ocr_dict := {
  d_left : list Z; d_top : list Z; d_width : list Z; d_height : list Z;
  d_conf : list Q;
  d_text : list string
}.

Definition to_dict (rows : list tsv_row) : ocr_dict :=
  {| d_left := map (fun r => Z.of_N (left r)) rows;
     d_top := map (fun r => Z.of_N (top r)) rows;
     d_width := map (fun r => Z.of_N (width r)) rows;
     d_height := map (fun r => Z.of_N (height r)) rows;
     d_conf := map conf rows;
     d_text := map text rows |}.

(** Pillow and pytesseract.  [image_resize] is [Image.resize] with the
    Lanczos filter; Pillow refuses a size with an empty side. *)
Class Imaging := {
  image : Type;
  image_open : list Byte.byte -> result image;
  image_width : image -> Z;
  image_height : image -> Z;
  image_resize : image -> Z * Z -> result image;
  tesseract_tsv : image -> result (list tsv_row);
  image_to_string : image -> result string
}.

Definition image_to_data `{Imaging} (im : image) : result ocr_dict :=
  rows ← tesseract_tsv im; Ok (to_dict rows).

Record OCRResult := {
  r_text : string;
  r_confidence : Q;
  r_text_coverage : Q;
  r_box_density : Q;
  r_needs_vision : bool
}.

Definition MAX_IMAGE_SIZE : Z := 2000.

(** [a / b] on numbers. *)
Definition truediv (a b : Q) : result Q :=
  if Qeq_bool b 0 then Raise ZeroDivisionError else Ok (a / b)%Q.

(** [a < b] on numbers. *)
Definition Qltb (a b : Q) : bool := negb (Qle_bool b a).

(** [min(a, b)]: the first of the smallest. *)
Definition min_ (a b : Q) : Q := if Qltb b a then b else a.

(** [int(x)]: truncation towards zero. *)
Definition int (x : Q) : Z := if Qltb x 0 then Qceiling x else Qfloor x.

(** [l[i]] for [i >= 0]. *)
Definition index {A} (l : list A) (i : nat) : result A :=
  match l !! i with
  | Some x => Ok x
  | None => Raise IndexError
  end.

(** [c != -1] *)
Definition valid (c : Q) : bool := negb (Qeq_bool c (-1)).

Fixpoint sum (l : list Q) : Q :=
  match l with
  | [] => 0
  | x :: l' => x + sum l'
  end.

(** Python floats in the scaling of an image are binary64 numbers,
    rounded to nearest, ties to even. *)
Definition double : Type := spec_float.

(** [float(n)] *)
Definition double_of_int (n : Z) : double := binary_normalize 53 1024 n 0 false.

(** [a / b] on ints: the quotient rounded once, which is the quotient of
    the two conversions for ints below 2^53, as the sides of an image
    are. *)
Definition int_truediv (a b : Z) : result double :=
  if b =? 0 then Raise ZeroDivisionError
  else Ok (SFdiv 53 1024 (double_of_int a) (double_of_int b)).

(** [min(a, b)] on floats: the first of the smallest. *)
Definition double_min (a b : double) : double :=
  if SFltb b a then b else a.

(** [n * x] for an int and a float. *)
Definition int_mul_double (n : Z) (x : double) : double :=
  SFmul 53 1024 (double_of_int n) x.

(** [int(x)] on a float: truncation towards zero. *)
Definition int_of_double (x : double) : result Z :=
  match x with
  | S754_zero _ => Ok 0
  | S754_finite s m e =>
      let magnitude :=
        if 0 <=? e then Z.shiftl (Z.pos m) e else Z.shiftr (Z.pos m) (- e) in
      Ok (if s then - magnitude else magnitude)
  | S754_infinity _ => Raise OverflowError
  | S754_nan => Raise ValueError
  end.

(** [OCRService._resize_if_needed] *)
Definition _resize_if_needed `{Imaging} (im : image) : result image :=
  let width := image_width im in
  let height := image_height im in
  if (width <=? MAX_IMAGE_SIZE) && (height <=? MAX_IMAGE_SIZE) then Ok im
  else
    rw ← int_truediv MAX_IMAGE_SIZE width;
    rh ← int_truediv MAX_IMAGE_SIZE height;
    let ratio := double_min rw rh in
    new_width ← int_of_double (int_mul_double width ratio);
    new_height ← int_of_double (int_mul_double height ratio);
    image_resize im (new_width, new_height).

(** [OCRService._calculate_confidence] *)
Definition _calculate_confidence (ocr_data : ocr_dict) : result Q :=
  let confidences := List.filter valid (d_conf ocr_data) in
  match confidences with
  | [] => Ok 0%Q
  | _ => truediv (sum confidences) (inject_Z (Z.of_nat (length confidences)))
  end.

(** [sum(width[i] * height[i] for i in ... if conf[i] != -1)] *)
Fixpoint text_area (ocr_data : ocr_dict) (indices : list nat) : result Z :=
  match indices with
  | [] => Ok 0
  | i :: rest =>
      c ← index (d_conf ocr_data) i;
      if valid c then
        w ← index (d_width ocr_data) i;
        h ← index (d_height ocr_data) i;
        acc ← text_area ocr_data rest;
        Ok (w * h + acc)
      else text_area ocr_data rest
  end.

(** [OCRService._calculate_text_coverage], on the image's size. *)
Definition _calculate_text_coverage (ocr_data : ocr_dict)
    (im_width im_height : Z) : result Q :=
  let image_area := im_width * im_height in
  total_text_area ← text_area ocr_data (seq 0 (length (d_text ocr_data)));
  if 0 <? image_area then
    ratio ← truediv (inject_Z total_text_area) (inject_Z image_area);
    Ok (min_ ratio 1)
  else Ok 0%Q.

(** [OCRService._calculate_box_density], on the image's size. *)
Definition _calculate_box_density (ocr_data : ocr_dict)
    (im_width im_height : Z) : result Q :=
  let valid_boxes := Z.of_nat (length (List.filter valid (d_conf ocr_data))) in
  let image_area := im_width * im_height in
  expected_dense ← truediv (inject_Z image_area) (inject_Z 10000);
  if Qltb 0 expected_dense then
    ratio ← truediv (inject_Z valid_boxes) expected_dense;
    Ok (min_ ratio 1)
  else Ok 0%Q.

(** [OCRService._needs_vision_api] *)
Definition _needs_vision_api `{Settings}
    (text_coverage box_density confidence : Q) : bool :=
  Qltb text_coverage OCR_TEXT_COVERAGE_THRESHOLD
  || Qltb box_density OCR_BOX_DENSITY_THRESHOLD
  || Qltb confidence OCR_CONFIDENCE_THRESHOLD.

(** [OCRService.extract_text_and_signals] *)
Definition extract_text_and_signals `{Settings} `{Imaging}
    (image_bytes : list Byte.byte) : result OCRResult :=
  im ← image_open image_bytes;
  im ← _resize_if_needed im;
  ocr_data ← image_to_data im;
  raw ← image_to_string im;
  let text := strip raw in
  confidence ← _calculate_confidence ocr_data;
  text_coverage ← _calculate_text_coverage ocr_data (image_width im) (image_height im);
  box_density ← _calculate_box_density ocr_data (image_width im) (image_height im);
  let needs_vision := _needs_vision_api text_coverage box_density confidence in
  Ok {| r_text := text; r_confidence := confidence;
        r_text_coverage := text_coverage; r_box_density := box_density;
        r_needs_vision := needs_vision |}.

End Ocr.

(* ===================================================================== *)
(** * rag/services/vision_service.py, rag/services/image_processor.py *)
(* ===================================================================== *)

Module ImageProcessor.
Import Py Llm Ocr.

Definition vision_prompt : string :=
  "Describe this image concisely in 2-3 sentences." +:+ newline
  +:+ "Focus on:" +:+ newline
  +:+ "- Main visual elements (charts, diagrams, photos)" +:+ newline
  +:+ "- Key information or concepts shown" +:+ newline
  +:+ "- Any text visible in the image" +:+ newline +:+ newline
  +:+ "Be specific and factual.".

(** [VisionService.describe_image] *)
Definition describe_image `{Oracle} (image_url : string) : result string :=
  description ← complete_with_vision vision_prompt image_url "gpt-4.1-mini" 150;
  Ok (strip description).

(** What a run of [process_image] amounts to: its result and the URLs it
    sent to the vision oracle, in order. *)
Record run := {
  returned : result string;
  vision_calls : list string
}.

(** The merge of a description with the OCR text. *)
Definition merge (vision_description ocr_text : string) : string :=
  if truthy vision_description
  then strip (vision_description +:+ newline +:+ newline +:+ ocr_text)
  else ocr_text.

(** The part of [process_image] after OCR. *)
Definition after_ocr `{Oracle} (ocr_result : OCRResult)
    (cloudinary_url : string) : run :=
  let final_text := r_text ocr_result in
  if r_needs_vision ocr_result then
    match describe_image cloudinary_url with
    | Ok vision_description =>
        {| returned := Ok (merge vision_description (r_text ocr_result));
           vision_calls := [cloudinary_url] |}
    | Raise e => {| returned := Raise e; vision_calls := [cloudinary_url] |}
    end
  else {| returned := Ok final_text; vision_calls := [] |}.

(** [ImageProcessor.process_image] *)
Definition process_image `{Oracle} `{Settings} `{Imaging}
    (image_bytes : list Byte.byte) (cloudinary_url : string) : run :=
  match extract_text_and_signals image_bytes with
  | Ok ocr_result => after_ocr ocr_result cloudinary_url
  | Raise e => {| returned := Raise e; vision_calls := [] |}
  end.

End ImageProcessor.

(* ===================================================================== *)
(** * File names: more Python fragments *)
(* ===================================================================== *)

Module PyStr.
Import Py.

Definition dot : ascii := ascii_of_nat 46.
Definition space : ascii := ascii_of_nat 32.
Definition lf : ascii := ascii_of_nat 10.

(** [c in s] for a one-character string [c]. *)
Fixpoint contains (c : ascii) (s : string) : bool :=
  match s with
  | EmptyString => false
  | String d s' => Ascii.eqb d c || contains c s'
  end.

(** [s.rsplit(c, 1)]: the string itself when [c] does not occur in it,
    else what is before and what is after the last [c]. *)
Fixpoint rsplit1 (c : ascii) (s : string) : list string :=
  match s with
  | EmptyString => [EmptyString]
  | String d s' =>
      match rsplit1 c s' with
      | [_] => if Ascii.eqb d c then [EmptyString; s'] else [String d s']
      | head :: rest => String d head :: rest
      | [] => []
      end
  end.

(** [l[-1]] *)
Definition last_item {A} (l : list A) : result A :=
  match last l with
  | Some x => Ok x
  | None => Raise IndexError
  end.

(** [str.lower] on one code point below 256: the letters A-Z and the
    capital letters of Latin-1 (192-222 without the multiplication sign)
    move up by 32. *)
Definition lower_char (c : ascii) : ascii :=
  let n := nat_of_ascii c in
  if ((65 <=? n)%nat && (n <=? 90)%nat)
     || ((192 <=? n)%nat && (n <=? 222)%nat && negb (n =? 215)%nat)
  then ascii_of_nat (n + 32) else c.

Fixpoint lower (s : string) : string :=
  match s with
  | EmptyString => EmptyString
  | String c s' => String (lower_char c) (lower s')
  end.

(** [x in (a, b, ...)] on strings. *)
Definition among (x : string) (l : list string) : bool :=
  existsb (String.eqb x) l.

(** [s.split('\n')] *)
Fixpoint split_lines (s : string) : list string :=
  match s with
  | EmptyString => [EmptyString]
  | String c s' =>
      match split_lines s' with
      | line :: lines =>
          if Ascii.eqb c lf then EmptyString :: line :: lines
          else String c line :: lines
      | [] => []
      end
  end.

(** [re.sub(r'\n{3,}', '\n\n', s)]: [run] line feeds have been read and
    not yet written. *)
Definition flush_line_feeds (run : nat) : string :=
  if (3 <=? run)%nat then String lf (String lf EmptyString)
  else String.string_of_list_ascii (replicate run lf).

Fixpoint sub_line_feeds (run : nat) (s : string) : string :=
  match s with
  | EmptyString => flush_line_feeds run
  | String c s' =>
      if Ascii.eqb c lf then sub_line_feeds (S run) s'
      else flush_line_feeds run +:+ String c (sub_line_feeds 0 s')
  end.

(** [re.sub(r' +', ' ', s)]: [in_run] tells that the previous character
    was a space. *)
Fixpoint sub_spaces (in_run : bool) (s : string) : string :=
  match s with
  | EmptyString => EmptyString
  | String c s' =>
      if Ascii.eqb c space then
        if in_run then sub_spaces true s' else String space (sub_spaces true s')
      else String c (sub_spaces false s')
  end.

(** The characters of a text that are not white space, in order. *)
Fixpoint visible (s : string) : list ascii :=
  match s with
  | EmptyString => []
  | String c s' => if is_space c then visible s' else c :: visible s'
  end.

End PyStr.

(* ===================================================================== *)
(** * rag/services/image_processor.py: [is_supported_image] *)
(* ===================================================================== *)

Module ImageFiles.
Import Py PyStr.

(** [filename.rsplit('.', 1)[-1].lower() if '.' in filename else ''] *)
Definition extension_or_empty (filename : string) : result string :=
  if contains dot filename then
    ext ← last_item (rsplit1 dot filename); Ok (lower ext)
  else Ok EmptyString.

Definition IMAGE_EXTENSIONS : list string := ["png"; "jpg"; "jpeg"; "gif"; "webp"].

(** [ImageProcessor.is_supported_image] *)
Definition is_supported_image (filename : string) : result bool :=
  ext ← extension_or_empty filename;
  Ok (among ext IMAGE_EXTENSIONS).

End ImageFiles.

(* ===================================================================== *)
(** * rag/services/document_processor.py *)
(* ===================================================================== *)

Module DocumentProcessor.
Import Py PyStr.

(** [ALLOWED_EXTENSIONS = {'pdf', 'docx'}] *)
Definition ALLOWED_EXTENSIONS : list string := ["pdf"; "docx"].

(** [DocumentProcessor.get_file_extension] *)
Definition get_file_extension (filename : string) : result string :=
  if negb (contains dot filename) then Ok EmptyString
  else ext ← Ocr.index (rsplit1 dot filename) 1; Ok (lower ext).

(** [DocumentProcessor.is_supported] *)
Definition is_supported (filename : string) : result bool :=
  ext ← get_file_extension filename;
  Ok (among ext ALLOWED_EXTENSIONS).

(** [DocumentProcessor._clean_text] *)
Definition _clean_text (text : string) : string :=
  let text := sub_line_feeds 0 text in
  let text := sub_spaces false text in
  let lines := map strip (split_lines text) in
  join (String lf EmptyString) lines.

(** pypdf and python-docx: the text of each page, the text of each
    paragraph; either library may raise on the bytes it is given. *)
Class Readers := {
  pdf_page_texts : list Byte.byte -> result (list string);
  docx_paragraph_texts : list Byte.byte -> result (list string)
}.

(** [DocumentProcessor._extract_pdf] *)
Definition _extract_pdf `{Readers} (content : list Byte.byte) : result string :=
  pages ← pdf_page_texts content;
  let text_parts := List.filter truthy pages in
  Ok (join (newline +:+ newline) text_parts).

(** [DocumentProcessor._extract_docx] *)
Definition _extract_docx `{Readers} (content : list Byte.byte) : result string :=
  paragraphs ← docx_paragraph_texts content;
  let text_parts := List.filter (fun p => truthy (strip p)) paragraphs in
  Ok (join (newline +:+ newline) text_parts).

(** Why a [DocumentProcessorError] is raised; its message is built from
    these. *)
Inductive reason :=
| UnsupportedFileType (ext : string)
| NoTextContent
| FailedToExtract (e : exn).

(** How [extract_text] ends. *)
Inductive extraction :=
| Extracted (text doc_type : string)
| DocumentProcessorError (why : reason)
| Uncaught (e : exn).

(** [DocumentProcessor.extract_text] *)
Definition extract_text `{Readers} (file_content : list Byte.byte)
    (filename : string) : extraction :=
  match get_file_extension filename with
  | Raise e => Uncaught e
  | Ok ext =>
      if negb (among ext ALLOWED_EXTENSIONS) then
        DocumentProcessorError (UnsupportedFileType ext)
      else
        (* try: ... except DocumentProcessorError: raise
                    except Exception as e: raise DocumentProcessorError(...) *)
        match (if String.eqb ext "pdf" then _extract_pdf file_content
               else _extract_docx file_content) with
        | Raise e => DocumentProcessorError (FailedToExtract e)
        | Ok text =>
            let text := _clean_text text in
            if negb (truthy (strip text)) then DocumentProcessorError NoTextContent
            else Extracted text ext
        end
  end.

End DocumentProcessor.

(* ===================================================================== *)
(** * rag/services/cloudinary_service.py: [upload] *)
(* ===================================================================== *)

Module Cloudinary.
Import Py PyStr.

(** The arguments of [cloudinary.uploader.upload]. *)
Record upload_call := {
  u_file : list Byte.byte;
  u_folder : string;
  u_resource_type : string;
  u_public_id : string
}.

(** The uploader; on success its answer holds [secure_url] and
    [public_id]. *)
Class Uploader := {
  uploader_upload : upload_call -> result (string * string)
}.

(** [CloudinaryService.upload] *)
Definition upload `{Uploader} (file_bytes : list Byte.byte) (filename : string)
    (folder resource_type : string) : result (string * string) :=
  ext ← ImageFiles.extension_or_empty filename;
  let resource_type :=
    if among ext ["pdf"; "docx"; "doc"; "txt"] then "raw"
    else if among ext ["png"; "jpg"; "jpeg"; "gif"; "webp"] then "image"
    else resource_type in
  public_id ← (if contains dot filename
               then Ocr.index (rsplit1 dot filename) 0
               else Ok filename);
  uploader_upload {| u_file := file_bytes; u_folder := folder;
                     u_resource_type := resource_type;
                     u_public_id := public_id |}.

End Cloudinary.

(* ===================================================================== *)
(** * rag/views.py: [ChatStreamView.post.event_stream] *)
(* ===================================================================== *)

Module Views.
Import Py Llm Prompts Classifier Retriever Generator.

(** A chat message as the view creates it. *)
Record ChatMessage := {
  m_session : string;
  m_role : string;
  m_content : string;
  m_used_context : bool
}.

(** [ChatMessage.objects.create], and [str(e)] for an exception. *)
Class Persistence := {
  create_message : ChatMessage -> result unit;
  str_of_exception : exn -> string
}.

(** The payload of a server-sent event, before [json.dumps]. *)
Inductive sse :=
| SessionData (session_id : string)
| TokenData (content : string)
| DoneData (used_context : bool) (sources : option (list (gmap string string)))
| ErrorData (message : string).

(** The variables of [event_stream] while it consumes the generator, and
    what it has yielded so far. *)
Record loop_vars := {
  v_full_response : string;
  v_used_context : bool;
  v_sources : option (list (gmap string string));
  v_yielded : list sse
}.

(** The body of [async for event in Generator.stream_generate(...)]. *)
Definition on_event (v : loop_vars) (event : Generator.event) : loop_vars :=
  match event with
  | Token content =>
      {| v_full_response := v_full_response v +:+ content;
         v_used_context := v_used_context v;
         v_sources := v_sources v;
         v_yielded := v_yielded v ++ [TokenData content] |}
  | Done used srcs =>
      {| v_full_response := v_full_response v;
         v_used_context := used;
         v_sources := srcs;
         v_yielded := v_yielded v |}
  end.

(** The loop pulls until the generator stops or raises.  That takes at
    most one pull for each chunk of the upstream, one for the terminal event
    and one to find the generator finished. *)
Definition drain_all `{Oracle} `{SystemPrompts} `{Unicode} (question : string)
    (chunks : option (list RetrievedChunk)) : list Generator.event * ending :=
  let pulls :=
    match stream_request question chunks with
    | Ok u => length (deltas u)
    | Raise _ => 0%nat
    end in
  drain (S (S pulls)) question chunks Created.

(** What a run of [event_stream] amounts to: the events it yields, and
    the messages it asked the database to create. *)
Record stream_run := {
  sent : list sse;
  create_calls : list ChatMessage
}.

(** The [except Exception as e] clause. *)
Definition on_exception `{Persistence} (yielded : list sse)
    (calls : list ChatMessage) (e : exn) : stream_run :=
  {| sent := yielded ++ [ErrorData (str_of_exception e)]; create_calls := calls |}.

(** [event_stream], for the message, user and session of the request
    and a content of the table [document_chunks]. *)
Definition event_stream `{Oracle} `{SystemPrompts} `{Unicode} `{VectorBackend} `{Persistence}
    (table : list DocumentChunk) (message user_id session_id : string)
    : stream_run :=
  match classify message with
  | Raise e => on_exception [] [] e
  | Ok query_type =>
      match (if needs_retrieval query_type
             then chunks ← retrieve table message user_id DEFAULT_TOP_K;
                  Ok (Some chunks)
             else Ok None) with
      | Raise e => on_exception [] [] e
      | Ok chunks =>
          let '(events, ending) := drain_all message chunks in
          let v := fold_left on_event events
                     {| v_full_response := EmptyString;
                        v_used_context := false;
                        v_sources := None;
                        v_yielded := [SessionData session_id] |} in
          match ending with
          | Failed e => on_exception (v_yielded v) [] e
          | _ =>
              let assistant :=
                {| m_session := session_id; m_role := "assistant";
                   m_content := v_full_response v;
                   m_used_context := v_used_context v |} in
              match create_message assistant with
              | Raise e => on_exception (v_yielded v) [assistant] e
              | Ok _ =>
                  {| sent := v_yielded v
                             ++ [DoneData (v_used_context v) (v_sources v)];
                     create_calls := [assistant] |}
              end
          end
      end
  end.

(** The events that end a stream. *)
Definition terminal (ev : sse) : bool :=
  match ev with
  | DoneData _ _ | ErrorData _ => true
  | _ => false
  end.

End Views.


(* ===================================================================== *)
(** * The numbers binary64 floats stand for *)
(* ===================================================================== *)

Module Binary64.

(** [2^e], for an exponent of either sign. *)
Definition pw (e : Z) : Q := (2 ^ e)%Q.

(** The number of the positive finite float with mantissa [m] and
    exponent [e]. *)
Definition value (m : positive) (e : Z) : Q := (inject_Z (Z.pos m) * pw e)%Q.

(** A normal mantissa: 53 binary digits. *)
Definition canonical (m : positive) : Prop := 2 ^ 52 <= Z.pos m < 2 ^ 53.

(** One part in 2^52. *)
Definition eps : Q := 1 # 4503599627370496.

End Binary64.
(* ===================================================================== *)
(** * Scripted collaborators for concrete runs *)
(* ===================================================================== *)

Module Doubles.
Import Py Llm.

Definition dquote : string := String (ascii_of_nat 34) EmptyString.

(** The text [{"query_type": "<name>"}]. *)
Definition query_type_reply (name : string) : string :=
  "{" +:+ dquote +:+ "query_type" +:+ dquote +:+ ": "
  +:+ dquote +:+ name +:+ dquote +:+ "}".

(** A decoder that knows the texts of a table and rejects every other
    text; the tables below hold texts [json.loads] decodes the same way
    and are applied to texts it rejects. *)
Fixpoint loads_table (table : list (string * json)) (s : string) : result json :=
  match table with
  | [] => Raise JSONDecodeError
  | (k, v) :: rest => if String.eqb k s then Ok v else loads_table rest s
  end.

Definition replies : list (string * json) :=
  [ ("{}", JObj ∅);
    (query_type_reply "GENERAL", JObj {[ "query_type" := JStr "GENERAL" ]});
    (query_type_reply "PROFILE_DEPENDENT",
       JObj {[ "query_type" := JStr "PROFILE_DEPENDENT" ]});
    (query_type_reply "HYBRID", JObj {[ "query_type" := JStr "HYBRID" ]});
    (query_type_reply "MAYBE", JObj {[ "query_type" := JStr "MAYBE" ]}) ].

(** An oracle that answers every request the same way. *)
Definition scripted (reply : result (option string)) (stream : result upstream)
    (vision : result (option string)) : Oracle :=
  {| create := fun _ => reply;
     create_stream := fun _ => stream;
     create_vision := fun _ => vision;
     json_loads := loads_table replies |}.

Definition replying (content : string) : Oracle :=
  scripted (Ok (Some content)) (Ok (UEnd None)) (Ok (Some content)).

Definition unreachable : Oracle :=
  scripted (Raise (ServiceError "connection refused"))
           (Raise (ServiceError "connection refused"))
           (Raise (ServiceError "connection refused")).

Definition streaming (u : upstream) : Oracle :=
  scripted (Ok None) (Ok u) (Ok None).

Definition answering (content : string) (u : upstream) : Oracle :=
  scripted (Ok (Some content)) (Ok u) (Ok None).

(** Two fragments with content, among chunks without. *)
Definition two_fragments : upstream :=
  UChunk None (UChunk (Some "F-1")
    (UChunk (Some "") (UChunk (Some " visa") (UEnd None)))).

Definition broken_after_one : upstream :=
  UChunk (Some "F-1") (UEnd (Some (ServiceError "connection reset"))).

Definition retrieved (content : string) (sim : Q) (asset : option string)
    : Retriever.RetrievedChunk :=
  {| Retriever.rc_content := content; Retriever.rc_document_id := "doc";
     Retriever.rc_doc_type := "pdf"; Retriever.rc_similarity := Num sim;
     Retriever.rc_asset_id := asset |}.

Definition two_chunks : list Retriever.RetrievedChunk :=
  [ retrieved "Visa type: F-1 student visa" (61 # 100) (Some "a1");
    retrieved "Lease agreement" (30 # 100) None ].

Definition prompts : Prompts.SystemPrompts :=
  {| Prompts.CLASSIFIER_SYSTEM_PROMPT := "You are a query classifier for a study abroad chatbot.";
     Prompts.RAG_SYSTEM_PROMPT := "You are a helpful study abroad advisor chatbot." |}.

(** The case mapping on the letters a to z, which is [str.upper] on
    texts that hold no other lower-case letter. *)
Definition upper_char (c : ascii) : ascii :=
  let n := nat_of_ascii c in
  if ((97 <=? n)%nat && (n <=? 122)%nat) then ascii_of_nat (n - 32) else c.

Fixpoint ascii_upper (s : string) : string :=
  match s with
  | EmptyString => EmptyString
  | String c s' => String (upper_char c) (ascii_upper s')
  end.

Definition letters : Unicode := {| upper := ascii_upper |}.

(** Vectors of the plane that are unit vectors or the zero vector: the
    cosine distance of two unit vectors is one minus their dot product,
    and the distance to the zero vector is NaN. *)
Fixpoint dot (u v : list Q) : Q :=
  match u, v with
  | x :: u', y :: v' => x * y + dot u' v'
  | _, _ => 0
  end.

Definition zero_vector (u : list Q) : bool := forallb (fun x => Qeq_bool x 0) u.

Definition plane_distance (u v : list Q) : float :=
  if zero_vector u || zero_vector v then NaN else Num (1 - dot u v).

(** A server that is reachable and refuses a negative [LIMIT] only. *)
Definition limit_error (top_k : Z) : option exn :=
  if top_k <? 0 then Some (DatabaseError "LIMIT must not be negative") else None.

Definition plane : Retriever.VectorBackend :=
  {| Retriever.generate_embedding := fun _ => Ok [1; 0]%Q;
     Retriever.cosine_distance := plane_distance;
     Retriever.execute_error := fun _ _ _ top_k => limit_error top_k;
     Retriever.negative_limit_refused := fun _ _ _ top_k Hk =>
       ltac:(unfold limit_error; destruct (Z.ltb_spec top_k 0);
             [discriminate|lia]) |}.

(** A server whose connection is lost. *)
Definition offline : Retriever.VectorBackend :=
  {| Retriever.generate_embedding := fun _ => Ok [1; 0]%Q;
     Retriever.cosine_distance := plane_distance;
     Retriever.execute_error := fun _ _ _ _ =>
       Some (DatabaseError "server closed the connection unexpectedly");
     Retriever.negative_limit_refused := fun _ _ _ _ _ => ltac:(discriminate) |}.

Definition chunk_row (id user content : string) (e : list Q)
    : Retriever.DocumentChunk :=
  {| Retriever.id := id; Retriever.user_id := user;
     Retriever.asset_id := Some ("asset-" +:+ id);
     Retriever.document_id := "doc-" +:+ id;
     Retriever.doc_type := "pdf"; Retriever.source := "user_upload";
     Retriever.content := content; Retriever.embedding := e |}.

(** Two tenants; similarities to the query are 1, 3/5, 0 and 4/5. *)
Definition two_tenants : list Retriever.DocumentChunk :=
  [ chunk_row "1" "alice" "visa: F-1" [3 # 5; 4 # 5]%Q;
    chunk_row "2" "bob" "visa: J-1" [1; 0]%Q;
    chunk_row "3" "alice" "lease" [0; 1]%Q;
    chunk_row "4" "alice" "admission letter" [4 # 5; 3 # 5]%Q ].

(** A tenant with a chunk in the direction of the query and a chunk
    whose embedding is the zero vector. *)
Definition zero_norm_row : list Retriever.DocumentChunk :=
  [ chunk_row "5" "alice" "cover page" [0; 0]%Q;
    chunk_row "6" "alice" "visa: F-1" [1; 0]%Q ].

Definition thresholds : Ocr.Settings :=
  {| Ocr.OCR_TEXT_COVERAGE_THRESHOLD := 5 # 100;
     Ocr.OCR_BOX_DENSITY_THRESHOLD := 30 # 100;
     Ocr.OCR_CONFIDENCE_THRESHOLD := 60 |}.

(** Images as a size and the lines Tesseract reads from them. *)
Record picture := {
  p_width : Z; p_height : Z;
  p_rows : list Ocr.tsv_row;
  p_text : string
}.

Definition pictures (p : picture) : Ocr.Imaging :=
  {| Ocr.image := picture;
     Ocr.image_open := fun _ => Ok p;
     Ocr.image_width := p_width;
     Ocr.image_height := p_height;
     Ocr.image_resize := fun im size =>
       if (size.1 <=? 0) || (size.2 <=? 0)
       then Raise ValueError
       else Ok {| p_width := size.1; p_height := size.2;
                  p_rows := p_rows im; p_text := p_text im |};
     Ocr.tesseract_tsv := fun im => Ok (p_rows im);
     Ocr.image_to_string := fun im => Ok (p_text im) |}.

Definition word (w h : N) (c : Q) (t : string) : Ocr.tsv_row :=
  {| Ocr.left := 0; Ocr.top := 0; Ocr.width := w; Ocr.height := h;
     Ocr.conf := c; Ocr.text := t |}.

(** An image with no readable text, and a scan with two words read
    with low confidence. *)
Definition blank_chart : picture :=
  {| p_width := 200; p_height := 100; p_rows := []; p_text := "" |}.

Definition scanned_letter : picture :=
  {| p_width := 200; p_height := 100;
     p_rows := [word 40 10 40 "Visa"; word 60 10 40 "F-1"];
     p_text := "Visa F-1" +:+ newline |}.

(** A portrait poster larger than the cap. *)
Definition poster : picture :=
  {| p_width := 3000; p_height := 4000; p_rows := []; p_text := "" |}.

(** An installation without the Tesseract binary. *)
Definition no_tesseract : Ocr.Imaging :=
  {| Ocr.image := picture;
     Ocr.image_open := fun _ => Ok scanned_letter;
     Ocr.image_width := p_width;
     Ocr.image_height := p_height;
     Ocr.image_resize := fun im _ => Ok im;
     Ocr.tesseract_tsv := fun _ => Raise (ServiceError "tesseract is not installed");
     Ocr.image_to_string := fun _ => Raise (ServiceError "tesseract is not installed") |}.

(** A store that files everything under the same address. *)
Definition cdn : Cloudinary.Uploader :=
  {| Cloudinary.uploader_upload := fun call =>
       Ok ("https://cdn/" +:+ Cloudinary.u_public_id call, Cloudinary.u_public_id call) |}.

(** A PDF of three pages, the second one empty, and a DOCX file that
    cannot be read. *)
Definition readers : DocumentProcessor.Readers :=
  {| DocumentProcessor.pdf_page_texts := fun _ =>
       Ok ["Offer  of   admission"; ""; " Visa type: F-1 "];
     DocumentProcessor.docx_paragraph_texts := fun _ =>
       Raise (ServiceError "File is not a zip file") |}.

(** An oracle that classifies every question as [name] and streams [u]. *)
Definition chatting (name : string) (u : upstream) : Oracle :=
  scripted (Ok (Some (query_type_reply name))) (Ok u) (Ok None).

(** A database that stores every message. *)
Definition storing : Views.Persistence :=
  {| Views.create_message := fun _ => Ok tt;
     Views.str_of_exception := fun e =>
       match e with
       | ServiceError msg => msg
       | DatabaseError msg => msg
       | _ => "error"
       end |}.

End Doubles.

(* ===================================================================== *)
(** * Properties of the chunker *)
(* ===================================================================== *)

Section ChunkerFacts.
Import Py Chunker.
Context {T : Tokenizer}.

(** With a positive stride the loop ends: [start] stays non-negative
    and grows on every pass. *)
Lemma while_loop_positive_stride (tokens : list Z) (chunk_size chunk_overlap : Z) :
  chunk_overlap < chunk_size ->
  forall (fuel : nat) (st : loop_state),
    0 <= start st ->
    Z.of_nat (length tokens) - start st <= Z.of_nat fuel ->
    is_Some (while_loop fuel tokens chunk_size chunk_overlap st).
Proof.
  intros Hstride fuel.
  induction fuel as [|fuel IH]; intros st Hnn Hfuel; simpl;
    unfold loop_cond; destruct (Z.ltb_spec (start st) (Z.of_nat (length tokens))) as [Hlt|Hge];
    try (eexists; reflexivity).
  - lia.
  - apply IH; unfold loop_body; simpl.
    + destruct (Z.leb_spec (start st + (chunk_size - chunk_overlap)) 0); lia.
    + destruct (Z.leb_spec (start st + (chunk_size - chunk_overlap)) 0); lia.
Qed.

(** [chunk_text] returns whenever [chunk_overlap < chunk_size]. *)
Lemma chunk_text_returns (text : string) (chunk_size chunk_overlap : Z) :
  chunk_overlap < chunk_size ->
  is_Some (chunk_text (length (encode text)) text chunk_size chunk_overlap).
Proof.
  intros Hstride. unfold chunk_text.
  destruct (negb (truthy (strip text))); [eexists; reflexivity|].
  destruct (Z.leb_spec (Z.of_nat (length (encode text))) chunk_size);
    [eexists; reflexivity|].
  apply while_loop_positive_stride; simpl; lia.
Qed.

(** With [chunk_overlap >= chunk_size] the guard [start <= 0] does not
    help: [start] never leaves the interval [0 .. chunk_size], which lies
    below [len(tokens)] once the loop has been entered. *)
Lemma while_loop_stuck (tokens : list Z) (chunk_size chunk_overlap : Z) :
  0 < chunk_size ->
  chunk_size < Z.of_nat (length tokens) ->
  chunk_size <= chunk_overlap ->
  forall (fuel : nat) (st : loop_state),
    0 <= start st <= chunk_size ->
    while_loop fuel tokens chunk_size chunk_overlap st = None.
Proof.
  intros Hpos Hlen Hdeg fuel.
  induction fuel as [|fuel IH]; intros st Hst; simpl;
    unfold loop_cond; destruct (Z.ltb_spec (start st) (Z.of_nat (length tokens))) as [Hlt|Hge];
    try reflexivity; try lia.
  apply IH. unfold loop_body; simpl.
  destruct (Z.leb_spec (start st + (chunk_size - chunk_overlap)) 0); lia.
Qed.

(** C3 (as the code behaves).  For a text that is not blank and has
    more than [chunk_size] tokens, a configuration with
    [chunk_overlap >= chunk_size > 0] makes [chunk_text] loop for ever:
    no number of passes brings the [while] loop to its exit.  The stride
    is not forced to [chunk_size]; only a non-positive [start] is reset. *)
Theorem chunk_text_degenerate_overlap_diverges
    (text : string) (chunk_size chunk_overlap : Z) :
  truthy (strip text) = true ->
  0 < chunk_size ->
  chunk_size < Z.of_nat (length (encode text)) ->
  chunk_size <= chunk_overlap ->
  forall fuel : nat, chunk_text fuel text chunk_size chunk_overlap = None.
Proof.
  intros Htext Hpos Hlen Hdeg fuel. unfold chunk_text.
  rewrite Htext. simpl.
  destruct (Z.leb_spec (Z.of_nat (length (encode text))) chunk_size); [lia|].
  apply while_loop_stuck; simpl; lia.
Qed.

End ChunkerFacts.

(** The degenerate configuration on a two-token text: the loop state after
    one pass is the state after two passes. *)
Example chunk_text_loop_state_repeats :
  let tokens := @Chunker.encode Chunker.char_tokenizer "ab" in
  let body := @Chunker.loop_body Chunker.char_tokenizer tokens 1 1 in
  Chunker.start (body {| Chunker.start := 0; Chunker.chunks := [] |}) = 1
  /\ Chunker.start (body (body {| Chunker.start := 0; Chunker.chunks := [] |})) = 1
  /\ Chunker.loop_cond tokens (body (body {| Chunker.start := 0; Chunker.chunks := [] |})) = true.
Proof. repeat split. Qed.

Lemma chunk_text_degenerate_overlap_diverges_witness :
  @Chunker.chunk_text Chunker.char_tokenizer 64 "ab" 1 1 = None.
Proof.
  apply (@chunk_text_degenerate_overlap_diverges Chunker.char_tokenizer "ab" 1 1).
  - reflexivity.
  - lia.
  - simpl. lia.
  - lia.
Defined.

(** The default configuration on the same tokenizer, for comparison. *)
Example chunk_text_regular_run :
  @Chunker.chunk_text Chunker.char_tokenizer 10 "abcdefg" 3 1
  = Some ["abc"; "cde"; "efg"; "g"].
Proof. vm_compute. reflexivity. Qed.

(* ===================================================================== *)
(** * Properties of the query classifier *)
(* ===================================================================== *)

Section ClassifierFacts.
Import Py Llm Prompts Classifier.
Context {O : Oracle} {P : SystemPrompts}.

Lemma QueryType_of_value_inv (raw : json) (t : QueryType) :
  QueryType_of_value raw = Ok t -> raw = JStr (value t).
Proof.
  destruct raw as [| |?|s|?|?]; simpl; try discriminate.
  destruct (String.eqb_spec s "GENERAL") as [->|_]; [intros [= <-]; reflexivity|].
  destruct (String.eqb_spec s "PROFILE_DEPENDENT") as [->|_]; [intros [= <-]; reflexivity|].
  destruct (String.eqb_spec s "HYBRID") as [->|_]; [intros [= <-]; reflexivity|].
  discriminate.
Qed.

Lemma QueryType_of_value_value (t : QueryType) :
  QueryType_of_value (JStr (value t)) = Ok t.
Proof. destruct t; reflexivity. Qed.

(** The conversion to the enum raises nothing but [ValueError]. *)
Lemma QueryType_of_value_raises (raw : json) (e : exn) :
  QueryType_of_value raw = Raise e -> e = ValueError.
Proof.
  destruct raw as [| |?|s|?|?]; simpl; try (intros [= <-]; reflexivity).
  repeat match goal with
         | |- context [String.eqb ?a ?b] => destruct (String.eqb a b); try discriminate
         end.
  intros [= <-]; reflexivity.
Qed.

(** On an object, [classify] returns the member named by the field, and
    [GENERAL] when the field names no member or is missing. *)
Lemma classify_object (query : string) (m : gmap string json) :
  oracle_reply query = Ok (JObj m) ->
  classify query =
    Ok (match QueryType_of_value (default (JStr "GENERAL") (m !! "query_type")) with
        | Ok t => t
        | Raise _ => GENERAL
        end).
Proof.
  unfold oracle_reply, classify. intros ->. simpl.
  destruct (QueryType_of_value _) as [t|e] eqn:E; [reflexivity|].
  apply QueryType_of_value_raises in E. subst e. reflexivity.
Qed.

(** C2 (amended).  When the oracle call returns a JSON object,
    [classify] does not raise: it returns PROFILE_DEPENDENT or HYBRID
    exactly when the object's [query_type] is that name, and GENERAL for
    every other or missing value.  It returns a member other than GENERAL
    only in that way.  An exception of the oracle call, a parse failure
    included, is not turned into GENERAL: [classify] raises it. *)
Theorem classify_fail_safe_on_objects (query : string) :
  (forall m : gmap string json,
      oracle_reply query = Ok (JObj m) ->
      (m !! "query_type" = Some (JStr "PROFILE_DEPENDENT")
       /\ classify query = Ok PROFILE_DEPENDENT)
      \/ (m !! "query_type" = Some (JStr "HYBRID")
          /\ classify query = Ok HYBRID)
      \/ (m !! "query_type" <> Some (JStr "PROFILE_DEPENDENT")
          /\ m !! "query_type" <> Some (JStr "HYBRID")
          /\ classify query = Ok GENERAL))
  /\ (forall t : QueryType,
        classify query = Ok t -> t <> GENERAL ->
        exists m : gmap string json,
          oracle_reply query = Ok (JObj m)
          /\ m !! "query_type" = Some (JStr (value t)))
  /\ (forall e : exn, oracle_reply query = Raise e -> classify query = Raise e).
Proof.
  split; [|split].
  - intros m Hm. rewrite (classify_object _ _ Hm).
    destruct (m !! "query_type") as [raw|] eqn:Hraw; simpl.
    + destruct (QueryType_of_value raw) as [t|e] eqn:E.
      * apply QueryType_of_value_inv in E. subst raw.
        destruct t; simpl; [right; right|left|right; left]; repeat split;
          try reflexivity; discriminate.
      * right; right. repeat split; intros [= ->]; discriminate.
    + right; right. repeat split; discriminate.
  - intros t Ht Hne. unfold classify in Ht. fold (oracle_reply query) in Ht.
    destruct (oracle_reply query) as [[| |?|?|?|m]|e]; simpl in Ht; try discriminate.
    exists m. split; [reflexivity|].
    destruct (m !! "query_type") as [raw|]; simpl in Ht.
    + destruct (QueryType_of_value raw) as [t'|e] eqn:E.
      * injection Ht as ->. apply QueryType_of_value_inv in E. now subst raw.
      * apply QueryType_of_value_raises in E. subst e.
        injection Ht as <-. contradiction.
    + injection Ht as <-. contradiction.
  - intros e He. unfold classify. fold (oracle_reply query). rewrite He. reflexivity.
Qed.

End ClassifierFacts.

(** The claim as written fails: an unreachable oracle and a reply that is
    not JSON both make [classify] raise instead of returning GENERAL. *)
Lemma classify_raises_on_oracle_failure :
  @Classifier.classify Doubles.unreachable Doubles.prompts "What is IELTS?"
    = Py.Raise (Py.ServiceError "connection refused")
  /\ @Classifier.classify (Doubles.replying "I think it is general")
       Doubles.prompts "What is IELTS?"
     = Py.Raise Py.JSONDecodeError
  /\ @Classifier.classify Doubles.unreachable Doubles.prompts "What is IELTS?"
     <> Py.Ok Classifier.GENERAL.
Proof. repeat split; try reflexivity. discriminate. Qed.

Lemma classify_fail_safe_on_objects_witness :
  @Classifier.classify (Doubles.replying (Doubles.query_type_reply "MAYBE"))
    Doubles.prompts "What visa type am I applying for?"
  = Py.Ok Classifier.GENERAL.
Proof.
  destruct (@classify_fail_safe_on_objects
              (Doubles.replying (Doubles.query_type_reply "MAYBE"))
              Doubles.prompts "What visa type am I applying for?") as [H _].
  destruct (H {[ "query_type" := Llm.JStr "MAYBE" ]} eq_refl)
    as [[A _]|[[A _]|[_ [_ A]]]].
  - vm_compute in A. discriminate A.
  - vm_compute in A. discriminate A.
  - exact A.
Defined.

(** The three well-formed replies and the empty object. *)
Example classify_named_members :
  @Classifier.classify (Doubles.replying (Doubles.query_type_reply "PROFILE_DEPENDENT"))
    Doubles.prompts "What visa type am I applying for?" = Py.Ok Classifier.PROFILE_DEPENDENT
  /\ @Classifier.classify (Doubles.replying (Doubles.query_type_reply "HYBRID"))
       Doubles.prompts "How does my GPA compare?" = Py.Ok Classifier.HYBRID
  /\ @Classifier.classify (Doubles.replying (Doubles.query_type_reply "GENERAL"))
       Doubles.prompts "What is IELTS?" = Py.Ok Classifier.GENERAL
  /\ @Classifier.classify (Doubles.replying "{}")
       Doubles.prompts "What is IELTS?" = Py.Ok Classifier.GENERAL
  /\ @Classifier.classify (Doubles.replying "")
       Doubles.prompts "What is IELTS?" = Py.Ok Classifier.GENERAL.
Proof. repeat split; reflexivity. Qed.

(* ===================================================================== *)
(** * Properties of the retriever *)
(* ===================================================================== *)

Section Float8Order.
Import Py Retriever.

(** PostgreSQL's order on [float8] is a total preorder with NaN on top. *)
Lemma float8_le_refl a : float8_le a a = true.
Proof. destruct a; simpl; [apply Qle_bool_iff; lra|reflexivity]. Qed.

Lemma float8_le_trans a b c :
  float8_le a b = true -> float8_le b c = true -> float8_le a c = true.
Proof.
  destruct a, b, c; simpl; try congruence.
  rewrite !Qle_bool_iff. lra.
Qed.

Lemma float8_le_total a b : float8_le a b = false -> float8_le b a = true.
Proof.
  destruct a as [x|], b as [y|]; simpl; try congruence.
  intros Hab. apply Qle_bool_iff.
  destruct (Qlt_le_dec y x) as [Hlt|Hle]; [lra|].
  apply Qle_bool_iff in Hle. congruence.
Qed.


End Float8Order.

Section SortedLists.
Context {A : Type} (R : A -> A -> Prop).

Lemma StronglySorted_take (n : nat) (l : list A) :
  StronglySorted R l -> StronglySorted R (take n l).
Proof.
  intros Hs. revert n. induction Hs as [|x l Hs IH Hall]; intros [|n]; simpl;
    try constructor; auto.
  now apply Forall_take.
Qed.



End SortedLists.

Lemma StronglySorted_map {A C} (R : C -> C -> Prop) (f : A -> C) (l : list A) :
  StronglySorted (fun a b => R (f a) (f b)) l -> StronglySorted R (map f l).
Proof.
  induction 1 as [|x l Hs IH Hall]; simpl; constructor; auto.
  apply Forall_map. exact Hall.
Qed.

Section RetrieverFacts.
Import Py Retriever.
Context {B : VectorBackend}.

Lemma elem_of_insert_by_distance q r l x :
  x ∈ insert_by_distance q r l <-> x = r \/ x ∈ l.
Proof.
  induction l as [|r' l IH]; simpl.
  - rewrite list_elem_of_singleton, elem_of_nil. tauto.
  - destruct (float8_le _ _).
    + rewrite elem_of_cons. tauto.
    + rewrite !elem_of_cons, IH. tauto.
Qed.

Lemma elem_of_order_by_distance q l x :
  x ∈ order_by_distance q l <-> x ∈ l.
Proof.
  induction l as [|r l IH]; simpl; [tauto|].
  rewrite elem_of_insert_by_distance, elem_of_cons, IH. tauto.
Qed.

Lemma insert_by_distance_perm q r l : insert_by_distance q r l ≡ₚ r :: l.
Proof.
  induction l as [|r' l IH]; simpl; [reflexivity|].
  destruct (float8_le _ _); [reflexivity|].
  rewrite IH. apply Permutation_swap.
Qed.

Lemma order_by_distance_perm q l : order_by_distance q l ≡ₚ l.
Proof.
  induction l as [|r l IH]; simpl; [reflexivity|].
  now rewrite insert_by_distance_perm, IH.
Qed.

Lemma insert_by_distance_sorted q r l :
  StronglySorted (nearer q) l ->
  StronglySorted (nearer q) (insert_by_distance q r l).
Proof.
  induction 1 as [|r' l Hs IH Hall]; simpl.
  - repeat constructor.
  - destruct (float8_le _ _) eqn:E.
    + constructor; [constructor; assumption|].
      constructor; [exact E|].
      eapply Forall_impl; [exact Hall|].
      intros x Hx. unfold nearer in *. eapply float8_le_trans; eassumption.
    + assert (nearer q r' r) as Hr by (now apply float8_le_total).
      constructor; [exact IH|].
      apply Forall_forall. intros x Hx.
      apply elem_of_insert_by_distance in Hx as [->|Hx]; [exact Hr|].
      rewrite Forall_forall in Hall. auto.
Qed.

Lemma order_by_distance_sorted q l :
  StronglySorted (nearer q) (order_by_distance q l).
Proof.
  induction l; simpl; [constructor|]. now apply insert_by_distance_sorted.
Qed.

(** The statement runs exactly when [cursor.execute] raises nothing. *)
Lemma selected_rows_inv table q user top_k rows :
  selected_rows table q user top_k = Ok rows ->
  execute_error table q user top_k = None
  /\ 0 <= top_k
  /\ rows = take (Z.to_nat top_k)
              (order_by_distance q
                 (filter (fun r => where_clause q user r = true) table)).
Proof.
  unfold selected_rows.
  destruct (execute_error table q user top_k) as [e|] eqn:He; [discriminate|].
  intros [= <-]. split; [reflexivity|]. split; [|reflexivity].
  destruct (Z.lt_ge_cases top_k 0) as [Hneg|Hpos]; [|exact Hpos].
  now apply (negative_limit_refused table q user) in Hneg.
Qed.

(** What the statement selects: rows of the table that pass the
    [WHERE] clause, nearest first, at most [top_k] of them. *)
Lemma selected_rows_spec table q user top_k rows :
  selected_rows table q user top_k = Ok rows ->
  Forall (fun r => r ∈ table /\ where_clause q user r = true) rows
  /\ StronglySorted (nearer q) rows
  /\ Z.of_nat (length rows) <= top_k.
Proof.
  intros H. apply selected_rows_inv in H as (_ & Hk & ->). repeat split.
  - apply Forall_forall. intros r Hr.
    apply elem_of_take in Hr as (i & Hr & _).
    apply list_elem_of_lookup_2 in Hr.
    apply elem_of_order_by_distance, list_elem_of_filter in Hr. tauto.
  - apply StronglySorted_take, order_by_distance_sorted.
  - rewrite length_take. lia.
Qed.

(** A retrieval that returns has run the statement on the embedding of
    the query. *)
Lemma retrieve_inv table query user top_k chunks :
  retrieve table query user top_k = Ok chunks ->
  exists q rows,
    generate_embedding query = Ok q
    /\ selected_rows table q user top_k = Ok rows
    /\ chunks = map (fun r => to_chunk (project q r)) rows.
Proof.
  unfold retrieve, _execute_vector_search.
  destruct (generate_embedding query) as [q|] eqn:Hq; simpl; [|discriminate].
  destruct (selected_rows table q user top_k) as [rows|] eqn:Hrows; simpl;
    [|discriminate].
  intros [= <-]. exists q, rows. rewrite map_map. repeat split; assumption || reflexivity.
Qed.


(** On the rows whose distance to the query is a number the threshold
    and the order are the documented ones: when no row of the tenant has
    a NaN distance, every chunk returned has similarity at least 0.25,
    the chunks come in descending order of similarity, and they are at
    most [top_k]. *)
Lemma retrieve_numeric_rows table query user top_k chunks :
  retrieve table query user top_k = Ok chunks ->
  (forall q r, generate_embedding query = Ok q -> r ∈ table -> user_id r = user ->
     cosine_distance (embedding r) q <> NaN) ->
  Forall (fun c => float_ge (rc_similarity c) (Num (25 # 100)) = true) chunks
  /\ StronglySorted
       (fun a b => float_ge (rc_similarity a) (rc_similarity b) = true) chunks
  /\ Z.of_nat (length chunks) <= top_k.
Proof.
  intros H Hnum. apply retrieve_inv in H as (q & rows & Hq & Hsel & ->).
  apply selected_rows_spec in Hsel as (Hall & Hsorted & Hlen).
  assert (Forall (fun r => exists d, cosine_distance (embedding r) q = Num d
                                     /\ (25 # 100 <= 1 - d)%Q) rows) as Hd.
  { eapply Forall_impl; [exact Hall|]. intros r [Hin Hw].
    unfold where_clause in Hw. apply andb_true_iff in Hw as [Hu Hs].
    apply String.eqb_eq in Hu. specialize (Hnum q r Hq Hin Hu).
    unfold similarity in Hs.
    destruct (cosine_distance (embedding r) q) as [d|]; [|congruence].
    exists d. split; [reflexivity|]. simpl in Hs. now apply Qle_bool_iff in Hs. }
  repeat split.
  - apply Forall_map. eapply Forall_impl; [exact Hd|].
    intros r (d & Hr & Hs). simpl. unfold similarity. rewrite Hr. simpl.
    now apply Qle_bool_iff.
  - apply StronglySorted_map. simpl. clear Hall Hlen.
    induction Hsorted as [|r rows Hs IH Hr]; constructor.
    + apply IH. now apply Forall_inv_tail in Hd.
    + apply Forall_inv_tail in Hd as Hd'. apply Forall_inv in Hd as (d & Hdr & _).
      rewrite Forall_forall in Hr, Hd'. apply Forall_forall. intros x Hx.
      destruct (Hd' x Hx) as (dx & Hdx & _). specialize (Hr x Hx).
      unfold nearer in Hr. unfold similarity. rewrite Hdr, Hdx in *. simpl in *.
      apply Qle_bool_iff in Hr. apply Qle_bool_iff. lra.
  - rewrite length_map. exact Hlen.
Qed.

(** C1.  Every chunk [retrieve] returns for a tenant is the projection
    of a row of the table whose [user_id] is that tenant; no row of
    another tenant is among them, whatever the query. *)
Theorem retrieve_tenant_isolation table query user top_k chunks :
  retrieve table query user top_k = Ok chunks ->
  exists (q : list Q) (rows : list DocumentChunk),
    chunks = map (fun r => to_chunk (project q r)) rows
    /\ Forall (fun r => r ∈ table /\ user_id r = user) rows
    /\ (forall other : string, other <> user ->
          Forall (fun r => user_id r <> other) rows).
Proof.
  intros H. apply retrieve_inv in H as (q & rows & _ & Hsel & ->).
  apply selected_rows_spec in Hsel as (Hall & _ & _).
  assert (Forall (fun r => r ∈ table /\ user_id r = user) rows) as Hown.
  { eapply Forall_impl; [exact Hall|]. intros r [Hin Hw]. split; [exact Hin|].
    unfold where_clause in Hw. apply andb_true_iff in Hw as [Hu _].
    now apply String.eqb_eq in Hu. }
  exists q, rows. split; [reflexivity|]. split; [exact Hown|].
  intros other Hne. eapply Forall_impl; [exact Hown|].
  intros r [_ Hu]. congruence.
Qed.


End RetrieverFacts.

Lemma retrieve_tenant_isolation_witness :
  exists (q : list Q) (rows : list Retriever.DocumentChunk),
    [ {| Retriever.rc_content := "admission letter"; Retriever.rc_document_id := "doc-4";
         Retriever.rc_doc_type := "pdf";
         Retriever.rc_similarity := Py.Num (1 - (1 - ((4 # 5) * 1 + ((3 # 5) * 0 + 0))))%Q;
         Retriever.rc_asset_id := Some "asset-4" |};
      {| Retriever.rc_content := "visa: F-1"; Retriever.rc_document_id := "doc-1";
         Retriever.rc_doc_type := "pdf";
         Retriever.rc_similarity := Py.Num (1 - (1 - ((3 # 5) * 1 + ((4 # 5) * 0 + 0))))%Q;
         Retriever.rc_asset_id := Some "asset-1" |} ]
    = map (fun r => Retriever.to_chunk (@Retriever.project Doubles.plane q r)) rows
    /\ Forall (fun r => r ∈ Doubles.two_tenants /\ Retriever.user_id r = "alice") rows
    /\ (forall other : string, other <> "alice" ->
          Forall (fun r => Retriever.user_id r <> other) rows).
Proof.
  apply (@retrieve_tenant_isolation Doubles.plane Doubles.two_tenants
           "What visa type am I applying for?" "alice" 8).
  reflexivity.
Defined.


(** The run on the table with the zero vector: similarities 1 and NaN,
    in this order. *)
Example retrieve_zero_norm_row :
  @Retriever.retrieve Doubles.plane Doubles.zero_norm_row "visa" "alice" 8
  = Py.Ok
      [ {| Retriever.rc_content := "visa: F-1"; Retriever.rc_document_id := "doc-6";
           Retriever.rc_doc_type := "pdf";
           Retriever.rc_similarity := Py.Num (1 - (1 - (1 * 1 + (0 * 0 + 0))))%Q;
           Retriever.rc_asset_id := Some "asset-6" |};
        {| Retriever.rc_content := "cover page"; Retriever.rc_document_id := "doc-5";
           Retriever.rc_doc_type := "pdf";
           Retriever.rc_similarity := Py.NaN;
           Retriever.rc_asset_id := Some "asset-5" |} ].
Proof. reflexivity. Qed.

(** A negative [top_k] is refused by the database, and a lost connection
    is the caller's to handle. *)
Example retrieve_negative_limit :
  @Retriever.retrieve Doubles.plane Doubles.two_tenants "q" "alice" (-1)
  = Py.Raise (Py.DatabaseError "LIMIT must not be negative").
Proof. reflexivity. Qed.

Example retrieve_offline :
  @Retriever.retrieve Doubles.offline Doubles.two_tenants "q" "alice" 8
  = Py.Raise (Py.DatabaseError "server closed the connection unexpectedly").
Proof. reflexivity. Qed.

(* ===================================================================== *)
(** * Properties of the generator *)
(* ===================================================================== *)

Section PyFacts.
Import Py.

Lemma take_min_length {A} (n : nat) (l : list A) :
  take (Nat.min n (length l)) l = take n l.
Proof.
  destruct (Nat.le_ge_cases n (length l)) as [Hle|Hge].
  - now rewrite Nat.min_l.
  - rewrite Nat.min_r by exact Hge. rewrite !take_ge; auto.
Qed.

(** [l[0:n]] is [take n l]. *)
Lemma slice_from_start {A} (l : list A) (n : nat) :
  slice l 0 (Z.of_nat n) = take n l.
Proof.
  unfold slice, clamp_index. simpl.
  destruct (Z.ltb_spec (Z.of_nat n) 0) as [|_]; [lia|].
  replace (Z.to_nat (Z.min 0 (Z.of_nat (length l)))) with 0%nat by lia.
  replace (Z.to_nat (Z.min (Z.of_nat n) (Z.of_nat (length l))
                     - Z.min 0 (Z.of_nat (length l))))
    with (Nat.min n (length l)) by lia.
  simpl. apply take_min_length.
Qed.

(** [s[:n]] is the prefix of [s] of length [min n (len s)]. *)
Lemma str_prefix_spec (n : nat) (s : string) :
  String.length (str_prefix n s) = Nat.min n (String.length s)
  /\ exists rest, s = str_prefix n s +:+ rest.
Proof.
  revert s. induction n as [|n IH]; intros s.
  - simpl. split; [reflexivity|]. now exists s.
  - destruct s as [|c s]; simpl.
    + split; [reflexivity|]. now exists EmptyString.
    + destruct (IH s) as [Hlen [rest Hrest]].
      split; [now rewrite Hlen|].
      exists rest. change (String c s = String c (str_prefix n s +:+ rest)).
      now rewrite <- Hrest.
Qed.

End PyFacts.

Section GeneratorFacts.
Import Py Llm Prompts Retriever Generator.
Context {O : Oracle} {P : SystemPrompts} {U : Unicode}.

Lemma generate_inv question chunks ga :
  generate question chunks = Ok ga ->
  used_context ga = use_context_of chunks
  /\ sources ga =
       if sources_guard (use_context_of chunks) chunks
       then Some (map (fun c => {| asset_id := source_asset_id c;
                                   excerpt := source_excerpt c |})
                      (take 3 (default [] chunks)))
       else None.
Proof.
  unfold generate. destruct (complete _ _ _ _ _) as [a|e]; simpl; [|discriminate].
  intros [= <-]. simpl. split; [reflexivity|].
  unfold batch_sources. change 3 with (Z.of_nat 3). now rewrite slice_from_start.
Qed.

Lemma stream_sources_take use_context chunks :
  stream_sources use_context chunks =
    if sources_guard use_context chunks
    then Some (map source_dict (take 3 (default [] chunks)))
    else None.
Proof.
  unfold stream_sources. change 3 with (Z.of_nat 3). now rewrite slice_from_start.
Qed.

(** [generate] returns whenever the oracle answers. *)
Lemma generate_returns question chunks (a : string) :
  complete get_rag_system_prompt
    (format_rag_user_message question (context_of (use_context_of chunks) chunks))
    None (Some (7 # 10)%Q) 1024 = Ok a ->
  exists ga, generate question chunks = Ok ga /\ answer ga = strip a.
Proof.
  intros H. unfold generate. rewrite H. simpl. eauto.
Qed.

(** C5.  An answer [generate] returns for no chunks ([None] or the empty
    list) has [used_context = false] and no sources; for a non-empty list
    it has [used_context = true] and sources derived, in order, from the
    first three chunks at most, each excerpt being the first 100
    characters at most of the chunk's content.  Sources are present only
    with [used_context = true]. *)
Theorem generate_context_gating question chunks ga :
  generate question chunks = Ok ga ->
  (chunks = None \/ chunks = Some [] ->
     used_context ga = false /\ sources ga = None)
  /\ (forall cs, chunks = Some cs -> cs <> [] ->
        used_context ga = true
        /\ exists srcs, sources ga = Some srcs
             /\ (length srcs <= 3)%nat
             /\ Forall2 snippet_of srcs (take 3 cs))
  /\ (sources ga <> None -> used_context ga = true).
Proof.
  intros H. apply generate_inv in H as [Hu Hs]. repeat split.
  - destruct H as [-> | ->]; rewrite Hu; reflexivity.
  - destruct H as [-> | ->]; rewrite Hs; reflexivity.
  - subst chunks. rewrite Hu. destruct cs; [contradiction|reflexivity].
  - subst chunks. destruct cs as [|c cs]; [contradiction|].
    rewrite Hs. simpl sources_guard. cbv iota.
    eexists. split; [reflexivity|]. split.
    + rewrite length_map, length_take. lia.
    + simpl default. generalize (take 3 (c :: cs)). intros l.
      induction l as [|x l IH]; simpl; constructor; [|exact IH].
      split; [reflexivity|]. exact (str_prefix_spec 100 (rc_content x)).
  - intros Hne. rewrite Hu. rewrite Hs in Hne.
    destruct (use_context_of chunks); [reflexivity|]. now simpl in Hne.
Qed.

Lemma resume_loop_end chunks u :
  stream_complete_next u = StopIteration ->
  resume_loop chunks (use_context_of chunks) u = Yield (done_event chunks) Finished.
Proof.
  intros H. unfold resume_loop, done_event. now rewrite H.
Qed.

Lemma drain_unfold fuel question chunks st :
  drain (S fuel) question chunks st =
    match next question chunks st with
    | Yield ev st' =>
        let '(evs, e) := drain fuel question chunks st' in (ev :: evs, e)
    | StopIteration => ([], Exhausted)
    | Raised e => ([], Failed e)
    end.
Proof. reflexivity. Qed.

Lemma next_streaming question chunks use_context u :
  next question chunks (Streaming use_context u) = resume_loop chunks use_context u.
Proof. reflexivity. Qed.

(** A chunk without content is invisible to the consumer. *)
Lemma resume_loop_skip chunks use_context delta rest :
  truthy_opt delta = false ->
  resume_loop chunks use_context (UChunk delta rest)
  = resume_loop chunks use_context rest.
Proof.
  intros Hd. unfold resume_loop. simpl stream_complete_next.
  destruct delta as [s|]; [|reflexivity]. simpl in Hd. now rewrite Hd.
Qed.

Lemma resume_loop_token chunks use_context s rest :
  truthy s = true ->
  resume_loop chunks use_context (UChunk (Some s) rest)
  = Yield (Token s) (Streaming use_context rest).
Proof.
  intros Hs. unfold resume_loop. simpl stream_complete_next. now rewrite Hs.
Qed.

(** Draining from inside the loop: the fragments that are left, then
    the terminal event if the upstream ends normally. *)
Lemma drain_streaming question chunks (u : upstream) :
  forall fuel : nat,
    (length (fragments (deltas u)) + 2 <= fuel)%nat ->
    drain fuel question chunks (Streaming (use_context_of chunks) u) =
      match upstream_end u with
      | None => (map Token (fragments (deltas u)) ++ [done_event chunks], Exhausted)
      | Some e => (map Token (fragments (deltas u)), Failed e)
      end.
Proof.
  induction u as [[e|]|delta rest IH]; intros fuel Hfuel.
  - destruct fuel as [|fuel]; [simpl in Hfuel; lia|]. reflexivity.
  - destruct fuel as [|[|fuel]]; try (simpl in Hfuel; lia).
    rewrite drain_unfold, next_streaming, resume_loop_end by reflexivity.
    reflexivity.
  - destruct fuel as [|fuel]; [simpl in Hfuel; lia|].
    destruct delta as [s|]; [destruct (truthy s) eqn:Hs|].
    + rewrite drain_unfold, next_streaming, resume_loop_token by exact Hs.
      simpl deltas. simpl fragments. rewrite Hs. simpl upstream_end.
      rewrite IH by (simpl in Hfuel; rewrite Hs in Hfuel; simpl in Hfuel; lia).
      destruct (upstream_end rest); reflexivity.
    + rewrite drain_unfold, next_streaming, resume_loop_skip by exact Hs.
      rewrite <- next_streaming with (question := question), <- drain_unfold.
      simpl deltas. simpl fragments. rewrite Hs. simpl upstream_end.
      apply IH. simpl in Hfuel. now rewrite Hs in Hfuel.
    + rewrite drain_unfold, next_streaming, resume_loop_skip by reflexivity.
      rewrite <- next_streaming with (question := question), <- drain_unfold.
      apply IH. exact Hfuel.
Qed.

Lemma drain_created question chunks fuel :
  drain fuel question chunks Created =
    match stream_request question chunks with
    | Ok u => drain fuel question chunks (Streaming (use_context_of chunks) u)
    | Raise e => match fuel with 0%nat => ([], Pending) | S _ => ([], Failed e) end
    end.
Proof.
  unfold stream_request.
  destruct fuel as [|fuel]; simpl.
  - destruct (stream_complete_open _ _ _ _ _); reflexivity.
  - destruct (stream_complete_open _ _ _ _ _); reflexivity.
Qed.

(** C6.  Once the oracle has opened the stream, the events of
    [stream_generate] are one token event per fragment, in arrival order,
    followed by exactly one [done] event when the upstream is exhausted;
    if the upstream breaks, the tokens so far are followed by the
    exception and by no [done] event.  Each token event is produced by the
    pull that received its fragment, with the upstream left right after
    that fragment. *)
Theorem stream_generate_protocol question chunks (u : upstream) :
  stream_request question chunks = Ok u ->
  (forall fuel : nat,
      (length (fragments (deltas u)) + 2 <= fuel)%nat ->
      drain fuel question chunks Created =
        match upstream_end u with
        | None => (map Token (fragments (deltas u)) ++ [done_event chunks], Exhausted)
        | Some e => (map Token (fragments (deltas u)), Failed e)
        end)
  /\ (forall use_context v token v',
        stream_complete_next v = Yield token v' ->
        next question chunks (Streaming use_context v)
        = Yield (Token token) (Streaming use_context v'))
  /\ (forall use_context v used srcs st',
        next question chunks (Streaming use_context v) = Yield (Done used srcs) st' ->
        stream_complete_next v = StopIteration /\ st' = Finished).
Proof.
  intros Hreq. split; [|split].
  - intros fuel Hfuel. rewrite drain_created, Hreq. now apply drain_streaming.
  - intros uc v token v' Hv. simpl. unfold resume_loop. now rewrite Hv.
  - intros uc v used srcs st'. simpl. unfold resume_loop.
    destruct (stream_complete_next v); [discriminate| |discriminate].
    intros [= _ _ <-]. auto.
Qed.

(** Every [done] event of a run carries the decision for the input. *)
Lemma drain_done_event question chunks fuel :
  forall st used srcs,
    (st = Created \/ st = Finished
     \/ exists u, st = Streaming (use_context_of chunks) u) ->
    Done used srcs ∈ (drain fuel question chunks st).1 ->
    Done used srcs = done_event chunks.
Proof.
  induction fuel as [|fuel IH]; intros st used srcs Hst Hin.
  - simpl in Hin. now apply elem_of_nil in Hin.
  - simpl in Hin.
    assert (Hloop : forall u,
               Done used srcs ∈
                 (match resume_loop chunks (use_context_of chunks) u with
                  | Yield ev st' =>
                      let '(evs, e) := drain fuel question chunks st' in (ev :: evs, e)
                  | StopIteration => ([], Exhausted)
                  | Raised e => ([], Failed e)
                  end).1 ->
               Done used srcs = done_event chunks).
    { intros u. unfold resume_loop.
      destruct (stream_complete_next u) as [tok u'| |e] eqn:E.
      - destruct (drain fuel question chunks (Streaming (use_context_of chunks) u'))
          as [evs en] eqn:D. simpl.
        intros H. apply elem_of_cons in H as [H|H]; [discriminate|].
        apply (IH (Streaming (use_context_of chunks) u')); [eauto|].
        now rewrite D.
      - destruct (drain fuel question chunks Finished) as [evs en] eqn:D. simpl.
        intros H. apply elem_of_cons in H as [H|H]; [exact H|].
        apply (IH Finished); [auto|]. now rewrite D.
      - simpl. intros H. now apply elem_of_nil in H. }
    destruct Hst as [->|[->|[u ->]]].
    + simpl in Hin. destruct (stream_complete_open _ _ _ _ _) as [u|e].
      * now apply (Hloop u).
      * now apply elem_of_nil in Hin.
    + simpl in Hin. now apply elem_of_nil in Hin.
    + simpl in Hin. now apply (Hloop u).
Qed.

(** C9.  The [done] event of [stream_generate] carries the
    [used_context] flag and the sources (same entries, same order) of the
    answer [generate] returns on the same input. *)
Theorem stream_done_matches_generate question chunks ga fuel used srcs :
  generate question chunks = Ok ga ->
  Done used srcs ∈ (drain fuel question chunks Created).1 ->
  used = used_context ga /\ same_sources srcs (sources ga).
Proof.
  intros Hg Hd. apply generate_inv in Hg as [Hu Hs].
  apply drain_done_event in Hd; [|auto].
  unfold done_event in Hd. injection Hd as -> ->.
  split; [now rewrite Hu|]. rewrite Hs, stream_sources_take.
  destruct (sources_guard _ _); simpl; [|exact I].
  generalize (take 3 (default [] chunks)). intros l.
  induction l; simpl; constructor; auto. reflexivity.
Qed.

End GeneratorFacts.

Lemma generate_context_gating_witness :
  exists ga,
    @Generator.generate (Doubles.answering " You are applying for an F-1 visa. "
                           Doubles.two_fragments)
      Doubles.prompts Doubles.letters "What visa type am I applying for?" (Some Doubles.two_chunks)
    = Py.Ok ga
    /\ Generator.used_context ga = true
    /\ exists srcs, Generator.sources ga = Some srcs /\ (length srcs <= 3)%nat.
Proof.
  eexists. split; [reflexivity|].
  destruct (@generate_context_gating
              (Doubles.answering " You are applying for an F-1 visa. "
                 Doubles.two_fragments)
              Doubles.prompts Doubles.letters "What visa type am I applying for?"
              (Some Doubles.two_chunks) _ eq_refl) as (_ & H & _).
  destruct (H Doubles.two_chunks eq_refl ltac:(discriminate))
    as (Hu & srcs & Hs & Hl & _).
  split; [exact Hu|]. exists srcs. split; [exact Hs|exact Hl].
Defined.

(** The answer of that run, spelled out. *)
Example generate_two_chunks :
  @Generator.generate (Doubles.answering " You are applying for an F-1 visa. "
                         Doubles.two_fragments)
    Doubles.prompts Doubles.letters "What visa type am I applying for?" (Some Doubles.two_chunks)
  = Py.Ok {| Generator.answer := "You are applying for an F-1 visa.";
             Generator.used_context := true;
             Generator.sources :=
               Some [ {| Generator.asset_id := "a1";
                         Generator.excerpt := "Visa type: F-1 student visa" |};
                      {| Generator.asset_id := "unknown";
                         Generator.excerpt := "Lease agreement" |} ] |}.
Proof. reflexivity. Qed.

Example generate_no_chunks :
  @Generator.generate (Doubles.answering "IELTS is a language test." Doubles.two_fragments)
    Doubles.prompts Doubles.letters "What is IELTS?" None
  = Py.Ok {| Generator.answer := "IELTS is a language test.";
             Generator.used_context := false; Generator.sources := None |}.
Proof. reflexivity. Qed.

Lemma stream_generate_protocol_witness :
  @Generator.drain (Doubles.streaming Doubles.two_fragments) Doubles.prompts Doubles.letters 4
     "What is IELTS?" None Generator.Created
  = ([Generator.Token "F-1"; Generator.Token " visa"; Generator.Done false None],
     Generator.Exhausted).
Proof.
  destruct (@stream_generate_protocol (Doubles.streaming Doubles.two_fragments)
              Doubles.prompts Doubles.letters "What is IELTS?" None Doubles.two_fragments eq_refl)
    as [H _].
  exact (H 4%nat ltac:(simpl; lia)).
Defined.

(** An upstream that breaks: the token received so far, then the
    exception, and no terminal event. *)
Example stream_generate_broken_upstream :
  @Generator.drain (Doubles.streaming Doubles.broken_after_one) Doubles.prompts Doubles.letters 4
     "What is IELTS?" None Generator.Created
  = ([Generator.Token "F-1"], Generator.Failed (Py.ServiceError "connection reset")).
Proof. reflexivity. Qed.

Lemma stream_done_matches_generate_witness :
  exists ga,
    @Generator.generate (Doubles.answering "F-1 visa" Doubles.two_fragments)
      Doubles.prompts Doubles.letters "What visa type am I applying for?" (Some Doubles.two_chunks)
    = Py.Ok ga
    /\ true = Generator.used_context ga
    /\ Generator.same_sources
         (Some (map Generator.source_dict Doubles.two_chunks))
         (Generator.sources ga).
Proof.
  eexists. split; [reflexivity|].
  apply (@stream_done_matches_generate
           (Doubles.answering "F-1 visa" Doubles.two_fragments)
           Doubles.prompts Doubles.letters "What visa type am I applying for?"
           (Some Doubles.two_chunks) _ 4%nat).
  - reflexivity.
  - change ((@Generator.drain (Doubles.answering "F-1 visa" Doubles.two_fragments)
               Doubles.prompts Doubles.letters 4 "What visa type am I applying for?"
               (Some Doubles.two_chunks) Generator.Created).1)
      with [Generator.Token "F-1"; Generator.Token " visa";
            Generator.Done true (Some (map Generator.source_dict Doubles.two_chunks))].
    do 2 apply list_elem_of_further. apply list_elem_of_here.
Defined.

(* ===================================================================== *)
(** * Properties of the OCR signals *)
(* ===================================================================== *)

Section OcrFacts.
Import Py Ocr.
#[local] Open Scope Q_scope.

Lemma Qltb_lt (a b : Q) : Qltb a b = true <-> a < b.
Proof.
  unfold Qltb. rewrite negb_true_iff. split.
  - intros H. destruct (Qlt_le_dec a b) as [Hlt|Hle]; [exact Hlt|].
    apply Qle_bool_iff in Hle. congruence.
  - intros H. destruct (Qle_bool b a) eqn:E; [|reflexivity].
    apply Qle_bool_iff in E. lra.
Qed.

Lemma Qltb_ge (a b : Q) : Qltb a b = false <-> b <= a.
Proof.
  unfold Qltb. rewrite negb_false_iff. apply Qle_bool_iff.
Qed.

Lemma min__le_r (a b : Q) : min_ a b <= b.
Proof.
  unfold min_. destruct (Qltb b a) eqn:E; [lra|]. now apply Qltb_ge in E.
Qed.

Lemma min__ge (a b c : Q) : c <= a -> c <= b -> c <= min_ a b.
Proof. unfold min_. destruct (Qltb b a); auto. Qed.

Lemma truediv_nonzero (a b : Q) : ~ b == 0 -> truediv a b = Ok (a / b).
Proof.
  intros Hb. unfold truediv. destruct (Qeq_bool b 0) eqn:E; [|reflexivity].
  apply Qeq_bool_iff in E. contradiction.
Qed.

Lemma inject_Z_pos (z : Z) : (0 < z)%Z -> 0 < inject_Z z.
Proof. intros H. unfold Qlt. simpl. lia. Qed.

Lemma inject_Z_nonneg (z : Z) : (0 <= z)%Z -> 0 <= inject_Z z.
Proof. intros H. unfold Qle. simpl. lia. Qed.

Lemma inject_Z_succ (n : nat) :
  inject_Z (Z.of_nat (S n)) == inject_Z (Z.of_nat n) + 1.
Proof. rewrite Nat2Z.inj_succ. unfold Z.succ. now rewrite inject_Z_plus. Qed.

Lemma sum_bounds (l : list Q) :
  Forall (fun x => 0 <= x <= 100) l ->
  0 <= sum l <= 100 * inject_Z (Z.of_nat (length l)).
Proof.
  induction 1 as [|x l Hx _ IH]; simpl sum.
  - split; unfold Qle; simpl; lia.
  - change (length (x :: l)) with (S (length l)). rewrite inject_Z_succ. lra.
Qed.

Lemma valid_confidences_bounds (rows : list tsv_row) :
  Forall (fun r => valid (conf r) = true -> 0 <= conf r <= 100) rows ->
  Forall (fun x => 0 <= x <= 100) (List.filter valid (d_conf (to_dict rows))).
Proof.
  simpl. induction 1 as [|r rows Hr _ IH]; simpl; [constructor|].
  destruct (valid (conf r)) eqn:E; [constructor; auto|exact IH].
Qed.

Lemma no_valid_confidences (rows : list tsv_row) :
  Forall (fun r => conf r == -1) rows ->
  List.filter valid (d_conf (to_dict rows)) = [].
Proof.
  simpl. induction 1 as [|r rows Hr _ IH]; simpl; [reflexivity|].
  unfold valid at 1. apply Qeq_bool_iff in Hr. rewrite Hr. exact IH.
Qed.

(** The mean is computed only over a non-empty list. *)
Lemma calculate_confidence_total (d : ocr_dict) :
  exists c, _calculate_confidence d = Ok c
            /\ (List.filter valid (d_conf d) = [] -> c = 0)
            /\ (Forall (fun x => 0 <= x <= 100) (List.filter valid (d_conf d)) ->
                0 <= c <= 100).
Proof.
  unfold _calculate_confidence.
  destruct (List.filter valid (d_conf d)) as [|x l] eqn:E.
  - exists 0. repeat split; auto; lra.
  - pose proof (inject_Z_pos (Z.of_nat (length (x :: l))) ltac:(simpl; lia)) as Hpos.
    rewrite truediv_nonzero by lra.
    eexists. split; [reflexivity|]. split; [discriminate|].
    intros Hall. apply sum_bounds in Hall. split.
    + apply Qle_shift_div_l; [exact Hpos|]. lra.
    + apply Qle_shift_div_r; [exact Hpos|]. lra.
Qed.

(** On the table of an engine run every index below the number of
    lines is in range of every column, and the box areas add up to a
    non-negative total. *)
Lemma text_area_rows (pre suf : list tsv_row) :
  exists a : Z,
    text_area (to_dict (pre ++ suf)) (seq (length pre) (length suf)) = Ok a
    /\ (0 <= a)%Z.
Proof.
  revert pre. induction suf as [|r suf IH]; intros pre.
  - exists 0%Z. split; [reflexivity|lia].
  - destruct (IH (pre ++ [r])) as (a & Ha & Hnn).
    rewrite <- app_assoc, length_app, Nat.add_1_r in Ha. simpl app in Ha.
    simpl length. simpl seq.
    assert (Hc : index (d_conf (to_dict (pre ++ r :: suf))) (length pre) = Ok (conf r)).
    { unfold index. simpl d_conf.
      now rewrite list_lookup_fmap, list_lookup_middle by reflexivity. }
    assert (Hw : index (d_width (to_dict (pre ++ r :: suf))) (length pre)
                 = Ok (Z.of_N (width r))).
    { unfold index. simpl d_width.
      now rewrite list_lookup_fmap, list_lookup_middle by reflexivity. }
    assert (Hh : index (d_height (to_dict (pre ++ r :: suf))) (length pre)
                 = Ok (Z.of_N (height r))).
    { unfold index. simpl d_height.
      now rewrite list_lookup_fmap, list_lookup_middle by reflexivity. }
    cbn [text_area]. rewrite Hc. cbn [mbind result_bind].
    destruct (valid (conf r)).
    + rewrite Hw, Hh, Ha. cbn [mbind result_bind].
      eexists. split; [reflexivity|]. nia.
    + rewrite Ha. eauto.
Qed.

Lemma calculate_text_coverage_total (rows : list tsv_row) (w h : Z) :
  exists v, _calculate_text_coverage (to_dict rows) w h = Ok v
            /\ 0 <= v <= 1
            /\ ((w * h <= 0)%Z -> v = 0).
Proof.
  unfold _calculate_text_coverage.
  destruct (text_area_rows [] rows) as (a & Ha & Hnn).
  simpl in Ha. simpl d_text. rewrite length_map, Ha. simpl.
  destruct (Z.ltb_spec 0 (w * h)) as [Hpos|Hnp].
  - pose proof (inject_Z_pos _ Hpos) as Hq.
    pose proof (inject_Z_nonneg _ Hnn) as Ha'.
    rewrite truediv_nonzero by lra. simpl.
    eexists. split; [reflexivity|]. split; [|lia]. split.
    + apply min__ge; [|lra]. apply Qle_shift_div_l; [exact Hq|]. lra.
    + apply min__le_r.
  - exists 0. repeat split; auto; lra.
Qed.

Lemma calculate_box_density_total (d : ocr_dict) (w h : Z) :
  exists v, _calculate_box_density d w h = Ok v
            /\ 0 <= v <= 1
            /\ ((w * h <= 0)%Z -> v = 0).
Proof.
  unfold _calculate_box_density.
  rewrite (truediv_nonzero _ (inject_Z 10000)) by (unfold Qeq; simpl; lia). simpl.
  destruct (Qltb 0 (inject_Z (w * h) / inject_Z 10000)) eqn:E.
  - apply Qltb_lt in E.
    rewrite truediv_nonzero by lra. simpl.
    eexists. split; [reflexivity|]. split; [split|].
    + apply min__ge; [|lra]. apply Qle_shift_div_l; [exact E|].
      pose proof (inject_Z_nonneg (Z.of_nat (length (List.filter valid (d_conf d))))
                    ltac:(lia)). lra.
    + apply min__le_r.
    + intros Hz. exfalso.
      assert (inject_Z (w * h) <= 0) as Hle by (unfold Qle; simpl; lia).
      assert (inject_Z (w * h) / inject_Z 10000 <= 0) as Hle'.
      { apply Qle_shift_div_r; [reflexivity|]. lra. }
      lra.
  - exists 0. repeat split; auto; lra.
Qed.

(** C10.  On the output of the engine for any image the three signals
    are computed without an exception, so without a division by zero;
    with no valid detection the confidence is 0, with an empty image area
    coverage and density are 0; coverage and density lie in [0,1], and the
    confidence lies in [0,100] when every valid detection does. *)
Theorem ocr_signals_total (rows : list tsv_row) (w h : Z) :
  (exists c, _calculate_confidence (to_dict rows) = Ok c
             /\ (Forall (fun r => conf r == -1) rows -> c = 0)
             /\ (Forall (fun r => valid (conf r) = true -> 0 <= conf r <= 100) rows ->
                 0 <= c <= 100))
  /\ (exists v, _calculate_text_coverage (to_dict rows) w h = Ok v
                /\ 0 <= v <= 1
                /\ ((w * h = 0)%Z -> v = 0))
  /\ (exists v, _calculate_box_density (to_dict rows) w h = Ok v
                /\ 0 <= v <= 1
                /\ ((w * h = 0)%Z -> v = 0)).
Proof.
  split; [|split].
  - destruct (calculate_confidence_total (to_dict rows)) as (c & Hc & Hz & Hb).
    exists c. split; [exact Hc|]. split.
    + intros Hall. apply Hz, no_valid_confidences, Hall.
    + intros Hall. apply Hb, valid_confidences_bounds, Hall.
  - destruct (calculate_text_coverage_total rows w h) as (v & Hv & Hb & Hz).
    exists v. repeat split; try tauto. intros E. apply Hz. lia.
  - destruct (calculate_box_density_total (to_dict rows) w h) as (v & Hv & Hb & Hz).
    exists v. repeat split; try tauto. intros E. apply Hz. lia.
Qed.

Context {S : Settings}.

(** C7.  [needs_vision] is the disjunction of the three comparisons
    with the thresholds: false when every signal is at or above its
    threshold, true as soon as one signal is below its threshold. *)
Theorem needs_vision_rule (text_coverage box_density confidence : Q) :
  (_needs_vision_api text_coverage box_density confidence = true <->
     text_coverage < OCR_TEXT_COVERAGE_THRESHOLD
     \/ box_density < OCR_BOX_DENSITY_THRESHOLD
     \/ confidence < OCR_CONFIDENCE_THRESHOLD)
  /\ (OCR_TEXT_COVERAGE_THRESHOLD <= text_coverage ->
      OCR_BOX_DENSITY_THRESHOLD <= box_density ->
      OCR_CONFIDENCE_THRESHOLD <= confidence ->
      _needs_vision_api text_coverage box_density confidence = false)
  /\ (forall low, low < OCR_TEXT_COVERAGE_THRESHOLD ->
        _needs_vision_api low box_density confidence = true)
  /\ (forall low, low < OCR_BOX_DENSITY_THRESHOLD ->
        _needs_vision_api text_coverage low confidence = true)
  /\ (forall low, low < OCR_CONFIDENCE_THRESHOLD ->
        _needs_vision_api text_coverage box_density low = true).
Proof.
  assert (Hiff : forall a b c,
             _needs_vision_api a b c = true <->
             a < OCR_TEXT_COVERAGE_THRESHOLD
             \/ b < OCR_BOX_DENSITY_THRESHOLD
             \/ c < OCR_CONFIDENCE_THRESHOLD).
  { intros a b c. unfold _needs_vision_api.
    rewrite !orb_true_iff, !Qltb_lt. tauto. }
  split; [apply Hiff|]. split; [|repeat split; intros low Hlow; apply Hiff; tauto].
  intros H1 H2 H3.
  destruct (_needs_vision_api text_coverage box_density confidence) eqn:E;
    [|reflexivity].
  apply Hiff in E. lra.
Qed.

End OcrFacts.

Lemma needs_vision_rule_witness :
  @Ocr._needs_vision_api Doubles.thresholds (8 # 10) (8 # 10) 90 = false
  /\ @Ocr._needs_vision_api Doubles.thresholds (1 # 100) (8 # 10) 90 = true
  /\ @Ocr._needs_vision_api Doubles.thresholds (8 # 10) (1 # 10) 90 = true
  /\ @Ocr._needs_vision_api Doubles.thresholds (8 # 10) (8 # 10) 40 = true.
Proof.
  destruct (@needs_vision_rule Doubles.thresholds (8 # 10) (8 # 10) 90)
    as (_ & Hhigh & Hcov & Hden & Hconf).
  split; [|split; [|split]].
  - apply Hhigh; simpl; lra.
  - apply Hcov; simpl; lra.
  - apply Hden; simpl; lra.
  - apply Hconf; simpl; lra.
Defined.

Lemma ocr_signals_total_witness :
  exists c, Ocr._calculate_confidence
              (Ocr.to_dict [Doubles.word 40 10 96 "Visa"; Doubles.word 0 0 (-1) "";
                            Doubles.word 60 10 84 "F-1"]) = Py.Ok c
            /\ (0 <= c <= 100)%Q.
Proof.
  destruct (ocr_signals_total
              [Doubles.word 40 10 96 "Visa"; Doubles.word 0 0 (-1) "";
               Doubles.word 60 10 84 "F-1"] 200 100) as [(c & Hc & _ & Hb) _].
  exists c. split; [exact Hc|]. apply Hb.
  constructor; [intros _; simpl; lra|].
  constructor; [intros Hv; vm_compute in Hv; discriminate Hv|].
  constructor; [intros _; simpl; lra|].
  constructor.
Defined.

(** The three signals of a 200 x 100 image with two words, and of an image
    without area. *)
Example ocr_signals_two_words :
  let d := Ocr.to_dict [Doubles.word 40 10 96 "Visa"; Doubles.word 0 0 (-1) "";
                        Doubles.word 60 10 84 "F-1"] in
  Ocr._calculate_confidence d = Py.Ok ((96 + (84 + 0)) / inject_Z 2)%Q
  /\ Ocr._calculate_text_coverage d 200 100 = Py.Ok (inject_Z 1000 / inject_Z 20000)%Q
  /\ Ocr._calculate_box_density d 200 100
     = Py.Ok (inject_Z 2 / (inject_Z 20000 / inject_Z 10000))%Q
  /\ Ocr._calculate_text_coverage d 0 100 = Py.Ok 0%Q
  /\ Ocr._calculate_box_density d 0 100 = Py.Ok 0%Q.
Proof. repeat split; reflexivity. Qed.

(* ===================================================================== *)
(** * Properties of the image processor *)
(* ===================================================================== *)

Section StripFacts.
Import Py.

Lemma append_cons (c : ascii) (s t : string) :
  String c s +:+ t = String c (s +:+ t).
Proof. reflexivity. Qed.

Lemma truthy_append_r (s t : string) : truthy t = true -> truthy (s +:+ t) = true.
Proof. destruct s; [auto|reflexivity]. Qed.

(** [rstrip] either empties a string or keeps its first character. *)
Lemma rstrip_cons (c : ascii) (s : string) :
  rstrip (String c s) = EmptyString
  \/ exists s', rstrip (String c s) = String c s'.
Proof.
  simpl. destruct (rstrip s); [destruct (is_space c)|]; eauto.
Qed.

Lemma rstrip_idempotent (s : string) : rstrip (rstrip s) = rstrip s.
Proof.
  induction s as [|c s IH]; [reflexivity|]. simpl.
  destruct (rstrip s) as [|c' r] eqn:E.
  - destruct (is_space c) eqn:Hc; [reflexivity|]. simpl. now rewrite Hc.
  - simpl. simpl in IH. now rewrite IH.
Qed.

(** What [rstrip] does to a concatenation. *)
Lemma rstrip_append (a b : string) :
  rstrip (a +:+ b) = if truthy (rstrip b) then a +:+ rstrip b else rstrip a.
Proof.
  induction a as [|c a IH].
  - change (EmptyString +:+ b) with b. destruct (rstrip b); reflexivity.
  - rewrite append_cons. simpl rstrip at 1. rewrite IH.
    destruct (truthy (rstrip b)) eqn:Hb.
    + rewrite append_cons.
      pose proof (truthy_append_r a _ Hb) as Hne.
      destruct (a +:+ rstrip b); [discriminate|reflexivity].
    + reflexivity.
Qed.

(** The first character left by [lstrip] is not a space. *)
Lemma lstrip_head (s : string) (c : ascii) (s' : string) :
  lstrip s = String c s' -> is_space c = false.
Proof.
  induction s as [|d s IH]; simpl; [discriminate|].
  destruct (is_space d) eqn:Hd; [exact IH|]. intros [= <- _]. exact Hd.
Qed.

Lemma strip_head (s : string) (c : ascii) (s' : string) :
  strip s = String c s' -> is_space c = false.
Proof.
  unfold strip. destruct (lstrip s) as [|d l] eqn:E; [discriminate|].
  apply lstrip_head in E.
  destruct (rstrip_cons d l) as [H|[r H]]; rewrite H; [discriminate|].
  intros [= <- _]. exact E.
Qed.

Lemma strip_rstrip (s : string) : rstrip (strip s) = strip s.
Proof. apply rstrip_idempotent. Qed.

Lemma rstrip_newlines (t : string) :
  rstrip t = t ->
  rstrip (newline +:+ newline +:+ t) =
    if truthy t then newline +:+ newline +:+ t else EmptyString.
Proof.
  intros Ht. rewrite !rstrip_append, Ht.
  destruct t; reflexivity.
Qed.

Lemma merge_stripped (v t : string) :
  truthy v = true ->
  (forall c s, v = String c s -> is_space c = false) ->
  rstrip v = v -> rstrip t = t ->
  strip (v +:+ newline +:+ newline +:+ t) =
    if truthy t then v +:+ newline +:+ newline +:+ t else v.
Proof.
  intros Hv Hhead Hrv Hrt. unfold strip.
  destruct v as [|c v]; [discriminate|].
  rewrite append_cons. simpl lstrip. rewrite (Hhead c v eq_refl).
  rewrite <- append_cons, rstrip_append, rstrip_newlines by exact Hrt.
  destruct t; [exact Hrv|reflexivity].
Qed.

(** Stripping the merge of two stripped texts, the first of which is
    not empty. *)
Lemma strip_merge (v0 t0 : string) :
  truthy (strip v0) = true ->
  strip (strip v0 +:+ newline +:+ newline +:+ strip t0) =
    if truthy (strip t0)
    then strip v0 +:+ newline +:+ newline +:+ strip t0
    else strip v0.
Proof.
  intros Hv. apply merge_stripped; auto using strip_rstrip.
  intros c s. apply strip_head.
Qed.

End StripFacts.

(** A call in sequence either returned, and the caller goes on, or raised,
    and the caller did not return. *)
Ltac returned_or_raised :=
  match goal with
  | |- mbind _ ?call = Py.Ok _ -> _ =>
      let x := fresh "x" in
      destruct call as [x|]; simpl; [|discriminate]
  end.

Section ImageProcessorFacts.
Import Py Llm Ocr ImageProcessor.
Context {O : Oracle} {S : Settings} {I : Imaging}.

(** The OCR text of a result is stripped. *)
Lemma extract_text_stripped image_bytes ocr_result :
  extract_text_and_signals image_bytes = Ok ocr_result ->
  exists raw, r_text ocr_result = strip raw.
Proof.
  unfold extract_text_and_signals. repeat returned_or_raised.
  intros [= <-]. simpl. eauto.
Qed.

(** So is the description of the vision service. *)
Lemma describe_image_stripped url d :
  describe_image url = Ok d -> exists raw, d = strip raw.
Proof.
  unfold describe_image. returned_or_raised.
  intros [= <-]. eauto.
Qed.

(** C8 (amended).  Without [needs_vision], [process_image] returns the
    OCR text and sends nothing to the vision oracle.  With
    [needs_vision] it sends the URL once; when the description is empty it
    returns the OCR text alone; when it is not, it returns the description,
    then two newlines, then the OCR text, with the white space at both ends
    removed: the description followed by two newlines and the OCR text when
    the OCR text is not empty, the description alone when it is. *)
Theorem process_image_merge image_bytes url ocr_result :
  extract_text_and_signals image_bytes = Ok ocr_result ->
  (r_needs_vision ocr_result = false ->
     returned (process_image image_bytes url) = Ok (r_text ocr_result)
     /\ vision_calls (process_image image_bytes url) = [])
  /\ (r_needs_vision ocr_result = true ->
      forall description, describe_image url = Ok description ->
        vision_calls (process_image image_bytes url) = [url]
        /\ returned (process_image image_bytes url) =
             Ok (if truthy description
                 then if truthy (r_text ocr_result)
                      then description +:+ newline +:+ newline +:+ r_text ocr_result
                      else description
                 else r_text ocr_result)).
Proof.
  intros Hocr. pose proof (extract_text_stripped _ _ Hocr) as [raw Hraw].
  unfold process_image, after_ocr. rewrite Hocr. split.
  - intros ->. split; reflexivity.
  - intros -> description Hd.
    pose proof (describe_image_stripped _ _ Hd) as [vraw ->].
    rewrite Hd. simpl. split; [reflexivity|]. f_equal.
    unfold merge. rewrite Hraw.
    destruct (truthy (strip vraw)) eqn:Hv; [|reflexivity].
    now apply strip_merge.
Qed.

End ImageProcessorFacts.

(** The claim as written fails when the OCR text is empty: the result is
    the description, not the description followed by two newlines. *)
Lemma process_image_empty_ocr_text :
  let run := @ImageProcessor.process_image (Doubles.replying "A bar chart.")
               Doubles.thresholds (Doubles.pictures Doubles.blank_chart) [] "https://cdn/img.png" in
  exists ocr_result,
    @Ocr.extract_text_and_signals Doubles.thresholds (Doubles.pictures Doubles.blank_chart) []
      = Py.Ok ocr_result
    /\ Ocr.r_needs_vision ocr_result = true
    /\ Ocr.r_text ocr_result = ""
    /\ ImageProcessor.returned run = Py.Ok "A bar chart."
    /\ ImageProcessor.returned run
       <> Py.Ok ("A bar chart." +:+ Py.newline +:+ Py.newline +:+ Ocr.r_text ocr_result).
Proof.
  eexists. split; [reflexivity|]. repeat split. discriminate.
Qed.

Lemma process_image_merge_witness :
  ImageProcessor.returned
    (@ImageProcessor.process_image (Doubles.replying " A scanned visa letter. ")
       Doubles.thresholds (Doubles.pictures Doubles.scanned_letter) [] "https://cdn/img.png")
  = Py.Ok ("A scanned visa letter." +:+ Py.newline +:+ Py.newline +:+ "Visa F-1").
Proof.
  destruct (@process_image_merge (Doubles.replying " A scanned visa letter. ")
              Doubles.thresholds (Doubles.pictures Doubles.scanned_letter) []
              "https://cdn/img.png" _ eq_refl) as [_ H].
  destruct (H eq_refl "A scanned visa letter." eq_refl) as [_ Hr].
  exact Hr.
Defined.

(** Strong signals: the OCR text as it is, and no call to the oracle. *)
Example process_image_without_vision :
  @ImageProcessor.process_image Doubles.unreachable
    {| Ocr.OCR_TEXT_COVERAGE_THRESHOLD := 1 # 100;
       Ocr.OCR_BOX_DENSITY_THRESHOLD := 1 # 100;
       Ocr.OCR_CONFIDENCE_THRESHOLD := 30 |}
    (Doubles.pictures Doubles.scanned_letter) [] "https://cdn/img.png"
  = {| ImageProcessor.returned := Py.Ok "Visa F-1";
       ImageProcessor.vision_calls := [] |}.
Proof. reflexivity. Qed.

(* ===================================================================== *)
(** * The chunker's windows *)
(* ===================================================================== *)

Section ChunkerWindows.
Import Py Chunker.
Context {T : Tokenizer}.

(** A slice that starts inside the list is a [take] of a [drop]. *)
Lemma slice_window (tokens : list Z) (a chunk_size : Z) :
  0 <= a -> 0 < chunk_size ->
  slice tokens a (Z.min (a + chunk_size) (Z.of_nat (length tokens)))
  = take (Z.to_nat chunk_size) (drop (Z.to_nat a) tokens).
Proof.
  intros Ha Hcs. unfold slice, clamp_index.
  destruct (Z.ltb_spec a 0) as [|_]; [lia|].
  destruct (Z.ltb_spec (Z.min (a + chunk_size) (Z.of_nat (length tokens))) 0) as [|_];
    [lia|].
  set (L := Z.of_nat (length tokens)).
  destruct (Z.le_gt_cases L a) as [Hout|Hin].
  - rewrite !drop_ge by lia. now rewrite !take_nil.
  - replace (Z.to_nat (Z.min a L)) with (Z.to_nat a) by lia.
    destruct (Z.le_gt_cases (a + chunk_size) L) as [Hfull|Hshort].
    + f_equal. lia.
    + rewrite !take_ge; [reflexivity| |]; rewrite length_drop; lia.
Qed.

(** With a positive stride the loop appends one window per pass, at
    starts [a], [a + stride], [a + 2 stride], ... below [len(tokens)]. *)
Lemma while_loop_windows (tokens : list Z) (chunk_size chunk_overlap : Z) :
  0 < chunk_size -> chunk_overlap < chunk_size ->
  forall (fuel : nat) (st : loop_state) (res : list string),
    0 <= start st ->
    while_loop fuel tokens chunk_size chunk_overlap st = Some res ->
    res = chunks st ++
          map (fun j : nat =>
                 decode (take (Z.to_nat chunk_size)
                           (drop (Z.to_nat (start st
                                            + Z.of_nat j * (chunk_size - chunk_overlap)))
                                 tokens)))
              (seq 0 (Z.to_nat ((Z.of_nat (length tokens) - start st
                                 + (chunk_size - chunk_overlap) - 1)
                                / (chunk_size - chunk_overlap)))).
Proof.
  intros Hcs Hstride. set (s := chunk_size - chunk_overlap).
  set (L := Z.of_nat (length tokens)).
  assert (0 < s) as Hs by (unfold s; lia).
  assert (Hstop : forall a, L <= a -> Z.to_nat ((L - a + s - 1) / s) = 0%nat).
  { intros a Ha. assert ((L - a + s - 1) / s <= 0); [|lia].
    apply Z.lt_succ_r, Z.div_lt_upper_bound; lia. }
  induction fuel as [|fuel IH]; intros st res Hnn; simpl;
    unfold loop_cond; fold L;
    destruct (Z.ltb_spec (start st) L) as [Hlt|Hge].
  - discriminate.
  - intros [= <-]. rewrite Hstop by exact Hge. simpl. now rewrite app_nil_r.
  - intros Hres. apply IH in Hres.
    + unfold loop_body in Hres. simpl in Hres. fold s L in Hres.
      destruct (Z.leb_spec (start st + s) 0) as [|_]; [lia|].
      rewrite slice_window in Hres by lia.
      rewrite Hres, <- app_assoc. f_equal.
      replace ((L - start st + s - 1) / s) with (1 + (L - (start st + s) + s - 1) / s).
      2:{ rewrite <- Z.div_add_l by lia. f_equal. lia. }
      assert (0 <= (L - (start st + s) + s - 1) / s) by (apply Z.div_pos; lia).
      rewrite Z2Nat.inj_add by lia.
      change (Z.to_nat 1) with 1%nat. simpl seq. simpl map. simpl app.
      f_equal.
      * replace (start st + Z.of_nat 0 * s) with (start st) by lia. reflexivity.
      * rewrite <- seq_shift, map_map.
        apply map_ext. intros j.
        replace (start st + Z.of_nat (S j) * s)
          with (start st + s + Z.of_nat j * s) by lia.
        reflexivity.
    + unfold loop_body. simpl. fold s.
      destruct (Z.leb_spec (start st + s) 0); lia.
  - intros [= <-]. rewrite Hstop by exact Hge. simpl. now rewrite app_nil_r.
Qed.

(** The chunks of a text that does not fit in one chunk, for a
    configuration with [0 < chunk_size] and [chunk_overlap < chunk_size]. *)
Lemma chunk_text_windows (fuel : nat) (text : string)
    (chunk_size chunk_overlap : Z) (result : list string) :
  truthy (strip text) = true ->
  0 < chunk_size -> chunk_overlap < chunk_size ->
  chunk_size < Z.of_nat (length (encode text)) ->
  chunk_text fuel text chunk_size chunk_overlap = Some result ->
  result =
    map (fun j : nat =>
           decode (take (Z.to_nat chunk_size)
                     (drop (Z.to_nat (Z.of_nat j * (chunk_size - chunk_overlap)))
                           (encode text))))
        (seq 0 (Z.to_nat ((Z.of_nat (length (encode text))
                           + (chunk_size - chunk_overlap) - 1)
                          / (chunk_size - chunk_overlap)))).
Proof.
  intros Htext Hcs Hstride Hlen. unfold chunk_text. rewrite Htext. simpl.
  destruct (Z.leb_spec (Z.of_nat (length (encode text))) chunk_size); [lia|].
  intros Hres. apply while_loop_windows in Hres; simpl; try lia.
  simpl in Hres. rewrite Hres. rewrite Z.sub_0_r. reflexivity.
Qed.

(** The loop only appends, and appends at least one chunk when it is
    entered. *)
Lemma while_loop_extends (tokens : list Z) (chunk_size chunk_overlap : Z) :
  forall (fuel : nat) (st : loop_state) (res : list string),
    while_loop fuel tokens chunk_size chunk_overlap st = Some res ->
    exists extra, res = chunks st ++ extra
                  /\ (loop_cond tokens st = true -> extra <> []).
Proof.
  induction fuel as [|fuel IH]; intros st res; simpl;
    destruct (loop_cond tokens st) eqn:Hc.
  - discriminate.
  - intros [= <-]. exists []. split; [now rewrite app_nil_r|discriminate].
  - intros Hres. apply IH in Hres as (extra & -> & _).
    unfold loop_body. simpl. rewrite <- app_assoc. eexists. split; [reflexivity|].
    intros _. discriminate.
  - intros [= <-]. exists []. split; [now rewrite app_nil_r|discriminate].
Qed.

(** X1.  When [chunk_text] returns for a non-negative [chunk_size], it
    returns the empty list exactly for a blank text: a text with any
    visible character gives at least one chunk. *)
Theorem chunk_text_empty_iff_blank (fuel : nat) (text : string)
    (chunk_size chunk_overlap : Z) (result : list string) :
  0 <= chunk_size ->
  chunk_text fuel text chunk_size chunk_overlap = Some result ->
  (result = [] <-> truthy (strip text) = false).
Proof.
  intros Hcs. unfold chunk_text.
  destruct (truthy (strip text)); simpl.
  - destruct (Z.leb_spec (Z.of_nat (length (encode text))) chunk_size) as [|Hlen].
    + intros [= <-]. split; discriminate.
    + intros Hres. apply while_loop_extends in Hres as (extra & -> & Hne).
      simpl. split; [|discriminate]. intros ->. exfalso. apply Hne; [|reflexivity].
      unfold loop_cond. simpl. apply Z.ltb_lt. lia.
  - intros [= <-]. split; reflexivity.
Qed.

(** X2.  For a text that is not blank and [0 <= chunk_overlap <
    chunk_size], the result has exactly one chunk if and only if
    [count_tokens(text) <= chunk_size], and that chunk is then the text
    itself, not a decoding of its tokens. *)
Theorem chunk_text_single_chunk (fuel : nat) (text : string)
    (chunk_size chunk_overlap : Z) (result : list string) :
  truthy (strip text) = true ->
  0 <= chunk_overlap -> chunk_overlap < chunk_size ->
  chunk_text fuel text chunk_size chunk_overlap = Some result ->
  (length result = 1%nat <-> count_tokens text <= chunk_size)
  /\ (count_tokens text <= chunk_size -> result = [text]).
Proof.
  intros Htext Hco Hstride Hres. unfold count_tokens.
  destruct (Z.le_gt_cases (Z.of_nat (length (encode text))) chunk_size) as [Hfit|Hbig].
  - unfold chunk_text in Hres. rewrite Htext in Hres. simpl in Hres.
    destruct (Z.leb_spec (Z.of_nat (length (encode text))) chunk_size); [|lia].
    injection Hres as <-. split; [split; [lia|reflexivity]|reflexivity].
  - apply chunk_text_windows in Hres; try lia; [|exact Htext].
    split; [|lia]. split; [|lia]. intros Hone. exfalso.
    rewrite Hres, length_map, length_seq in Hone.
    set (s := chunk_size - chunk_overlap) in *.
    assert (2 <= (Z.of_nat (length (encode text)) + s - 1) / s); [|lia].
    apply Z.div_le_lower_bound; unfold s; lia.
Qed.

(** X3.  For a text with more than [chunk_size] tokens and
    [chunk_overlap < chunk_size], the chunks are the decoded windows of
    [chunk_size] tokens that start every [chunk_size - chunk_overlap]
    tokens: there are [ceil(len(tokens) / stride)] of them, and chunk [k]
    decodes the tokens from [k * stride] on. *)
Theorem chunk_text_sliding_windows (fuel : nat) (text : string)
    (chunk_size chunk_overlap : Z) (result : list string) :
  truthy (strip text) = true ->
  0 < chunk_size -> chunk_overlap < chunk_size ->
  chunk_size < Z.of_nat (length (encode text)) ->
  chunk_text fuel text chunk_size chunk_overlap = Some result ->
  let stride := chunk_size - chunk_overlap in
  let n := Z.to_nat ((Z.of_nat (length (encode text)) + stride - 1) / stride) in
  length result = n
  /\ forall k : nat, (k < n)%nat ->
       result !! k =
         Some (decode (take (Z.to_nat chunk_size)
                         (drop (Z.to_nat (Z.of_nat k * stride)) (encode text)))).
Proof.
  intros Htext Hcs Hstride Hlen Hres stride n.
  apply chunk_text_windows in Hres; try assumption.
  fold stride in Hres. fold n in Hres. rewrite Hres. split.
  - now rewrite length_map, length_seq.
  - intros k Hk. rewrite list_lookup_fmap, lookup_seq_lt by exact Hk. reflexivity.
Qed.

(** X4.  With [0 <= chunk_overlap < chunk_size] no token is lost: every
    position of the token sequence falls inside the window of one of the
    returned chunks. *)
Theorem chunk_text_covers_every_token (fuel : nat) (text : string)
    (chunk_size chunk_overlap : Z) (result : list string) (i : nat) :
  truthy (strip text) = true ->
  0 <= chunk_overlap -> chunk_overlap < chunk_size ->
  chunk_size < Z.of_nat (length (encode text)) ->
  chunk_text fuel text chunk_size chunk_overlap = Some result ->
  (i < length (encode text))%nat ->
  let stride := chunk_size - chunk_overlap in
  exists k : nat,
    result !! k =
      Some (decode (take (Z.to_nat chunk_size)
                      (drop (Z.to_nat (Z.of_nat k * stride)) (encode text))))
    /\ Z.of_nat k * stride <= Z.of_nat i < Z.of_nat k * stride + chunk_size.
Proof.
  intros Htext Hco Hstride Hlen Hres Hi stride.
  apply chunk_text_windows in Hres; try assumption; [|lia].
  fold stride in Hres.
  assert (0 < stride) as Hs by (unfold stride; lia).
  pose proof (Z.div_mod (Z.of_nat i) stride ltac:(lia)) as Hdm.
  pose proof (Z.mod_pos_bound (Z.of_nat i) stride Hs) as Hmod.
  assert (0 <= Z.of_nat i / stride) as Hq by (apply Z.div_pos; lia).
  exists (Z.to_nat (Z.of_nat i / stride)). split.
  - rewrite Hres, list_lookup_fmap, lookup_seq_lt; [reflexivity|].
    apply Nat2Z.inj_lt. rewrite !Z2Nat.id; [|apply Z.div_pos; lia|exact Hq].
    apply Z.div_lt_upper_bound; [exact Hs|].
    assert (stride * (Z.of_nat i / stride) <= Z.of_nat i) by lia.
    assert (Z.of_nat (length (encode text)) + stride - 1
            = stride * ((Z.of_nat (length (encode text)) + stride - 1) / stride)
              + (Z.of_nat (length (encode text)) + stride - 1) mod stride)
      by (apply Z.div_mod; lia).
    pose proof (Z.mod_pos_bound (Z.of_nat (length (encode text)) + stride - 1) stride Hs).
    nia.
  - rewrite Z2Nat.id by exact Hq. unfold stride in *. nia.
Qed.

(** X5.  With [0 <= chunk_overlap < chunk_size], a window that is full
    shares exactly its last [chunk_overlap] tokens with the window that
    follows it. *)
Theorem chunk_text_consecutive_overlap (fuel : nat) (text : string)
    (chunk_size chunk_overlap : Z) (result : list string) (k : nat) :
  truthy (strip text) = true ->
  0 <= chunk_overlap -> chunk_overlap < chunk_size ->
  chunk_size < Z.of_nat (length (encode text)) ->
  chunk_text fuel text chunk_size chunk_overlap = Some result ->
  let stride := chunk_size - chunk_overlap in
  let window (j : nat) :=
    take (Z.to_nat chunk_size) (drop (Z.to_nat (Z.of_nat j * stride)) (encode text)) in
  Z.of_nat k * stride + chunk_size <= Z.of_nat (length (encode text)) ->
  Z.of_nat (S k) * stride < Z.of_nat (length (encode text)) ->
  result !! k = Some (decode (window k))
  /\ result !! S k = Some (decode (window (S k)))
  /\ drop (Z.to_nat stride) (window k) = take (Z.to_nat chunk_overlap) (window (S k)).
Proof.
  intros Htext Hco Hstride Hlen Hres stride window Hfull Hnext.
  assert (0 < stride) as Hs by (unfold stride; lia).
  apply chunk_text_windows in Hres; try assumption; [|lia].
  fold stride in Hres.
  assert (Hin : forall j : nat,
             Z.of_nat j * stride < Z.of_nat (length (encode text)) ->
             result !! j = Some (decode (window j))).
  { intros j Hj. rewrite Hres, list_lookup_fmap, lookup_seq_lt; [reflexivity|].
    apply Nat2Z.inj_lt. rewrite Z2Nat.id by (apply Z.div_pos; lia).
    assert (Z.of_nat j + 1
            <= (Z.of_nat (length (encode text)) + stride - 1) / stride); [|lia].
    apply Z.div_le_lower_bound; lia. }
  split; [apply Hin; nia|]. split; [apply Hin; exact Hnext|].
  unfold window. rewrite take_take, skipn_firstn_comm, drop_drop.
  f_equal; [lia|]. f_equal. lia.
Qed.

End ChunkerWindows.

Lemma chunk_text_empty_iff_blank_witness :
  ([] : list string) = [] <-> Py.truthy (Py.strip "   ") = false.
Proof.
  apply (@chunk_text_empty_iff_blank Chunker.char_tokenizer 8 "   " 3 1 []).
  - lia.
  - reflexivity.
Defined.

Lemma chunk_text_single_chunk_witness :
  (length ["ab"] = 1%nat <-> @Chunker.count_tokens Chunker.char_tokenizer "ab" <= 3)
  /\ (@Chunker.count_tokens Chunker.char_tokenizer "ab" <= 3 -> ["ab"] = ["ab"]).
Proof.
  apply (@chunk_text_single_chunk Chunker.char_tokenizer 8 "ab" 3 1 ["ab"]).
  - reflexivity.
  - lia.
  - lia.
  - reflexivity.
Defined.

Lemma chunk_text_sliding_windows_witness :
  length ["abc"; "cde"; "efg"; "g"] = 4%nat
  /\ forall k : nat, (k < 4)%nat ->
       ["abc"; "cde"; "efg"; "g"] !! k =
         Some (@Chunker.decode Chunker.char_tokenizer
                 (take 3 (drop (Z.to_nat (Z.of_nat k * 2))
                            (@Chunker.encode Chunker.char_tokenizer "abcdefg")))).
Proof.
  apply (@chunk_text_sliding_windows Chunker.char_tokenizer 8 "abcdefg" 3 1
           ["abc"; "cde"; "efg"; "g"]).
  - reflexivity.
  - lia.
  - lia.
  - simpl. lia.
  - reflexivity.
Defined.

Lemma chunk_text_covers_every_token_witness :
  exists k : nat,
    ["abc"; "cde"; "efg"; "g"] !! k =
      Some (@Chunker.decode Chunker.char_tokenizer
              (take 3 (drop (Z.to_nat (Z.of_nat k * 2))
                         (@Chunker.encode Chunker.char_tokenizer "abcdefg"))))
    /\ Z.of_nat k * 2 <= 5 < Z.of_nat k * 2 + 3.
Proof.
  apply (@chunk_text_covers_every_token Chunker.char_tokenizer 8 "abcdefg" 3 1
           ["abc"; "cde"; "efg"; "g"] 5).
  - reflexivity.
  - lia.
  - lia.
  - simpl. lia.
  - reflexivity.
  - simpl. lia.
Defined.

Lemma chunk_text_consecutive_overlap_witness :
  ["abc"; "cde"; "efg"; "g"] !! 1%nat = Some "cde"
  /\ ["abc"; "cde"; "efg"; "g"] !! 2%nat = Some "efg"
  /\ drop 2 [99; 100; 101] = take 1 [101; 102; 103].
Proof.
  apply (@chunk_text_consecutive_overlap Chunker.char_tokenizer 8 "abcdefg" 3 1
           ["abc"; "cde"; "efg"; "g"] 1).
  - reflexivity.
  - lia.
  - lia.
  - simpl. lia.
  - reflexivity.
  - simpl. lia.
  - simpl. lia.
Defined.

(* ===================================================================== *)
(** * The classifier as a gate for retrieval *)
(* ===================================================================== *)

Section ClassifierGate.
Import Py Llm Prompts Classifier.
Context {O : Oracle} {P : SystemPrompts}.

(** X7.  After a classification that returned, retrieval is requested if
    and only if the oracle's reply is an object whose [query_type] is
    PROFILE_DEPENDENT or HYBRID; every other reply that classifies skips
    the vector search. *)
Theorem retrieval_needed_iff_named (query : string) (t : QueryType) :
  classify query = Ok t ->
  (needs_retrieval t = true <->
   exists m : gmap string json,
     oracle_reply query = Ok (JObj m)
     /\ (m !! "query_type" = Some (JStr "PROFILE_DEPENDENT")
         \/ m !! "query_type" = Some (JStr "HYBRID"))).
Proof.
  intros Ht. unfold classify in Ht. fold (oracle_reply query) in Ht.
  destruct (oracle_reply query) as [[| |?|?|?|m]|e]; simpl in Ht; try discriminate.
  assert (Hcases :
            (exists t', m !! "query_type" = Some (JStr (value t')) /\ t = t')
            \/ (t = GENERAL
                /\ forall t', m !! "query_type" <> Some (JStr (value t')))).
  { destruct (m !! "query_type") as [raw|]; simpl in Ht.
    - destruct (QueryType_of_value raw) as [t'|e] eqn:E.
      + left. exists t'. apply QueryType_of_value_inv in E. subst raw.
        split; [reflexivity|congruence].
      + apply QueryType_of_value_raises in E as HE. subst e.
        right. split; [congruence|]. intros t' [= ->].
        rewrite QueryType_of_value_value in E. discriminate.
    - right. split; [congruence|]. discriminate. }
  split.
  - intros Hneed. exists m. split; [reflexivity|].
    destruct Hcases as [(t' & Hm & ->)|[-> _]]; [|discriminate].
    destruct t'; [discriminate|left|right]; exact Hm.
  - intros (m' & [= <-] & Hm).
    destruct Hcases as [(t' & Hm' & ->)|[-> Hno]].
    + destruct t'; [|reflexivity|reflexivity].
      destruct Hm as [Hm|Hm]; rewrite Hm in Hm'; discriminate.
    + destruct Hm as [Hm|Hm]; [apply (Hno PROFILE_DEPENDENT) in Hm
                              |apply (Hno HYBRID) in Hm]; contradiction.
Qed.

(** X8.  The request of [classify] is the one written below
    (temperature 0, 50 tokens, JSON mode), and a completion without
    content is decoded as the empty object: with a decoder that reads
    ["{}"] as the empty object, [classify] then returns GENERAL. *)
Theorem classify_empty_completion (query : string) (content : option string) :
  create {| model := DEFAULT_MODEL;
            messages := [("system", CLASSIFIER_SYSTEM_PROMPT); ("user", query)];
            temperature := 0%Q; max_tokens := 50; json_mode := true |}
    = Ok content ->
  truthy_opt content = false ->
  json_loads "{}" = Ok (JObj ∅) ->
  classify query = Ok GENERAL.
Proof.
  intros Hcreate Hempty Hloads.
  unfold classify, complete_json, get_classifier_prompt, chat_messages. simpl.
  rewrite Hcreate. simpl.
  replace (or_default content "{}") with "{}"%string.
  - rewrite Hloads. reflexivity.
  - destruct content as [s|]; [|reflexivity]. simpl in Hempty. simpl.
    now rewrite Hempty.
Qed.

End ClassifierGate.

Lemma retrieval_needed_iff_named_witness :
  Classifier.needs_retrieval Classifier.HYBRID = true <->
  exists m : gmap string Llm.json,
    @Classifier.oracle_reply (Doubles.replying (Doubles.query_type_reply "HYBRID"))
      Doubles.prompts "How does my GPA compare?" = Py.Ok (Llm.JObj m)
    /\ (m !! "query_type" = Some (Llm.JStr "PROFILE_DEPENDENT")
        \/ m !! "query_type" = Some (Llm.JStr "HYBRID")).
Proof.
  apply (@retrieval_needed_iff_named
           (Doubles.replying (Doubles.query_type_reply "HYBRID"))
           Doubles.prompts "How does my GPA compare?" Classifier.HYBRID).
  reflexivity.
Defined.

Lemma classify_empty_completion_witness :
  @Classifier.classify (Doubles.replying "") Doubles.prompts "What is IELTS?"
  = Py.Ok Classifier.GENERAL.
Proof.
  apply (@classify_empty_completion (Doubles.replying "") Doubles.prompts
           "What is IELTS?" (Some "")); reflexivity.
Defined.

(* ===================================================================== *)
(** * More on the generator *)
(* ===================================================================== *)

Section GeneratorEdges.
Import Py Llm Prompts Retriever Generator.
Context {O : Oracle} {P : SystemPrompts} {U : Unicode}.

Lemma next_no_chunks question (st : gen_state) :
  next question (Some []) st = next question None st.
Proof.
  destruct st as [|uc u|]; simpl; [|reflexivity|reflexivity].
  unfold resume_loop. reflexivity.
Qed.

(** X9.  An empty retrieval result is treated exactly as no retrieval:
    [generate] sends the same request and returns the same answer for
    [chunks = []] and [chunks = None], and [stream_generate] produces the
    same events. *)
Theorem empty_chunks_as_none (question : string) :
  generate question (Some []) = generate question None
  /\ forall (fuel : nat) (st : gen_state),
       drain fuel question (Some []) st = drain fuel question None st.
Proof.
  split; [reflexivity|].
  induction fuel as [|fuel IH]; intros st; [reflexivity|].
  rewrite !drain_unfold, next_no_chunks.
  destruct (next question None st) as [ev st'| |e]; [|reflexivity|reflexivity].
  now rewrite IH.
Qed.

Lemma stream_complete_next_truthy (u u' : upstream) (token : string) :
  stream_complete_next u = Yield token u' -> truthy token = true.
Proof.
  induction u as [[e|]|delta rest IH]; simpl; try discriminate.
  destruct delta as [s|]; [|exact IH].
  destruct (truthy s) eqn:Hs; [|exact IH]. intros [= <- _]. exact Hs.
Qed.

(** X10.  No token event is empty: whatever the upstream delivers and
    wherever the generator stands, the content of every token event that
    [stream_generate] yields is a non-empty string. *)
Theorem token_events_not_empty (question : string)
    (chunks : option (list RetrievedChunk)) (fuel : nat) (st : gen_state)
    (content : string) :
  Token content ∈ (drain fuel question chunks st).1 -> truthy content = true.
Proof.
  revert st. induction fuel as [|fuel IH]; intros st; simpl.
  - intros H. now apply elem_of_nil in H.
  - assert (Hloop : forall uc u,
               Token content ∈
                 (match resume_loop chunks uc u with
                  | Yield ev st' =>
                      let '(evs, e) := drain fuel question chunks st' in (ev :: evs, e)
                  | StopIteration => ([], Exhausted)
                  | Raised e => ([], Failed e)
                  end).1 ->
               truthy content = true).
    { intros uc u. unfold resume_loop.
      destruct (stream_complete_next u) as [tok u'| |e] eqn:E.
      - destruct (drain fuel question chunks (Streaming uc u')) as [evs en] eqn:D.
        simpl. intros H. apply elem_of_cons in H as [[= ->]|H].
        + eapply stream_complete_next_truthy. exact E.
        + apply (IH (Streaming uc u')). now rewrite D.
      - destruct (drain fuel question chunks Finished) as [evs en] eqn:D.
        simpl. intros H. apply elem_of_cons in H as [H|H]; [discriminate|].
        apply (IH Finished). now rewrite D.
      - simpl. intros H. now apply elem_of_nil in H. }
    destruct st as [|uc u|]; simpl.
    + destruct (stream_complete_open _ _ _ _ _) as [u|e]; [apply Hloop|].
      intros H. now apply elem_of_nil in H.
    + apply Hloop.
    + intros H. now apply elem_of_nil in H.
Qed.

(** X11.  Every source of an answer names an asset: a chunk without
    asset id, or with an empty one, is reported under ["unknown"], and no
    source has an empty [asset_id]. *)
Theorem sources_name_an_asset (question : string)
    (chunks : option (list RetrievedChunk)) (ga : GeneratedAnswer)
    (srcs : list SourceSnippet) :
  generate question chunks = Ok ga ->
  sources ga = Some srcs ->
  Forall (fun s => truthy (asset_id s) = true
                   /\ exists c, c ∈ default [] chunks
                        /\ (rc_asset_id c = Some (asset_id s)
                            \/ (truthy_opt (rc_asset_id c) = false
                                /\ asset_id s = "unknown"))) srcs.
Proof.
  intros Hg Hs. apply generate_inv in Hg as [_ Hsrc]. rewrite Hsrc in Hs.
  destruct (sources_guard _ _); [|discriminate]. injection Hs as <-.
  apply Forall_map, Forall_forall. intros c Hc. simpl.
  apply elem_of_take in Hc as (i & Hc & _). apply list_elem_of_lookup_2 in Hc.
  unfold source_asset_id.
  destruct (rc_asset_id c) as [a|] eqn:Ha; [destruct (truthy a) eqn:Hta|].
  - split; [exact Hta|]. exists c. rewrite Ha. auto.
  - split; [reflexivity|]. exists c. rewrite Ha. simpl. auto.
  - split; [reflexivity|]. exists c. rewrite Ha. auto.
Qed.

End GeneratorEdges.

Lemma token_events_not_empty_witness : Py.truthy " visa" = true.
Proof.
  apply (@token_events_not_empty (Doubles.streaming Doubles.two_fragments)
           Doubles.prompts Doubles.letters "What is IELTS?" None 4 Generator.Created " visa").
  change ((@Generator.drain (Doubles.streaming Doubles.two_fragments)
             Doubles.prompts Doubles.letters 4 "What is IELTS?" None Generator.Created).1)
    with [Generator.Token "F-1"; Generator.Token " visa"; Generator.Done false None].
  apply list_elem_of_further, list_elem_of_here.
Defined.

Lemma sources_name_an_asset_witness :
  Forall (fun s => Py.truthy (Generator.asset_id s) = true
                   /\ exists c, c ∈ Doubles.two_chunks
                        /\ (Retriever.rc_asset_id c = Some (Generator.asset_id s)
                            \/ (Py.truthy_opt (Retriever.rc_asset_id c) = false
                                /\ Generator.asset_id s = "unknown")))
    [ {| Generator.asset_id := "a1";
         Generator.excerpt := "Visa type: F-1 student visa" |};
      {| Generator.asset_id := "unknown";
         Generator.excerpt := "Lease agreement" |} ].
Proof.
  apply (@sources_name_an_asset
           (Doubles.answering "F-1 visa" Doubles.two_fragments) Doubles.prompts Doubles.letters
           "What visa type am I applying for?" (Some Doubles.two_chunks)
           {| Generator.answer := "F-1 visa"; Generator.used_context := true;
              Generator.sources :=
                Some [ {| Generator.asset_id := "a1";
                          Generator.excerpt := "Visa type: F-1 student visa" |};
                       {| Generator.asset_id := "unknown";
                          Generator.excerpt := "Lease agreement" |} ] |}).
  - reflexivity.
  - reflexivity.
Defined.

(* ===================================================================== *)
(** * What the retriever selects *)
(* ===================================================================== *)

Section RetrieverSelection.
Import Py Retriever.
Context {B : VectorBackend}.

(** In a sorted list every element of a prefix is nearer than every
    element of the rest. *)
Lemma sorted_take_before_drop q (n : nat) (l : list DocumentChunk) :
  StronglySorted (nearer q) l ->
  forall a b, a ∈ take n l -> b ∈ drop n l -> nearer q a b.
Proof.
  intros Hs. revert n. induction Hs as [|x l Hs IH Hall]; intros [|n] a b; simpl.
  - intros H. now apply elem_of_nil in H.
  - intros H. now apply elem_of_nil in H.
  - intros H. now apply elem_of_nil in H.
  - intros Ha Hb. apply elem_of_cons in Ha as [->|Ha].
    + rewrite Forall_forall in Hall. apply Hall.
      eapply elem_of_sublist; [exact Hb|apply sublist_drop].
    + eapply IH; eassumption.
Qed.

(** The [WHERE] clause, spelled out on the distance. *)
Lemma where_clause_spelled q user (r : DocumentChunk) :
  where_clause q user r
  = String.eqb (user_id r) user
    && match cosine_distance (embedding r) q with
       | Num d => Qle_bool (25 # 100) (1 - d)
       | NaN => true
       end.
Proof.
  unfold where_clause, similarity.
  now destruct (cosine_distance (embedding r) q).
Qed.

(** The rows that meet the [WHERE] clause for a tenant and a query
    vector. *)
Lemma qualifying_row (table : list DocumentChunk) q user (r : DocumentChunk) :
  r ∈ filter (fun r => where_clause q user r = true) table <->
  r ∈ table /\ user_id r = user
  /\ (cosine_distance (embedding r) q = NaN
      \/ exists d, cosine_distance (embedding r) q = Num d /\ (25 # 100 <= 1 - d)%Q).
Proof.
  rewrite list_elem_of_filter, where_clause_spelled.
  rewrite andb_true_iff, String.eqb_eq.
  destruct (cosine_distance (embedding r) q) as [d|].
  - rewrite Qle_bool_iff. split.
    + intros [[Hu Hd] Hin]. eauto 6.
    + intros (Hin & Hu & [Hnan|(d' & [= <-] & Hd)]); [discriminate|tauto].
  - split; [intros [[Hu _] Hin]; auto|tauto].
Qed.

(** The order of the statement, spelled out on two distances. *)
Lemma nearer_spelled q (a b : DocumentChunk) :
  nearer q a b <->
  match cosine_distance (embedding a) q, cosine_distance (embedding b) q with
  | Num x, Num y => (x <= y)%Q
  | _, NaN => True
  | NaN, Num _ => False
  end.
Proof.
  unfold nearer.
  destruct (cosine_distance (embedding a) q), (cosine_distance (embedding b) q);
    simpl; rewrite ?Qle_bool_iff; split; auto; discriminate.
Qed.

(** X12.  The rows behind a retrieval are the nearest of the tenant's
    qualifying rows.  A row qualifies when its [user_id] is the tenant
    and its similarity [1 - distance] is at least 0.25 or NaN.  The rows
    returned and the rows left out are together a rearrangement of the
    qualifying rows of the table; every returned row is at least as near
    to the query as every row left out, a NaN distance counting as the
    farthest; and rows are left out only when [top_k] is reached. *)
Theorem retrieve_nearest_rows (table : list DocumentChunk) query user top_k chunks :
  retrieve table query user top_k = Ok chunks ->
  exists (q : list Q) (rows rest : list DocumentChunk),
    generate_embedding query = Ok q
    /\ chunks = map (fun r => to_chunk (project q r)) rows
    /\ rows ++ rest ≡ₚ
         filter (fun r =>
                   String.eqb (user_id r) user
                   && match cosine_distance (embedding r) q with
                      | Num d => Qle_bool (25 # 100) (1 - d)
                      | NaN => true
                      end = true) table
    /\ (forall a b, a ∈ rows -> b ∈ rest ->
          match cosine_distance (embedding a) q, cosine_distance (embedding b) q with
          | Num x, Num y => (x <= y)%Q
          | _, NaN => True
          | NaN, Num _ => False
          end)
    /\ (rest <> [] -> Z.of_nat (length rows) = top_k).
Proof.
  intros H. apply retrieve_inv in H as (q & rows & Hq & Hsel & ->).
  apply selected_rows_inv in Hsel as (_ & Hk & ->).
  set (sorted := order_by_distance q
                   (filter (fun r => where_clause q user r = true) table)).
  exists q, (take (Z.to_nat top_k) sorted), (drop (Z.to_nat top_k) sorted).
  split; [exact Hq|]. split; [reflexivity|]. split; [|split].
  - rewrite take_drop. unfold sorted. rewrite order_by_distance_perm.
    erewrite list_filter_iff; [reflexivity|].
    intros r. now rewrite where_clause_spelled.
  - intros a b Ha Hb. apply nearer_spelled.
    eapply sorted_take_before_drop; [apply order_by_distance_sorted|exact Ha|exact Hb].
  - intros Hrest. rewrite length_take.
    destruct (Nat.le_gt_cases (length sorted) (Z.to_nat top_k)) as [Hle|Hgt].
    + exfalso. apply Hrest. now apply drop_ge.
    + lia.
Qed.

(** X13.  Context is found exactly when the tenant has a chunk that
    passes the threshold test: for a positive [top_k], a retrieval that
    returns gives a non-empty list if and only if some row of the table
    belongs to the tenant and has a similarity to the query that is at
    least 0.25 or NaN. *)
Theorem relevant_context_iff_qualifying_row (table : list DocumentChunk)
    query user top_k chunks :
  retrieve table query user top_k = Ok chunks ->
  0 < top_k ->
  (has_relevant_context chunks = true <->
   exists (q : list Q) (r : DocumentChunk),
     generate_embedding query = Ok q
     /\ r ∈ table /\ user_id r = user
     /\ (cosine_distance (embedding r) q = NaN
         \/ exists d, cosine_distance (embedding r) q = Num d
                      /\ (25 # 100 <= 1 - d)%Q)).
Proof.
  intros H Hk. apply retrieve_inv in H as (q & rows & Hq & Hsel & ->).
  apply selected_rows_inv in Hsel as (_ & _ & ->).
  unfold has_relevant_context. rewrite length_map, Nat.ltb_lt.
  set (hits := filter (fun r => where_clause q user r = true) table).
  assert (Hlen : length (order_by_distance q hits) = length hits)
    by (apply Permutation_length, order_by_distance_perm).
  rewrite length_take, Hlen. split.
  - intros Hpos. destruct hits as [|r hits'] eqn:E; [simpl in Hpos; lia|].
    assert (r ∈ hits) as Hr by (rewrite E; apply list_elem_of_here).
    apply qualifying_row in Hr as (Hin & Hu & Hs).
    exists q, r. auto.
  - intros (q' & r & Hq' & Hin & Hu & Hs).
    rewrite Hq in Hq'. injection Hq' as <-.
    assert (r ∈ hits) as Hr by (apply qualifying_row; auto).
    destruct hits; [now apply elem_of_nil in Hr|simpl; lia].
Qed.

(** X14.  A failure is never reported as an empty result: [retrieve]
    raises exactly the exception of the embedding model or, when the
    model returns, the exception [cursor.execute] raises for the
    statement; in every other case it returns a list, and it never does
    for a negative [top_k]. *)
Theorem retrieve_raises_iff table query user top_k :
  (forall e : exn,
     retrieve table query user top_k = Raise e <->
     generate_embedding query = Raise e
     \/ exists q, generate_embedding query = Ok q
                  /\ execute_error table q user top_k = Some e)
  /\ (top_k < 0 -> forall chunks, retrieve table query user top_k <> Ok chunks).
Proof.
  split.
  - intros e. unfold retrieve, _execute_vector_search, selected_rows.
    destruct (generate_embedding query) as [q|e'] eqn:Hq; simpl.
    + destruct (execute_error table q user top_k) as [e'|] eqn:He; simpl.
      * split.
        -- intros [= <-]. right. eauto.
        -- intros [H|(q' & [= <-] & He')]; [discriminate|]. congruence.
      * split; [discriminate|].
        intros [H|(q' & [= <-] & He')]; [discriminate|congruence].
    + split.
      * intros [= <-]. now left.
      * intros [[= <-]|(q & Hq' & _)]; [reflexivity|discriminate].
  - intros Hneg chunks H. apply retrieve_inv in H as (q & rows & _ & Hsel & _).
    apply selected_rows_inv in Hsel as (_ & Hk & _). lia.
Qed.

End RetrieverSelection.

Lemma retrieve_nearest_rows_witness :
  exists (q : list Q) (rows rest : list Retriever.DocumentChunk),
    @Retriever.generate_embedding Doubles.plane "visa" = Py.Ok q
    /\ [ Retriever.to_chunk
           (@Retriever.project Doubles.plane [1; 0]%Q
              (Doubles.chunk_row "4" "alice" "admission letter" [4 # 5; 3 # 5]%Q)) ]
       = map (fun r => Retriever.to_chunk (@Retriever.project Doubles.plane q r)) rows
    /\ rows ++ rest ≡ₚ
         filter (fun r =>
                   String.eqb (Retriever.user_id r) "alice"
                   && match @Retriever.cosine_distance Doubles.plane
                              (Retriever.embedding r) q with
                      | Py.Num d => Qle_bool (25 # 100) (1 - d)
                      | Py.NaN => true
                      end = true) Doubles.two_tenants
    /\ (forall a b, a ∈ rows -> b ∈ rest ->
          match @Retriever.cosine_distance Doubles.plane (Retriever.embedding a) q,
                @Retriever.cosine_distance Doubles.plane (Retriever.embedding b) q with
          | Py.Num x, Py.Num y => (x <= y)%Q
          | _, Py.NaN => True
          | Py.NaN, Py.Num _ => False
          end)
    /\ (rest <> [] -> Z.of_nat (length rows) = 1).
Proof.
  apply (@retrieve_nearest_rows Doubles.plane Doubles.two_tenants "visa" "alice" 1).
  reflexivity.
Defined.

Lemma relevant_context_iff_qualifying_row_witness :
  Retriever.has_relevant_context
    [ Retriever.to_chunk
        (@Retriever.project Doubles.plane [1; 0]%Q
           (Doubles.chunk_row "6" "alice" "visa: F-1" [1; 0]%Q));
      Retriever.to_chunk
        (@Retriever.project Doubles.plane [1; 0]%Q
           (Doubles.chunk_row "5" "alice" "cover page" [0; 0]%Q)) ] = true <->
  exists (q : list Q) (r : Retriever.DocumentChunk),
    @Retriever.generate_embedding Doubles.plane "visa" = Py.Ok q
    /\ r ∈ Doubles.zero_norm_row /\ Retriever.user_id r = "alice"
    /\ (@Retriever.cosine_distance Doubles.plane (Retriever.embedding r) q = Py.NaN
        \/ exists d,
             @Retriever.cosine_distance Doubles.plane (Retriever.embedding r) q
             = Py.Num d
             /\ (25 # 100 <= 1 - d)%Q).
Proof.
  apply (@relevant_context_iff_qualifying_row Doubles.plane Doubles.zero_norm_row
           "visa" "alice" 8).
  - reflexivity.
  - lia.
Defined.

(** A tenant without rows finds no context, and a tenant whose only
    qualifying row has a NaN similarity finds some. *)
Example no_rows_no_context :
  @Retriever.retrieve Doubles.plane Doubles.two_tenants "visa" "carol" 8 = Py.Ok [].
Proof. reflexivity. Qed.

Example nan_row_is_context :
  (chunks ← @Retriever.retrieve Doubles.plane
              [Doubles.chunk_row "5" "dana" "cover page" [0; 0]%Q] "visa" "dana" 8;
   Py.Ok (Retriever.has_relevant_context chunks))
  = Py.Ok true.
Proof. reflexivity. Qed.

(* ===================================================================== *)
(** * The scaling of an image, in binary64 *)
(* ===================================================================== *)

Section Binary64Rounding.
Import Ocr Binary64.

Lemma digits2_bounds (p : positive) :
  2 ^ (Z.pos (digits2_pos p) - 1) <= Z.pos p < 2 ^ Z.pos (digits2_pos p).
Proof.
  induction p as [p IH|p IH|]; simpl digits2_pos.
  - rewrite Pos2Z.inj_succ.
    replace (Z.succ (Z.pos (digits2_pos p)) - 1) with (Z.succ (Z.pos (digits2_pos p) - 1)) by lia.
    rewrite !Z.pow_succ_r by lia. lia.
  - rewrite Pos2Z.inj_succ.
    replace (Z.succ (Z.pos (digits2_pos p)) - 1) with (Z.succ (Z.pos (digits2_pos p) - 1)) by lia.
    rewrite !Z.pow_succ_r by lia. lia.
  - simpl. lia.
Qed.

(** The number of binary digits is determined by the bounds. *)
Lemma digits2_unique (p : positive) (d : Z) :
  2 ^ (d - 1) <= Z.pos p < 2 ^ d -> 0 < d -> Z.pos (digits2_pos p) = d.
Proof.
  intros [Hlo Hhi] Hd. pose proof (digits2_bounds p) as [Hlo' Hhi'].
  destruct (Z.lt_trichotomy (Z.pos (digits2_pos p)) d) as [Hlt|[Heq|Hgt]]; [|exact Heq|].
  - assert (2 ^ Z.pos (digits2_pos p) <= 2 ^ (d - 1)) by (apply Z.pow_le_mono_r; lia). lia.
  - assert (2 ^ d <= 2 ^ (Z.pos (digits2_pos p) - 1)) by (apply Z.pow_le_mono_r; lia). lia.
Qed.

Lemma shr_1_m (r : shr_record) :
  0 <= shr_m r -> shr_m (shr_1 r) = shr_m r / 2.
Proof.
  destruct r as [m r s]. cbn [shr_m]. intros Hm.
  destruct m as [|[p|p|]|p]; cbn [shr_1 shr_m]; try lia.
  - reflexivity.
  - apply Z.div_unique with 1; lia.
  - apply Z.div_unique with 0; lia.
  - reflexivity.
Qed.

Lemma iter_shr_1_m (p : positive) (r : shr_record) :
  0 <= shr_m r -> shr_m (SpecFloat.iter_pos shr_1 p r) = shr_m r / 2 ^ Z.pos p.
Proof.
  revert r. induction p as [p IH|p IH|]; intros r Hr; simpl SpecFloat.iter_pos.
  - assert (0 <= shr_m (shr_1 r)) by (rewrite shr_1_m by lia; apply Z.div_pos; lia).
    assert (0 <= shr_m (SpecFloat.iter_pos shr_1 p (shr_1 r)))
      by (rewrite IH by lia; apply Z.div_pos; [lia|apply Z.pow_pos_nonneg; lia]).
    rewrite IH, IH, shr_1_m by lia.
    rewrite !Z.div_div by (try lia; apply Z.pow_pos_nonneg; lia).
    f_equal. replace (Z.pos p~1) with (1 + Z.pos p + Z.pos p) by lia.
    rewrite !Z.pow_add_r by lia. lia.
  - assert (0 <= shr_m (SpecFloat.iter_pos shr_1 p r))
      by (rewrite IH by lia; apply Z.div_pos; [lia|apply Z.pow_pos_nonneg; lia]).
    rewrite IH, IH by lia.
    rewrite !Z.div_div by (try lia; apply Z.pow_pos_nonneg; lia).
    f_equal. replace (Z.pos p~0) with (Z.pos p + Z.pos p) by lia.
    rewrite !Z.pow_add_r by lia. lia.
  - rewrite shr_1_m by lia. reflexivity.
Qed.

Lemma shr_m_spec (r : shr_record) (e k : Z) :
  0 <= shr_m r -> 0 <= k ->
  shr_m (fst (shr r e k)) = shr_m r / 2 ^ k /\ snd (shr r e k) = e + k.
Proof.
  intros Hr Hk. destruct k as [|p|p]; simpl; [|split; [now apply iter_shr_1_m|reflexivity]|lia].
  rewrite Z.div_1_r. split; [reflexivity|lia].
Qed.

Lemma shr_record_of_loc_m m l : shr_m (shr_record_of_loc m l) = m.
Proof. destruct l as [|[]]; reflexivity. Qed.

Lemma round_nearest_even_bounds m l :
  m <= round_nearest_even m l <= m + 1.
Proof. destruct l as [|[]]; simpl; try lia. destruct (Z.even m); lia. Qed.

Lemma fexp_normal e : -1021 <= e -> fexp 53 1024 e = e - 53.
Proof. unfold fexp, emin. lia. Qed.

Lemma pow2_split (a b : Z) : 0 <= a -> 0 <= b -> 2 ^ (a + b) = 2 ^ a * 2 ^ b.
Proof. intros. now apply Z.pow_add_r. Qed.

Lemma pow2_pos (a : Z) : 0 <= a -> 0 < 2 ^ a.
Proof. intros. apply Z.pow_pos_nonneg; lia. Qed.

(** Rounding a positive mantissa of at least 53 digits, away from the
    ends of the exponent range. *)
Lemma binary_round_aux_normal (mx : positive) (ex : Z) (lx : location) :
  53 <= Z.pos (digits2_pos mx) ->
  -1021 <= Z.pos (digits2_pos mx) + ex <= 1023 ->
  exists (m : positive) (e : Z),
    binary_round_aux 53 1024 false (Z.pos mx) ex lx = S754_finite false m e
    /\ 2 ^ 52 <= Z.pos m < 2 ^ 53
    /\ ex + (Z.pos (digits2_pos mx) - 53) <= e <= ex + (Z.pos (digits2_pos mx) - 53) + 1
    /\ Z.pos m * 2 ^ (e - ex) <= Z.pos mx + 2 ^ (Z.pos (digits2_pos mx) - 53)
    /\ Z.pos mx - 2 ^ (Z.pos (digits2_pos mx) - 53) < Z.pos m * 2 ^ (e - ex).
Proof.
  set (d := Z.pos (digits2_pos mx)). intros Hd He.
  set (k := d - 53).
  pose proof (digits2_bounds mx) as [Hlo Hhi]. fold d in Hlo, Hhi.
  assert (Hk : 0 <= k) by (unfold k; lia).
  pose proof (pow2_pos k Hk) as Hkpos.
  assert (Hlo' : 2 ^ 52 * 2 ^ k <= Z.pos mx).
  { rewrite <- pow2_split by lia. replace (52 + k) with (d - 1) by (unfold k; lia). exact Hlo. }
  assert (Hhi' : Z.pos mx < 2 ^ 53 * 2 ^ k).
  { rewrite <- pow2_split by lia. replace (53 + k) with d by (unfold k; lia). exact Hhi. }
  unfold binary_round_aux, shr_fexp.
  change (Zdigits2 (Z.pos mx)) with d.
  rewrite fexp_normal by lia.
  replace (d + ex - 53 - ex) with k by (unfold k; lia).
  destruct (shr_m_spec (shr_record_of_loc (Z.pos mx) lx) ex k) as [Hm1 He1];
    [rewrite shr_record_of_loc_m; lia|exact Hk|].
  rewrite shr_record_of_loc_m in Hm1.
  destruct (shr (shr_record_of_loc (Z.pos mx) lx) ex k) as [mrs1 e1].
  cbn [fst snd] in Hm1, He1. subst e1.
  set (m1 := shr_m mrs1) in *.
  assert (Hm1lo : 2 ^ 52 <= m1).
  { rewrite Hm1. apply Z.div_le_lower_bound; lia. }
  assert (Hm1hi : m1 < 2 ^ 53).
  { rewrite Hm1. apply Z.div_lt_upper_bound; lia. }
  assert (Hm1k : m1 * 2 ^ k <= Z.pos mx < (m1 + 1) * 2 ^ k).
  { rewrite Hm1. pose proof (Z.mul_div_le (Z.pos mx) (2 ^ k) Hkpos).
    pose proof (Z.mul_succ_div_gt (Z.pos mx) (2 ^ k) Hkpos). lia. }
  pose proof (round_nearest_even_bounds m1 (loc_of_shr_record mrs1)) as Hr.
  set (m2 := round_nearest_even m1 (loc_of_shr_record mrs1)) in *.
  destruct (Z.eq_dec m2 (2 ^ 53)) as [Hcarry|Hnocarry].
  - (* the mantissa was rounded up to 2^53 *)
    rewrite Hcarry. change (Zdigits2 (2 ^ 53)) with 54.
    rewrite fexp_normal by lia.
    replace (54 + (ex + k) - 53 - (ex + k)) with 1 by lia.
    cbn [shr SpecFloat.iter_pos shr_record_of_loc shr_1 shr_m].
    change (2 ^ 53) with (Z.pos (2 ^ 53)%positive) at 1. cbv beta iota.
    exists (2 ^ 52)%positive, (ex + k + 1).
    split.
    { vm_compute (2 ^ 53)%positive. cbn [shr_1 shr_m].
      destruct (Z.leb_spec (ex + k + 1) (1024 - 53)) as [_|Hbad]; [reflexivity|unfold k in Hbad; lia]. }
    split; [vm_compute; split; [discriminate|reflexivity]|].
    split; [unfold k; lia|].
    replace (ex + k + 1 - ex) with (k + 1) by lia.
    rewrite pow2_split by lia. change (2 ^ 1) with 2.
    change (Z.pos (2 ^ 52)) with (2 ^ 52).
    assert (m1 + 1 = 2 ^ 53) by lia.
    assert (2 ^ 52 * (2 ^ k * 2) = (m1 + 1) * 2 ^ k) by (rewrite H; change (2 ^ 53) with (2 ^ 52 * 2); ring).
    rewrite H0. split; lia.
  - assert (Hm2 : 2 ^ 52 <= m2 < 2 ^ 53) by lia.
    destruct m2 as [|p2|p2] eqn:Ep2; [lia| |lia].
    assert (Hd2 : Z.pos (digits2_pos p2) = 53) by (apply digits2_unique; [exact Hm2|lia]).
    cbn [Zdigits2]. rewrite Hd2.
    rewrite fexp_normal by lia.
    replace (53 + (ex + k) - 53 - (ex + k)) with 0 by lia.
    cbn [shr shr_record_of_loc shr_m].
    exists p2, (ex + k). split.
    { destruct (Z.leb_spec (ex + k) (1024 - 53)) as [_|Hbad]; [reflexivity|unfold k in Hbad; lia]. }
    split; [exact Hm2|]. split; [unfold k; lia|].
    replace (ex + k - ex) with k by lia.
    split; nia.
Qed.

(** A mantissa of 53 digits with no lost bit is kept as it is. *)
Lemma binary_round_aux_exact (s : bool) (mx : positive) (ex : Z) :
  Z.pos (digits2_pos mx) = 53 -> -1074 <= ex <= 971 ->
  binary_round_aux 53 1024 s (Z.pos mx) ex loc_Exact = S754_finite s mx ex.
Proof.
  intros Hd He. unfold binary_round_aux, shr_fexp.
  cbn [Zdigits2]. rewrite Hd.
  assert (Hf : fexp 53 1024 (53 + ex) - ex = 0) by (unfold fexp, emin; lia).
  rewrite Hf. cbn [shr shr_record_of_loc loc_of_shr_record shr_m round_nearest_even].
  cbn [Zdigits2]. rewrite Hd, Hf.
  cbn [shr shr_record_of_loc shr_m].
  destruct (Z.leb_spec ex (1024 - 53)) as [_|Hbad]; [reflexivity|lia].
Qed.

Lemma iter_xO_value (p : positive) (n : positive) :
  Z.pos (Pos.iter xO p n) = Z.pos p * 2 ^ Z.pos n.
Proof.
  change (Pos.iter xO p n) with (shift_pos n p).
  rewrite shift_pos_correct, Zpower_pos_nat, Zpower_nat_Z, positive_nat_Z. lia.
Qed.

(** The conversion of a positive int below 2^53 is exact. *)
Lemma double_of_int_exact (n : Z) :
  0 < n < 2 ^ 53 ->
  exists (m : positive) (e : Z),
    double_of_int n = S754_finite false m e
    /\ 2 ^ 52 <= Z.pos m < 2 ^ 53
    /\ -52 <= e <= 0
    /\ Z.pos m = n * 2 ^ (- e).
Proof.
  intros [Hpos Hlt]. destruct n as [|p|p]; [lia| |lia].
  pose proof (digits2_bounds p) as [Hlo Hhi].
  set (d := Z.pos (digits2_pos p)) in *.
  assert (Hd : 1 <= d <= 53).
  { split; [unfold d; lia|].
    destruct (Z.le_gt_cases d 53) as [|Hgt]; [assumption|].
    assert (2 ^ 53 <= 2 ^ (d - 1)) by (apply Z.pow_le_mono_r; lia). lia. }
  unfold double_of_int, binary_normalize, binary_round, shl_align.
  fold d. rewrite fexp_normal by lia.
  replace (d + 0 - 53 - 0) with (d - 53) by lia.
  destruct (d - 53) as [|k|k] eqn:Ek; [|lia|].
  - assert (d = 53) by lia.
    exists p, 0. rewrite binary_round_aux_exact by (fold d; lia).
    split; [reflexivity|]. split; [|split; [lia|simpl; lia]].
    replace (d - 1) with 52 in Hlo by lia. replace d with 53 in Hhi by lia. lia.
  - exists (Pos.iter xO p k), (d + 0 - 53).
    assert (Hval : Z.pos (Pos.iter xO p k) = Z.pos p * 2 ^ Z.pos k) by apply iter_xO_value.
    assert (Hk : Z.pos k = 53 - d) by lia.
    assert (Hlo2 : 2 ^ 52 <= Z.pos (Pos.iter xO p k)).
    { rewrite Hval, Hk. replace 52 with ((d - 1) + (53 - d)) by lia.
      rewrite pow2_split by lia. apply Z.mul_le_mono_nonneg_r; [apply Z.pow_nonneg; lia|exact Hlo]. }
    assert (Hhi2 : Z.pos (Pos.iter xO p k) < 2 ^ 53).
    { rewrite Hval, Hk. replace 53 with (d + (53 - d)) at 2 by lia.
      rewrite pow2_split by lia. apply Z.mul_lt_mono_pos_r; [apply pow2_pos; lia|exact Hhi]. }
    rewrite binary_round_aux_exact.
    + split; [reflexivity|]. split; [lia|]. split; [lia|].
      rewrite Hval. f_equal. f_equal. lia.
    + apply digits2_unique; [split; [exact Hlo2|exact Hhi2]|lia].
    + lia.
Qed.

End Binary64Rounding.

Section Binary64Values.
Import Ocr Binary64.
#[local] Open Scope Q_scope.

Lemma pw_pos e : 0 < pw e.
Proof. apply Qpower_0_lt. reflexivity. Qed.

Lemma pw_add a b : pw (a + b) == pw a * pw b.
Proof. apply Qpower_plus. discriminate. Qed.

Lemma pw_Z k : (0 <= k)%Z -> pw k == inject_Z (2 ^ k).
Proof. intros Hk. unfold pw. now rewrite Zpower_Qpower. Qed.

Lemma value_pos m e : 0 < value m e.
Proof.
  unfold value. apply Qmult_lt_0_compat; [|apply pw_pos].
  rewrite <- (Zlt_Qlt 0). reflexivity.
Qed.

(** A mantissa at exponent [e], seen from exponent [ex]. *)
Lemma value_rebase (m : positive) (e ex : Z) :
  (ex <= e)%Z -> value m e == inject_Z (Z.pos m * 2 ^ (e - ex)) * pw ex.
Proof.
  intros He. unfold value. rewrite inject_Z_mult, <- pw_Z by lia.
  replace e with ((e - ex) + ex)%Z at 1 by lia. rewrite pw_add. ring.
Qed.

(** Rounding keeps the number within one part in 2^52. *)
Lemma binary_round_aux_value (mx : positive) (ex : Z) (lx : location) :
  (53 <= Z.pos (digits2_pos mx))%Z ->
  (-1021 <= Z.pos (digits2_pos mx) + ex <= 1023)%Z ->
  exists (m : positive) (e : Z),
    binary_round_aux 53 1024 false (Z.pos mx) ex lx = S754_finite false m e
    /\ (2 ^ 52 <= Z.pos m < 2 ^ 53)%Z
    /\ (ex + (Z.pos (digits2_pos mx) - 53) <= e
        <= ex + (Z.pos (digits2_pos mx) - 53) + 1)%Z
    /\ value mx ex * (1 - eps) <= value m e <= value mx ex * (1 + eps).
Proof.
  intros Hd He.
  destruct (binary_round_aux_normal mx ex lx Hd He) as (m & e & Hr & Hm & Hee & Hup & Hdown).
  exists m, e. split; [exact Hr|]. split; [exact Hm|]. split; [exact Hee|].
  set (k := (Z.pos (digits2_pos mx) - 53)%Z) in *.
  assert (Hk : (0 <= k)%Z) by (unfold k; lia).
  pose proof (digits2_bounds mx) as [Hlo _].
  assert (Hulp : (2 ^ 52 * 2 ^ k <= Z.pos mx)%Z).
  { rewrite <- pow2_split by lia.
    replace (52 + k)%Z with (Z.pos (digits2_pos mx) - 1)%Z by (unfold k; lia). exact Hlo. }
  rewrite (value_rebase m e ex) by lia.
  pose proof (pw_pos ex) as Hpw.
  assert (Hq1 : inject_Z (Z.pos m * 2 ^ (e - ex)) <= inject_Z (Z.pos mx) + inject_Z (2 ^ k)).
  { rewrite <- inject_Z_plus, <- Zle_Qle. exact Hup. }
  assert (Hq2 : inject_Z (Z.pos mx) - inject_Z (2 ^ k) <= inject_Z (Z.pos m * 2 ^ (e - ex))).
  { unfold Qminus. rewrite <- inject_Z_opp, <- inject_Z_plus, <- Zle_Qle. lia. }
  assert (Hq3 : inject_Z (2 ^ k) <= inject_Z (Z.pos mx) * eps).
  { assert (inject_Z (2 ^ 52 * 2 ^ k) <= inject_Z (Z.pos mx)) as H by (rewrite <- Zle_Qle; exact Hulp).
    rewrite inject_Z_mult in H. change (inject_Z (2 ^ 52)) with (4503599627370496 # 1) in H.
    unfold eps. lra. }
  unfold value.
  set (X := inject_Z (Z.pos mx)) in *. set (Y := inject_Z (Z.pos m * 2 ^ (e - ex))) in *.
  set (U := inject_Z (2 ^ k)) in *. set (P := pw ex) in *.
  split.
  - assert (X * (1 - eps) <= Y) by lra. 
    setoid_replace (X * P * (1 - eps)) with (X * (1 - eps) * P) using relation Qeq by ring.
    apply Qmult_le_compat_r; [assumption|lra].
  - assert (Y <= X * (1 + eps)) by lra.
    setoid_replace (X * P * (1 + eps)) with (X * (1 + eps) * P) using relation Qeq by ring.
    apply Qmult_le_compat_r; [assumption|lra].
Qed.

Lemma canonical_digits m : canonical m -> Z.pos (digits2_pos m) = 53%Z.
Proof. intros H. apply digits2_unique; [exact H|lia]. Qed.

Lemma digits_lower (p : positive) (k : Z) :
  (0 <= k)%Z -> (2 ^ k <= Z.pos p)%Z -> (k + 1 <= Z.pos (digits2_pos p))%Z.
Proof.
  intros Hk Hp. pose proof (digits2_bounds p) as [_ Hhi].
  destruct (Z.le_gt_cases (k + 1) (Z.pos (digits2_pos p))) as [|Hgt]; [assumption|].
  assert (2 ^ Z.pos (digits2_pos p) <= 2 ^ k)%Z by (apply Z.pow_le_mono_r; lia). lia.
Qed.

Lemma digits_upper (p : positive) (k : Z) :
  (0 <= k)%Z -> (Z.pos p < 2 ^ k)%Z -> (Z.pos (digits2_pos p) <= k)%Z.
Proof.
  intros Hk Hp. pose proof (digits2_bounds p) as [Hlo _].
  destruct (Z.le_gt_cases (Z.pos (digits2_pos p)) k) as [|Hgt]; [assumption|].
  assert (2 ^ k <= 2 ^ (Z.pos (digits2_pos p) - 1))%Z by (apply Z.pow_le_mono_r; lia). lia.
Qed.

(** The product of two floats is the product of the numbers, within one
    part in 2^52. *)
Lemma SFmul_value (m1 m2 : positive) (e1 e2 : Z) :
  canonical m1 -> canonical m2 ->
  (-500 <= e1 <= 400)%Z -> (-500 <= e2 <= 400)%Z ->
  exists (m : positive) (e : Z),
    SFmul 53 1024 (S754_finite false m1 e1) (S754_finite false m2 e2)
    = S754_finite false m e
    /\ canonical m
    /\ (e1 + e2 + 52 <= e <= e1 + e2 + 54)%Z
    /\ value m1 e1 * value m2 e2 * (1 - eps) <= value m e
       <= value m1 e1 * value m2 e2 * (1 + eps).
Proof.
  intros [Hlo1 Hhi1] [Hlo2 Hhi2] He1 He2.
  assert (Hlo : (2 ^ 104 <= Z.pos (m1 * m2))%Z).
  { rewrite Pos2Z.inj_mul. change (2 ^ 104)%Z with (2 ^ 52 * 2 ^ 52)%Z.
    apply Z.mul_le_mono_nonneg; lia. }
  assert (Hhi : (Z.pos (m1 * m2) < 2 ^ 106)%Z).
  { rewrite Pos2Z.inj_mul. change (2 ^ 106)%Z with (2 ^ 53 * 2 ^ 53)%Z.
    apply Z.mul_lt_mono_nonneg; lia. }
  pose proof (digits_lower _ 104 ltac:(lia) Hlo) as Hd1.
  pose proof (digits_upper _ 106 ltac:(lia) Hhi) as Hd2.
  destruct (binary_round_aux_value (m1 * m2) (e1 + e2) loc_Exact) as (m & e & Hr & Hm & He & Hv);
    [lia|lia|].
  exists m, e. cbn [SFmul xorb]. split; [exact Hr|]. split; [exact Hm|]. split; [lia|].
  assert (Hprod : value (m1 * m2) (e1 + e2) == value m1 e1 * value m2 e2).
  { unfold value. rewrite Pos2Z.inj_mul, inject_Z_mult, pw_add. ring. }
  rewrite <- Hprod. exact Hv.
Qed.

(** The quotient of two floats is the quotient of the numbers, within
    two parts in 2^52. *)
Lemma SFdiv_value (m1 m2 : positive) (e1 e2 : Z) :
  canonical m1 -> canonical m2 ->
  (-400 <= e1 - e2 <= 400)%Z ->
  exists (m : positive) (e : Z),
    SFdiv 53 1024 (S754_finite false m1 e1) (S754_finite false m2 e2)
    = S754_finite false m e
    /\ canonical m
    /\ (e1 - e2 - 53 <= e <= e1 - e2 - 51)%Z
    /\ value m1 e1 * (1 - eps) * (1 - eps) <= value m e * value m2 e2
       <= value m1 e1 * (1 + eps).
Proof.
  intros Hc1 Hc2 He.
  pose proof (canonical_digits m1 Hc1) as Hd1.
  pose proof (canonical_digits m2 Hc2) as Hd2.
  destruct Hc1 as [Hlo1 Hhi1], Hc2 as [Hlo2 Hhi2].
  cbn [SFdiv xorb]. unfold SFdiv_core_binary. cbn [Zdigits2]. rewrite Hd1, Hd2.
  set (e' := (e1 - e2 - 53)%Z).
  assert (He' : Z.min (fexp 53 1024 (53 + e1 - (53 + e2))) (e1 - e2) = e').
  { rewrite fexp_normal by lia. unfold e'. lia. }
  rewrite He'. replace (e1 - e2 - e')%Z with 53%Z by (unfold e'; lia).
  cbv iota. rewrite Z.shiftl_mul_pow2 by lia.
  pose proof (Z_div_mod (Z.pos m1 * 2 ^ 53) (Z.pos m2) ltac:(lia)) as Hdiv.
  destruct (Z.div_eucl (Z.pos m1 * 2 ^ 53) (Z.pos m2)) as [q r].
  destruct Hdiv as [Hdiv Hr].
  assert (Hq : (2 ^ 52 <= q < 2 ^ 54)%Z).
  { split.
    - assert (Z.pos m2 * (q + 1) > 2 ^ 52 * 2 ^ 53)%Z by lia.
      destruct (Z.le_gt_cases (2 ^ 52) q) as [|Hsmall]; [assumption|].
      assert (Z.pos m2 * (q + 1) <= Z.pos m2 * 2 ^ 52)%Z by (apply Z.mul_le_mono_nonneg_l; lia).
      lia.
    - destruct (Z.lt_ge_cases q (2 ^ 54)) as [|Hbig]; [assumption|].
      assert (Z.pos m2 * 2 ^ 54 <= Z.pos m2 * q)%Z by (apply Z.mul_le_mono_nonneg_l; lia).
      lia. }
  destruct q as [|pq|pq]; [lia| |lia].
  pose proof (digits_lower pq 52 ltac:(lia) (proj1 Hq)) as Hdq1.
  pose proof (digits_upper pq 54 ltac:(lia) (proj2 Hq)) as Hdq2.
  destruct (binary_round_aux_value pq e' (new_location (Z.pos m2) r))
    as (m & e & Hres & Hm & Hee & Hv); [lia|unfold e'; lia|].
  exists m, e. split; [exact Hres|]. split; [exact Hm|]. split; [unfold e'; lia|].
  (* the truncated quotient against the exact one *)
  assert (Hexact : value pq e' * value m2 e2 <= value m1 e1
                   /\ value m1 e1 * (1 - eps) <= value pq e' * value m2 e2).
  { assert (Hscale : value m1 e1 == inject_Z (Z.pos m1 * 2 ^ 53) * pw (e' + e2)).
    { unfold value. rewrite inject_Z_mult, <- pw_Z by lia.
      replace e1 with (53 + (e' + e2))%Z at 1 by (unfold e'; lia).
      rewrite (pw_add 53). ring. }
    assert (Hprod : value pq e' * value m2 e2
                    == inject_Z (Z.pos m2 * Z.pos pq) * pw (e' + e2)).
    { unfold value. rewrite inject_Z_mult, pw_add. ring. }
    rewrite Hscale, Hprod.
    pose proof (pw_pos (e' + e2)) as Hpw. set (P := pw (e' + e2)) in *.
    assert (H1 : inject_Z (Z.pos m2 * Z.pos pq) <= inject_Z (Z.pos m1 * 2 ^ 53))
      by (rewrite <- Zle_Qle; lia).
    assert (H2 : inject_Z (Z.pos m1 * 2 ^ 53) - inject_Z (2 ^ 53)
                 <= inject_Z (Z.pos m2 * Z.pos pq)).
    { unfold Qminus. rewrite <- inject_Z_opp, <- inject_Z_plus, <- Zle_Qle. lia. }
    assert (H3 : inject_Z (2 ^ 53) <= inject_Z (Z.pos m1 * 2 ^ 53) * eps).
    { assert (inject_Z (2 ^ 52 * 2 ^ 53) <= inject_Z (Z.pos m1 * 2 ^ 53)) as H
        by (rewrite <- Zle_Qle; apply Z.mul_le_mono_nonneg_r; lia).
      rewrite (inject_Z_mult (2 ^ 52)) in H.
      change (inject_Z (2 ^ 52)) with (4503599627370496 # 1) in H.
      unfold eps. lra. }
    set (A := inject_Z (Z.pos m2 * Z.pos pq)) in *.
    set (B := inject_Z (Z.pos m1 * 2 ^ 53)) in *.
    split.
    - apply Qmult_le_compat_r; [exact H1|lra].
    - setoid_replace (B * P * (1 - eps)) with (B * (1 - eps) * P) using relation Qeq by ring.
      apply Qmult_le_compat_r; [lra|lra]. }
  destruct Hexact as [Hx1 Hx2]. destruct Hv as [Hv1 Hv2].
  pose proof (value_pos m2 e2) as Hp2.
  assert (Heps : 0 <= 1 - eps /\ 0 <= 1 + eps) by (unfold eps; split; lra).
  set (V1 := value m1 e1) in *. set (V2 := value m2 e2) in *.
  set (Vq := value pq e') in *. set (V := value m e) in *.
  split.
  - apply Qle_trans with (Vq * (1 - eps) * V2).
    + setoid_replace (Vq * (1 - eps) * V2) with (Vq * V2 * (1 - eps)) using relation Qeq by ring.
      apply Qmult_le_compat_r; [exact Hx2|lra].
    + apply Qmult_le_compat_r; [exact Hv1|lra].
  - apply Qle_trans with (Vq * (1 + eps) * V2).
    + apply Qmult_le_compat_r; [exact Hv2|lra].
    + setoid_replace (Vq * (1 + eps) * V2) with (Vq * V2 * (1 + eps)) using relation Qeq by ring.
      apply Qmult_le_compat_r; [exact Hx1|lra].
Qed.

End Binary64Values.

Section ResizeBounds.
Import Py Ocr Binary64.
#[local] Open Scope Q_scope.

Lemma value_le_mantissa (m1 m2 : positive) (e : Z) :
  (Z.pos m1 <= Z.pos m2)%Z -> value m1 e <= value m2 e.
Proof.
  intros H. unfold value. apply Qmult_le_compat_r.
  - now rewrite <- Zle_Qle.
  - apply Qlt_le_weak, pw_pos.
Qed.

Lemma value_lt_exponent (m1 m2 : positive) (e1 e2 : Z) :
  canonical m1 -> canonical m2 -> (e1 < e2)%Z -> value m1 e1 <= value m2 e2.
Proof.
  intros [_ Hhi1] [Hlo2 _] He.
  rewrite (value_rebase m2 e2 e1) by lia. unfold value.
  apply Qmult_le_compat_r; [|apply Qlt_le_weak, pw_pos].
  rewrite <- Zle_Qle.
  assert (2 ^ 1 <= 2 ^ (e2 - e1))%Z by (apply Z.pow_le_mono_r; lia).
  change (2 ^ 1)%Z with 2%Z in H.
  assert (2 ^ 52 * 2 <= Z.pos m2 * 2 ^ (e2 - e1))%Z by (apply Z.mul_le_mono_nonneg; lia).
  lia.
Qed.

(** The comparison of two normal floats is the comparison of the
    numbers. *)
Lemma SFltb_value (m1 m2 : positive) (e1 e2 : Z) :
  canonical m1 -> canonical m2 ->
  if SFltb (S754_finite false m1 e1) (S754_finite false m2 e2)
  then value m1 e1 <= value m2 e2
  else value m2 e2 <= value m1 e1.
Proof.
  intros Hc1 Hc2. unfold SFltb, SFcompare.
  destruct (Z.compare_spec e1 e2) as [Heq|Hlt|Hgt].
  - subst e2. change (Pos.compare_cont Eq m1 m2) with (Pos.compare m1 m2).
    destruct (Pos.compare_spec m1 m2) as [->|Hm|Hm].
    + apply Qle_refl.
    + apply value_le_mantissa. lia.
    + apply value_le_mantissa. lia.
  - now apply value_lt_exponent.
  - now apply value_lt_exponent.
Qed.

(** [int(x)] is the integer part of the number. *)
Lemma int_of_double_value (m : positive) (e : Z) :
  exists n : Z,
    int_of_double (S754_finite false m e) = Ok n
    /\ inject_Z n <= value m e /\ value m e < inject_Z n + 1.
Proof.
  unfold int_of_double. eexists. split; [reflexivity|].
  destruct (Z.leb_spec 0 e) as [He|He].
  - rewrite Z.shiftl_mul_pow2 by lia.
    rewrite (value_rebase m e 0) by lia. rewrite Z.sub_0_r.
    change (pw 0) with 1. rewrite Qmult_1_r.
    split; [apply Qle_refl|]. rewrite <- (inject_Z_plus _ 1), <- Zlt_Qlt. lia.
  - rewrite Z.shiftr_div_pow2 by lia.
    set (D := (2 ^ (- e))%Z).
    assert (HD : (0 < D)%Z) by (apply Z.pow_pos_nonneg; lia).
    set (n := (Z.pos m / D)%Z).
    assert (Hn : (n * D <= Z.pos m < (n + 1) * D)%Z).
    { unfold n. pose proof (Z.mul_div_le (Z.pos m) D HD).
      pose proof (Z.mul_succ_div_gt (Z.pos m) D HD). lia. }
    assert (Hval : value m e * inject_Z D == inject_Z (Z.pos m)).
    { unfold value, D. rewrite <- pw_Z by lia.
      rewrite <- Qmult_assoc, <- pw_add. replace (e + - e)%Z with 0%Z by lia.
      change (pw 0) with 1. ring. }
    assert (HDq : 0 < inject_Z D) by (rewrite <- (Zlt_Qlt 0); exact HD).
    split.
    + apply (Qmult_le_r _ _ (inject_Z D) HDq). rewrite Hval.
      rewrite <- inject_Z_mult, <- Zle_Qle. lia.
    + apply (Qmult_lt_r _ _ (inject_Z D) HDq). rewrite Hval.
      rewrite <- (inject_Z_plus _ 1), <- inject_Z_mult, <- Zlt_Qlt. lia.
Qed.

(** The conversion of a positive int below 2^53 stands for the int. *)
Lemma double_of_int_value (n : Z) :
  (0 < n < 2 ^ 53)%Z ->
  exists (m : positive) (e : Z),
    double_of_int n = S754_finite false m e
    /\ canonical m /\ (-52 <= e <= 0)%Z /\ value m e == inject_Z n.
Proof.
  intros Hn. destruct (double_of_int_exact n Hn) as (m & e & Hd & Hm & He & Hv).
  exists m, e. split; [exact Hd|]. split; [exact Hm|]. split; [exact He|].
  unfold value. rewrite Hv, inject_Z_mult, <- pw_Z by lia.
  rewrite <- Qmult_assoc, <- pw_add. replace (- e + e)%Z with 0%Z by lia.
  change (pw 0) with 1. ring.
Qed.

(** [a / b] on positive ints below 2^53. *)
Lemma int_truediv_value (a b : Z) :
  (0 < a < 2 ^ 53)%Z -> (0 < b < 2 ^ 53)%Z ->
  exists (m : positive) (e : Z),
    int_truediv a b = Ok (S754_finite false m e)
    /\ canonical m /\ (-105 <= e <= 1)%Z
    /\ inject_Z a * (1 - eps) * (1 - eps) <= value m e * inject_Z b
       <= inject_Z a * (1 + eps).
Proof.
  intros Ha Hb. unfold int_truediv.
  destruct (Z.eqb_spec b 0) as [->|_]; [lia|].
  destruct (double_of_int_value a Ha) as (ma & ea & -> & Hca & Hea & Hva).
  destruct (double_of_int_value b Hb) as (mb & eb & -> & Hcb & Heb & Hvb).
  destruct (SFdiv_value ma mb ea eb Hca Hcb ltac:(lia)) as (m & e & -> & Hm & He & Hv).
  exists m, e. split; [reflexivity|]. split; [exact Hm|]. split; [lia|].
  rewrite <- Hva, <- Hvb. exact Hv.
Qed.

(** [n * x] for a positive int below 2^53 and a normal float. *)
Lemma int_mul_double_value (n : Z) (mr : positive) (er : Z) :
  (0 < n < 2 ^ 53)%Z -> canonical mr -> (-105 <= er <= 1)%Z ->
  exists (m : positive) (e : Z),
    int_mul_double n (S754_finite false mr er) = S754_finite false m e
    /\ inject_Z n * value mr er * (1 - eps) <= value m e
       <= inject_Z n * value mr er * (1 + eps).
Proof.
  intros Hn Hc He. unfold int_mul_double.
  destruct (double_of_int_value n Hn) as (mn & en & -> & Hcn & Hen & Hvn).
  destruct (SFmul_value mn mr en er Hcn Hc ltac:(lia) ltac:(lia))
    as (m & e & -> & _ & _ & Hv).
  exists m, e. split; [reflexivity|]. rewrite <- Hvn. exact Hv.
Qed.

(** The side of an image after the scaling by [ratio], when the ratio
    is at most 2000 over the side, up to rounding. *)
Lemma scaled_side_upper (n : Z) (mr : positive) (er : Z) :
  (0 < n < 2 ^ 53)%Z -> canonical mr -> (-105 <= er <= 1)%Z ->
  value mr er * inject_Z n <= 2000 * (1 + eps) ->
  exists n' : Z,
    int_of_double (int_mul_double n (S754_finite false mr er)) = Ok n'
    /\ (0 <= n' <= 2000)%Z.
Proof.
  intros Hn Hc He Hr.
  destruct (int_mul_double_value n mr er Hn Hc He) as (m & e & -> & Hlo & Hhi).
  destruct (int_of_double_value m e) as (n' & Hint & Hfloor & Hceil).
  exists n'. split; [exact Hint|].
  pose proof (value_pos m e) as Hpos.
  setoid_replace (inject_Z n * value mr er) with (value mr er * inject_Z n)
    using relation Qeq in Hhi by ring.
  set (T := value mr er * inject_Z n) in *. set (V := value m e) in *.
  assert (V < 2001) by (unfold eps in *; nra).
  split.
  - assert (-1 < inject_Z n') as H0 by lra.
    change (-1) with (inject_Z (-1)) in H0. rewrite <- Zlt_Qlt in H0. lia.
  - assert (inject_Z n' < 2001) as H0 by lra.
    change 2001 with (inject_Z 2001) in H0. rewrite <- Zlt_Qlt in H0. lia.
Qed.

(** The same side when the ratio is 2000 over it, up to rounding. *)
Lemma scaled_side_lower (n : Z) (mr : positive) (er : Z) (n' : Z) :
  (0 < n < 2 ^ 53)%Z -> canonical mr -> (-105 <= er <= 1)%Z ->
  2000 * (1 - eps) * (1 - eps) <= value mr er * inject_Z n ->
  int_of_double (int_mul_double n (S754_finite false mr er)) = Ok n' ->
  (1999 <= n')%Z.
Proof.
  intros Hn Hc He Hr Hn'.
  destruct (int_mul_double_value n mr er Hn Hc He) as (m & e & Hmul & Hlo & Hhi).
  rewrite Hmul in Hn'.
  destruct (int_of_double_value m e) as (n'' & Hint & Hfloor & Hceil).
  rewrite Hint in Hn'. injection Hn' as ->.
  setoid_replace (inject_Z n * value mr er) with (value mr er * inject_Z n)
    using relation Qeq in Hlo by ring.
  set (T := value mr er * inject_Z n) in *. set (V := value m e) in *.
  assert (1998 < inject_Z n') as H0 by (unfold eps in *; nra).
  change 1998 with (inject_Z 1998) in H0. rewrite <- Zlt_Qlt in H0. lia.
Qed.

End ResizeBounds.

Section ResizeCap.
Import Py Ocr Binary64.
Context {I : Imaging}.

(** The two sizes Pillow is asked for, for sides [w] and [h]. *)
Lemma scaled_sides (w h : Z) :
  0 < w < 2 ^ 53 -> 0 < h < 2 ^ 53 ->
  exists (rw rh : double) (nw nh : Z),
    int_truediv MAX_IMAGE_SIZE w = Ok rw
    /\ int_truediv MAX_IMAGE_SIZE h = Ok rh
    /\ int_of_double (int_mul_double w (double_min rw rh)) = Ok nw
    /\ int_of_double (int_mul_double h (double_min rw rh)) = Ok nh
    /\ 0 <= nw <= 2000 /\ 0 <= nh <= 2000
    /\ (h <= w -> 1999 <= nw) /\ (w <= h -> 1999 <= nh).
Proof.
  intros Hw Hh. unfold MAX_IMAGE_SIZE.
  destruct (int_truediv_value 2000 w ltac:(lia) Hw) as (mw & ew & Hrw & Hcw & Hew & Hw1 & Hw2).
  destruct (int_truediv_value 2000 h ltac:(lia) Hh) as (mh & eh & Hrh & Hch & Heh & Hh1 & Hh2).
  exists (S754_finite false mw ew), (S754_finite false mh eh).
  change (inject_Z 2000) with 2000%Q in *.
  assert (Hwq : (0 < inject_Z w)%Q) by (rewrite <- (Zlt_Qlt 0); lia).
  assert (Hhq : (0 < inject_Z h)%Q) by (rewrite <- (Zlt_Qlt 0); lia).
  pose proof (value_pos mw ew) as Hpw. pose proof (value_pos mh eh) as Hph.
  pose proof (SFltb_value mh mw eh ew Hch Hcw) as Hcmp.
  unfold double_min.
  destruct (SFltb (S754_finite false mh eh) (S754_finite false mw ew)).
  - (* the ratio is 2000 / h *)
    assert (Hrw' : (value mh eh * inject_Z w <= 2000 * (1 + eps))%Q).
    { apply Qle_trans with (value mw ew * inject_Z w)%Q; [|exact Hw2].
      apply Qmult_le_compat_r; [exact Hcmp|lra]. }
    destruct (scaled_side_upper w mh eh Hw Hch Heh Hrw') as (nw & Hnw & Hbw).
    destruct (scaled_side_upper h mh eh Hh Hch Heh Hh2) as (nh & Hnh & Hbh).
    exists nw, nh. repeat (split; [assumption|]). split.
    + intros Hle. apply (scaled_side_lower w mh eh nw Hw Hch Heh); [|exact Hnw].
      apply Qle_trans with (value mh eh * inject_Z h)%Q; [exact Hh1|].
      apply Qmult_le_l; [exact Hph|]. now rewrite <- Zle_Qle.
    + intros _. now apply (scaled_side_lower h mh eh nh Hh Hch Heh).
  - (* the ratio is 2000 / w *)
    assert (Hrh' : (value mw ew * inject_Z h <= 2000 * (1 + eps))%Q).
    { apply Qle_trans with (value mh eh * inject_Z h)%Q; [|exact Hh2].
      apply Qmult_le_compat_r; [exact Hcmp|lra]. }
    destruct (scaled_side_upper w mw ew Hw Hcw Hew Hw2) as (nw & Hnw & Hbw).
    destruct (scaled_side_upper h mw ew Hh Hcw Hew Hrh') as (nh & Hnh & Hbh).
    exists nw, nh. repeat (split; [assumption|]). split.
    + intros _. now apply (scaled_side_lower w mw ew nw Hw Hcw Hew).
    + intros Hle. apply (scaled_side_lower h mw ew nh Hh Hcw Hew); [|exact Hnh].
      apply Qle_trans with (value mw ew * inject_Z w)%Q; [exact Hw1|].
      apply Qmult_le_l; [exact Hpw|]. now rewrite <- Zle_Qle.
Qed.

(** X15.  On an image with positive sides (below 2^53, as the sides of
    every image are), [_resize_if_needed] returns the image itself when
    both sides are within 2000 pixels.  Otherwise its outcome is that of
    one call of [Image.resize], for a size computed without any
    exception, whose sides are between 0 and 2000 and whose side along
    the longer side of the image is 1999 or 2000: binary64 rounding
    followed by truncation can lose one pixel, and never exceeds the
    cap. *)
Theorem resize_within_cap (im : image) :
  0 < image_width im < 2 ^ 53 -> 0 < image_height im < 2 ^ 53 ->
  (image_width im <= 2000 -> image_height im <= 2000 ->
   _resize_if_needed im = Ok im)
  /\ (2000 < image_width im \/ 2000 < image_height im ->
      exists nw nh : Z,
        _resize_if_needed im = image_resize im (nw, nh)
        /\ 0 <= nw <= 2000 /\ 0 <= nh <= 2000
        /\ (image_height im <= image_width im -> 1999 <= nw)
        /\ (image_width im <= image_height im -> 1999 <= nh)).
Proof.
  intros Hw Hh. unfold _resize_if_needed. split.
  - intros Hwc Hhc.
    destruct (Z.leb_spec (image_width im) MAX_IMAGE_SIZE) as [_|Hbad];
      [|unfold MAX_IMAGE_SIZE in Hbad; lia].
    destruct (Z.leb_spec (image_height im) MAX_IMAGE_SIZE) as [_|Hbad];
      [|unfold MAX_IMAGE_SIZE in Hbad; lia].
    reflexivity.
  - intros Hlarge.
    assert (Hcond : (image_width im <=? MAX_IMAGE_SIZE)
                    && (image_height im <=? MAX_IMAGE_SIZE) = false).
    { unfold MAX_IMAGE_SIZE. apply andb_false_iff.
      destruct Hlarge; [left|right]; apply Z.leb_gt; assumption. }
    rewrite Hcond.
    destruct (scaled_sides (image_width im) (image_height im) Hw Hh)
      as (rw & rh & nw & nh & -> & -> & Hnw & Hnh & Hbw & Hbh & Hlw & Hlh).
    cbn [mbind result_bind]. rewrite Hnw, Hnh. cbn [mbind result_bind].
    exists nw, nh. auto.
Qed.

End ResizeCap.

Lemma resize_within_cap_witness :
  (3000 <= 2000 -> 4000 <= 2000 ->
   @Ocr._resize_if_needed (Doubles.pictures Doubles.poster) Doubles.poster
   = Py.Ok Doubles.poster)
  /\ (2000 < 3000 \/ 2000 < 4000 ->
      exists nw nh : Z,
        @Ocr._resize_if_needed (Doubles.pictures Doubles.poster) Doubles.poster
        = @Ocr.image_resize (Doubles.pictures Doubles.poster) Doubles.poster (nw, nh)
        /\ 0 <= nw <= 2000 /\ 0 <= nh <= 2000
        /\ (4000 <= 3000 -> 1999 <= nw)
        /\ (3000 <= 4000 -> 1999 <= nh)).
Proof.
  apply (@resize_within_cap (Doubles.pictures Doubles.poster) Doubles.poster).
  - simpl. lia.
  - simpl. lia.
Defined.

(* ===================================================================== *)
(** * The OCR service as a whole *)
(* ===================================================================== *)

Section StripTwice.
Import Py.

Lemma lstrip_no_leading_space (s : string) :
  (forall c s', s = String c s' -> is_space c = false) -> lstrip s = s.
Proof.
  destruct s as [|c s]; [reflexivity|]. intros H. simpl.
  now rewrite (H c s eq_refl).
Qed.

(** A stripped text has nothing left to strip. *)
Lemma strip_idempotent (s : string) : strip (strip s) = strip s.
Proof.
  unfold strip at 1. rewrite lstrip_no_leading_space.
  - apply strip_rstrip.
  - intros c s'. apply strip_head.
Qed.

End StripTwice.

Section OcrService.
Import Py Ocr.
Context {S : Settings} {I : Imaging}.
#[local] Open Scope Q_scope.

(** X16.  Every result of [extract_text_and_signals] is consistent: its
    [needs_vision] flag is the escalation rule applied to its own three
    signals, its coverage and density lie in [0,1], and its text carries no
    white space at either end. *)
Theorem ocr_result_consistent (image_bytes : list Byte.byte) (r : OCRResult) :
  extract_text_and_signals image_bytes = Ok r ->
  r_needs_vision r
    = _needs_vision_api (r_text_coverage r) (r_box_density r) (r_confidence r)
  /\ 0 <= r_text_coverage r <= 1
  /\ 0 <= r_box_density r <= 1
  /\ strip (r_text r) = r_text r.
Proof.
  unfold extract_text_and_signals, image_to_data.
  destruct (image_open image_bytes) as [im|]; simpl; [|discriminate].
  destruct (_resize_if_needed im) as [im'|]; simpl; [|discriminate].
  destruct (tesseract_tsv im') as [rows|]; simpl; [|discriminate].
  destruct (image_to_string im') as [raw|]; simpl; [|discriminate].
  destruct (calculate_confidence_total (to_dict rows)) as (c & -> & _).
  destruct (calculate_text_coverage_total rows (image_width im') (image_height im'))
    as (cov & -> & Hcov & _).
  destruct (calculate_box_density_total (to_dict rows) (image_width im')
              (image_height im')) as (den & -> & Hden & _).
  simpl. intros [= <-]. simpl.
  split; [reflexivity|]. split; [exact Hcov|]. split; [exact Hden|].
  apply strip_idempotent.
Qed.

(** X17.  The signal computations add no failure of their own:
    [extract_text_and_signals] raises only what opening the image, resizing
    it, Tesseract's table or Tesseract's text raised, and it raises the
    first of these. *)
Theorem extract_raises_only_library_errors (image_bytes : list Byte.byte) (e : exn) :
  extract_text_and_signals image_bytes = Raise e ->
  image_open image_bytes = Raise e
  \/ exists im, image_open image_bytes = Ok im
       /\ (_resize_if_needed im = Raise e
           \/ exists im', _resize_if_needed im = Ok im'
                /\ (tesseract_tsv im' = Raise e
                    \/ (exists rows, tesseract_tsv im' = Ok rows)
                       /\ image_to_string im' = Raise e)).
Proof.
  unfold extract_text_and_signals, image_to_data.
  destruct (image_open image_bytes) as [im|e0]; simpl; [|intros [= <-]; now left].
  intros H. right. exists im. split; [reflexivity|].
  destruct (_resize_if_needed im) as [im'|e1]; simpl in H;
    [|injection H as <-; now left].
  right. exists im'. split; [reflexivity|].
  destruct (tesseract_tsv im') as [rows|e2]; simpl in H;
    [|injection H as <-; now left].
  right. split; [eauto|].
  destruct (image_to_string im') as [raw|e3]; simpl in H;
    [|injection H as <-; reflexivity].
  exfalso. revert H.
  destruct (calculate_confidence_total (to_dict rows)) as (c & -> & _).
  destruct (calculate_text_coverage_total rows (image_width im') (image_height im'))
    as (cov & -> & _).
  destruct (calculate_box_density_total (to_dict rows) (image_width im')
              (image_height im')) as (den & -> & _).
  simpl. discriminate.
Qed.

End OcrService.

(** The scaling is computed in binary64 and truncated: a 3000 x 4000
    image becomes 1500 x 2000, a 2105 x 2105 image becomes 1999 x 1999,
    and for a 2001 x 1 image Pillow is asked for an empty side, which it
    refuses. *)
Example resize_poster :
  @Ocr._resize_if_needed (Doubles.pictures Doubles.poster) Doubles.poster
  = Py.Ok {| Doubles.p_width := 1500; Doubles.p_height := 2000;
             Doubles.p_rows := []; Doubles.p_text := "" |}.
Proof. reflexivity. Qed.

Example resize_square :
  @Ocr._resize_if_needed (Doubles.pictures Doubles.poster)
    {| Doubles.p_width := 2105; Doubles.p_height := 2105;
       Doubles.p_rows := []; Doubles.p_text := "" |}
  = Py.Ok {| Doubles.p_width := 1999; Doubles.p_height := 1999;
             Doubles.p_rows := []; Doubles.p_text := "" |}.
Proof. reflexivity. Qed.

Example resize_thin_strip :
  @Ocr._resize_if_needed (Doubles.pictures Doubles.poster)
    {| Doubles.p_width := 2001; Doubles.p_height := 1;
       Doubles.p_rows := []; Doubles.p_text := "" |}
  = Py.Raise Py.ValueError.
Proof. reflexivity. Qed.

Example resize_small :
  @Ocr._resize_if_needed (Doubles.pictures Doubles.scanned_letter) Doubles.scanned_letter
  = Py.Ok Doubles.scanned_letter.
Proof. reflexivity. Qed.

Lemma ocr_result_consistent_witness :
  exists r,
    @Ocr.extract_text_and_signals Doubles.thresholds
      (Doubles.pictures Doubles.scanned_letter) [] = Py.Ok r
    /\ Ocr.r_needs_vision r
       = @Ocr._needs_vision_api Doubles.thresholds (Ocr.r_text_coverage r)
           (Ocr.r_box_density r) (Ocr.r_confidence r)
    /\ (0 <= Ocr.r_text_coverage r <= 1)%Q
    /\ (0 <= Ocr.r_box_density r <= 1)%Q
    /\ Py.strip (Ocr.r_text r) = Ocr.r_text r.
Proof.
  eexists. split; [reflexivity|].
  apply (@ocr_result_consistent Doubles.thresholds
           (Doubles.pictures Doubles.scanned_letter) []).
  reflexivity.
Defined.

Lemma extract_raises_only_library_errors_witness :
  @Ocr.image_open Doubles.no_tesseract [] = Py.Raise (Py.ServiceError "tesseract is not installed")
  \/ exists im, @Ocr.image_open Doubles.no_tesseract [] = Py.Ok im
       /\ (@Ocr._resize_if_needed Doubles.no_tesseract im
             = Py.Raise (Py.ServiceError "tesseract is not installed")
           \/ exists im', @Ocr._resize_if_needed Doubles.no_tesseract im = Py.Ok im'
                /\ (@Ocr.tesseract_tsv Doubles.no_tesseract im'
                      = Py.Raise (Py.ServiceError "tesseract is not installed")
                    \/ (exists rows, @Ocr.tesseract_tsv Doubles.no_tesseract im' = Py.Ok rows)
                       /\ @Ocr.image_to_string Doubles.no_tesseract im'
                          = Py.Raise (Py.ServiceError "tesseract is not installed"))).
Proof.
  apply (@extract_raises_only_library_errors Doubles.thresholds Doubles.no_tesseract []).
  reflexivity.
Defined.

(* ===================================================================== *)
(** * The image processor and the vision oracle *)
(* ===================================================================== *)

Section ImageProcessorCalls.
Import Py Llm Ocr ImageProcessor.
Context {O : Oracle} {S : Settings} {I : Imaging}.


(** X19.  [process_image] has no silent fallback: it raises exactly when
    OCR raises, or OCR asks for vision and the vision service raises; in
    both cases the exception is the one that was raised to it. *)
Theorem process_image_raises_iff (image_bytes : list Byte.byte) (url : string)
    (e : exn) :
  returned (process_image image_bytes url) = Raise e <->
  extract_text_and_signals image_bytes = Raise e
  \/ exists r, extract_text_and_signals image_bytes = Ok r
               /\ r_needs_vision r = true
               /\ describe_image url = Raise e.
Proof.
  unfold process_image, after_ocr.
  destruct (extract_text_and_signals image_bytes) as [r|e0]; simpl.
  - destruct (r_needs_vision r) eqn:Hn.
    + destruct (describe_image url) as [d|e1] eqn:Hd; simpl.
      * split; [discriminate|].
        intros [H|(r' & [= <-] & _ & H)]; discriminate.
      * split.
        -- intros [= <-]. right. eauto.
        -- intros [H|(r' & [= <-] & _ & [= <-])]; [discriminate|reflexivity].
    + simpl. split; [discriminate|].
      intros [H|(r' & [= <-] & Hr' & _)]; [discriminate|congruence].
  - split.
    + intros [= <-]. now left.
    + intros [[= <-]|(r' & H & _)]; [reflexivity|discriminate].
Qed.

(** X20.  The text [process_image] returns carries no white space at
    either end, with or without a vision description; it can be the empty
    string. *)
Theorem process_image_returns_stripped (image_bytes : list Byte.byte)
    (url text : string) :
  returned (process_image image_bytes url) = Ok text -> strip text = text.
Proof.
  unfold process_image, after_ocr.
  destruct (extract_text_and_signals image_bytes) as [r|e0] eqn:Hocr; simpl;
    [|discriminate].
  pose proof (extract_text_stripped _ _ Hocr) as [raw Hraw].
  assert (strip (r_text r) = r_text r) as Hstripped
    by (rewrite Hraw; apply strip_idempotent).
  destruct (r_needs_vision r).
  - destruct (describe_image url) as [d|e1]; simpl; [|discriminate].
    intros [= <-]. unfold merge.
    destruct (truthy d); [apply strip_idempotent|exact Hstripped].
  - simpl. intros [= <-]. exact Hstripped.
Qed.

End ImageProcessorCalls.

Lemma process_image_returns_stripped_witness :
  Py.strip ("A scanned visa letter." +:+ Py.newline +:+ Py.newline +:+ "Visa F-1")
  = "A scanned visa letter." +:+ Py.newline +:+ Py.newline +:+ "Visa F-1".
Proof.
  apply (@process_image_returns_stripped (Doubles.replying " A scanned visa letter. ")
           Doubles.thresholds (Doubles.pictures Doubles.scanned_letter) []
           "https://cdn/img.png").
  reflexivity.
Defined.

(** The vision service is down: the upload of a sparse image fails, the
    OCR text is not used in its place. *)
Example process_image_vision_down :
  @ImageProcessor.process_image Doubles.unreachable Doubles.thresholds
    (Doubles.pictures Doubles.scanned_letter) [] "https://cdn/img.png"
  = {| ImageProcessor.returned := Py.Raise (Py.ServiceError "connection refused");
       ImageProcessor.vision_calls := ["https://cdn/img.png"] |}.
Proof. reflexivity. Qed.

(* ===================================================================== *)
(** * File names and file kinds *)
(* ===================================================================== *)

Section FileNames.
Import Py PyStr.

Lemma rsplit1_without (c : ascii) (s : string) :
  contains c s = false -> rsplit1 c s = [s].
Proof.
  induction s as [|d s IH]; simpl; [reflexivity|].
  intros H. apply orb_false_iff in H as [Hd Hs].
  rewrite (IH Hs), Hd. reflexivity.
Qed.

(** What is after the last separator, and what is before it. *)
Lemma rsplit1_last_separator (c : ascii) (stem ext : string) :
  contains c ext = false ->
  rsplit1 c (stem +:+ String c ext) = [stem; ext].
Proof.
  intros Hext. induction stem as [|d stem IH].
  - change (EmptyString +:+ String c ext) with (String c ext). simpl.
    rewrite (rsplit1_without c ext Hext), Ascii.eqb_refl. reflexivity.
  - change (String d stem +:+ String c ext) with (String d (stem +:+ String c ext)).
    simpl. rewrite IH. reflexivity.
Qed.

Lemma contains_append (c : ascii) (a b : string) :
  contains c (a +:+ b) = contains c a || contains c b.
Proof.
  induction a as [|d a IH]; [reflexivity|].
  change (String d a +:+ b) with (String d (a +:+ b)). simpl.
  now rewrite IH, orb_assoc.
Qed.

Lemma contains_separated (c : ascii) (stem rest : string) :
  contains c (stem +:+ String c rest) = true.
Proof.
  rewrite contains_append. simpl. rewrite Ascii.eqb_refl. apply orb_true_r.
Qed.

(** A name with a separator is a stem, the separator and a rest without
    separator. *)
Lemma split_at_last_separator (c : ascii) (s : string) :
  contains c s = true ->
  exists stem ext, s = stem +:+ String c ext /\ contains c ext = false.
Proof.
  induction s as [|d s IH]; simpl; [discriminate|].
  destruct (contains c s) eqn:Hs.
  - intros _. destruct (IH eq_refl) as (stem & ext & -> & Hext).
    exists (String d stem), ext. split; [reflexivity|exact Hext].
  - rewrite orb_false_r. intros Hd. apply Ascii.eqb_eq in Hd. subst d.
    exists EmptyString, s. split; [reflexivity|exact Hs].
Qed.

End FileNames.

Section FileKinds.
Import Py PyStr ImageFiles DocumentProcessor.

(** The extension read by both checks. *)
Lemma extensions_agree (filename : string) :
  exists ext, get_file_extension filename = Ok ext
              /\ extension_or_empty filename = Ok ext
              /\ (contains dot filename = false -> ext = EmptyString)
              /\ (forall stem rest, filename = stem +:+ String dot rest ->
                    contains dot rest = false -> ext = lower rest).
Proof.
  unfold get_file_extension, extension_or_empty.
  destruct (contains dot filename) eqn:Hdot; simpl.
  - destruct (split_at_last_separator dot filename Hdot) as (stem & rest & -> & Hrest).
    rewrite (rsplit1_last_separator dot stem rest Hrest). simpl.
    exists (lower rest). repeat split; try discriminate.
    intros stem' rest' E Hrest'.
    pose proof (rsplit1_last_separator dot stem rest Hrest) as R.
    rewrite E, (rsplit1_last_separator dot stem' rest' Hrest') in R.
    now injection R as _ ->.
  - exists EmptyString. repeat split.
    intros stem rest -> _. rewrite contains_separated in Hdot. discriminate.
Qed.

(** X21.  The extension of a file name is what follows its last dot, in
    lower case, and the empty string when the name has no dot;
    [get_file_extension] raises on no name. *)
Theorem get_file_extension_spec (filename : string) :
  (contains dot filename = false -> get_file_extension filename = Ok EmptyString)
  /\ (forall stem rest,
        filename = stem +:+ String dot rest -> contains dot rest = false ->
        get_file_extension filename = Ok (lower rest))
  /\ exists ext, get_file_extension filename = Ok ext.
Proof.
  destruct (extensions_agree filename) as (ext & Hg & _ & Hnone & Hsome).
  repeat split.
  - intros H. now rewrite Hg, (Hnone H).
  - intros stem rest E Hrest. now rewrite Hg, (Hsome stem rest E Hrest).
  - eauto.
Qed.

(** X22.  The two checks of the upload view never raise and never both
    accept a name: a file is an image, a document, or neither. *)
Theorem image_or_document (filename : string) :
  exists is_image is_document : bool,
    is_supported_image filename = Ok is_image
    /\ is_supported filename = Ok is_document
    /\ (is_image && is_document = false).
Proof.
  destruct (extensions_agree filename) as (ext & Hg & He & _).
  unfold is_supported_image, is_supported. rewrite Hg, He. simpl.
  eexists _, _. split; [reflexivity|]. split; [reflexivity|].
  unfold among, IMAGE_EXTENSIONS, ALLOWED_EXTENSIONS. simpl.
  destruct (String.eqb_spec ext "pdf") as [->|]; [reflexivity|].
  destruct (String.eqb_spec ext "docx") as [->|]; [reflexivity|].
  simpl. apply andb_false_r.
Qed.

End FileKinds.

Section CloudinaryUpload.
Import Py PyStr ImageFiles DocumentProcessor Cloudinary.
Context {U : Uploader}.

(** X23.  [upload] itself never raises: it hands the bytes to the
    uploader under the name without its last extension, as a raw file when
    the name is a supported document, as an image when it is a supported
    image; it never leaves the resource type of such a file to ["auto"]. *)
Theorem upload_call_of_accepted_file (file_bytes : list Byte.byte)
    (filename folder : string) :
  exists call : upload_call,
    upload file_bytes filename folder "auto" = uploader_upload call
    /\ u_file call = file_bytes /\ u_folder call = folder
    /\ (is_supported filename = Ok true -> u_resource_type call = "raw")
    /\ (is_supported_image filename = Ok true -> u_resource_type call = "image")
    /\ (contains dot filename = false -> u_public_id call = filename)
    /\ (forall stem rest,
          filename = stem +:+ String dot rest -> contains dot rest = false ->
          u_public_id call = stem).
Proof.
  destruct (extensions_agree filename) as (ext & Hg & He & _).
  unfold upload, is_supported, is_supported_image. rewrite He, Hg. simpl.
  destruct (contains dot filename) eqn:Hdot.
  - destruct (split_at_last_separator dot filename Hdot) as (stem & rest & -> & Hrest).
    rewrite (rsplit1_last_separator dot stem rest Hrest). simpl.
    eexists. split; [reflexivity|]. simpl. repeat split; try discriminate.
    + intros [= Hdoc]. unfold ALLOWED_EXTENSIONS, among in Hdoc. simpl in Hdoc.
      unfold among. simpl.
      destruct (String.eqb ext "pdf"); [reflexivity|].
      destruct (String.eqb ext "docx"); [reflexivity|discriminate].
    + intros [= Himg]. unfold IMAGE_EXTENSIONS in Himg.
      unfold among in *. simpl in *.
      destruct (String.eqb_spec ext "pdf") as [->|]; [discriminate|].
      destruct (String.eqb_spec ext "docx") as [->|]; [discriminate|].
      destruct (String.eqb_spec ext "doc") as [->|]; [discriminate|].
      destruct (String.eqb_spec ext "txt") as [->|]; [discriminate|].
      simpl. now rewrite Himg.
    + intros stem' rest' E Hrest'.
      pose proof (rsplit1_last_separator dot stem rest Hrest) as R.
      rewrite E, (rsplit1_last_separator dot stem' rest' Hrest') in R.
      now injection R as ->.
  - simpl. eexists. split; [reflexivity|]. simpl.
    assert (ext = EmptyString) as ->.
    { unfold extension_or_empty in He. rewrite Hdot in He. now injection He. }
    repeat split; try discriminate.
    intros stem rest -> _. rewrite contains_separated in Hdot. discriminate.
Qed.

End CloudinaryUpload.

Lemma get_file_extension_spec_witness :
  DocumentProcessor.get_file_extension "Offer.Letter.PDF" = Py.Ok "pdf".
Proof.
  destruct (get_file_extension_spec "Offer.Letter.PDF") as (_ & H & _).
  apply (H "Offer.Letter" "PDF"); reflexivity.
Defined.

(** Upper case, several dots, no dot, and a hidden file. *)
Example file_kinds :
  ImageFiles.is_supported_image "scan.JPG" = Py.Ok true
  /\ ImageFiles.is_supported_image "scan.jpg.exe" = Py.Ok false
  /\ DocumentProcessor.is_supported "cv.final.docx" = Py.Ok true
  /\ DocumentProcessor.is_supported "README" = Py.Ok false
  /\ DocumentProcessor.is_supported ".pdf" = Py.Ok true
  /\ DocumentProcessor.is_supported "pdf" = Py.Ok false.
Proof. repeat split. Qed.

(* ===================================================================== *)
(** * The document processor *)
(* ===================================================================== *)

Section VisibleText.
Import Py PyStr.

Lemma visible_append (a b : string) : visible (a +:+ b) = visible a ++ visible b.
Proof.
  induction a as [|c a IH]; [reflexivity|].
  change (String c a +:+ b) with (String c (a +:+ b)). simpl.
  destruct (is_space c); [exact IH|]. now rewrite IH.
Qed.

Lemma visible_flush (run : nat) : visible (flush_line_feeds run) = [].
Proof.
  unfold flush_line_feeds. destruct (3 <=? run)%nat; [reflexivity|].
  induction run as [|run IH]; [reflexivity|exact IH].
Qed.

Lemma visible_sub_line_feeds (run : nat) (s : string) :
  visible (sub_line_feeds run s) = visible s.
Proof.
  revert run. induction s as [|c s IH]; intros run; simpl.
  - apply visible_flush.
  - destruct (Ascii.eqb_spec c lf) as [->|Hc].
    + rewrite IH. reflexivity.
    + rewrite visible_append, visible_flush. simpl. now rewrite IH.
Qed.

Lemma visible_sub_spaces (in_run : bool) (s : string) :
  visible (sub_spaces in_run s) = visible s.
Proof.
  revert in_run. induction s as [|c s IH]; intros in_run; simpl; [reflexivity|].
  destruct (Ascii.eqb_spec c space) as [->|Hc].
  - destruct in_run; simpl; apply IH.
  - simpl. now rewrite IH.
Qed.

Lemma visible_lstrip (s : string) : visible (lstrip s) = visible s.
Proof.
  induction s as [|c s IH]; [reflexivity|]. simpl.
  destruct (is_space c) eqn:Hc; [exact IH|]. simpl. now rewrite Hc.
Qed.

Lemma visible_rstrip (s : string) : visible (rstrip s) = visible s.
Proof.
  induction s as [|c s IH]; [reflexivity|]. simpl.
  destruct (rstrip s) as [|d r] eqn:E.
  - rewrite <- IH. simpl. destruct (is_space c) eqn:Hc; [reflexivity|].
    simpl. now rewrite Hc.
  - rewrite <- IH. reflexivity.
Qed.

Lemma visible_strip (s : string) : visible (strip s) = visible s.
Proof. unfold strip. now rewrite visible_rstrip, visible_lstrip. Qed.

Lemma visible_join_lines (lines : list string) :
  visible (join (String lf EmptyString) lines) = concat (map visible lines).
Proof.
  induction lines as [|p [|p' ps] IH]; [reflexivity|simpl; now rewrite app_nil_r|].
  change (join (String lf EmptyString) (p :: p' :: ps))
    with (p +:+ String lf EmptyString +:+ join (String lf EmptyString) (p' :: ps)).
  rewrite !visible_append, IH. reflexivity.
Qed.

Lemma split_lines_not_nil (s : string) : split_lines s <> [].
Proof.
  induction s as [|c s IH]; simpl; [discriminate|].
  destruct (split_lines s); [contradiction|]. destruct (Ascii.eqb c lf); discriminate.
Qed.

Lemma visible_split_lines (s : string) :
  concat (map visible (split_lines s)) = visible s.
Proof.
  induction s as [|c s IH]; [reflexivity|]. simpl.
  pose proof (split_lines_not_nil s) as Hne.
  destruct (split_lines s) as [|line lines]; [contradiction|].
  destruct (Ascii.eqb_spec c lf) as [->|Hc].
  - simpl. simpl in IH. exact IH.
  - simpl. simpl in IH. destruct (is_space c); [exact IH|]. simpl. now rewrite IH.
Qed.

(** A text is blank exactly when it has no visible character. *)
Lemma blank_iff_nothing_visible (s : string) :
  truthy (strip s) = false <-> visible s = [].
Proof.
  split.
  - intros H. rewrite <- visible_strip. destruct (strip s); [reflexivity|discriminate].
  - intros H. assert (lstrip s = EmptyString) as E.
    { induction s as [|c s IH]; [reflexivity|]. simpl in *.
      destruct (is_space c); [auto|discriminate]. }
    unfold strip. now rewrite E.
Qed.

End VisibleText.

Section DocumentProcessorFacts.
Import Py PyStr DocumentProcessor.
Context {R : Readers}.

(** X24.  Cleaning changes white space only: the visible characters of
    the cleaned text are those of the extracted text, in the same order, so
    a text is blank after cleaning exactly when it was blank before. *)
Theorem clean_text_keeps_visible (text : string) :
  visible (_clean_text text) = visible text
  /\ truthy (strip (_clean_text text)) = truthy (strip text).
Proof.
  assert (visible (_clean_text text) = visible text) as Hv.
  { unfold _clean_text. rewrite visible_join_lines, map_map.
    rewrite (map_ext (fun x => visible (strip x)) visible visible_strip).
    now rewrite visible_split_lines, visible_sub_spaces, visible_sub_line_feeds. }
  split; [exact Hv|].
  destruct (truthy (strip text)) eqn:E.
  - destruct (truthy (strip (_clean_text text))) eqn:E'; [reflexivity|].
    apply blank_iff_nothing_visible in E'. rewrite Hv in E'.
    apply blank_iff_nothing_visible in E'. congruence.
  - apply blank_iff_nothing_visible. rewrite Hv. now apply blank_iff_nothing_visible.
Qed.

(** X25.  [extract_text] lets no exception through but its own
    [DocumentProcessorError].  When it returns, the document type is the
    extension of the file name, one of [pdf] and [docx], and the text is a
    cleaned text that is not blank.  A name that [is_supported] rejects is
    refused for its extension, whatever the bytes are. *)
Theorem extract_text_outcomes (file_content : list Byte.byte) (filename : string) :
  (forall e, extract_text file_content filename <> Uncaught e)
  /\ (forall text doc_type,
        extract_text file_content filename = Extracted text doc_type ->
        (doc_type = "pdf" \/ doc_type = "docx")
        /\ get_file_extension filename = Ok doc_type
        /\ truthy (strip text) = true
        /\ exists raw, text = _clean_text raw)
  /\ (is_supported filename = Ok false ->
      exists ext, get_file_extension filename = Ok ext
                  /\ extract_text file_content filename
                     = DocumentProcessorError (UnsupportedFileType ext)).
Proof.
  destruct (extensions_agree filename) as (ext & Hg & _).
  unfold extract_text, is_supported. rewrite Hg. cbn [mbind result_bind].
  destruct (among ext ALLOWED_EXTENSIONS) eqn:Hal; cbn [negb].
  - assert (ext = "pdf" \/ ext = "docx") as Hext.
    { unfold among, ALLOWED_EXTENSIONS in Hal. simpl in Hal.
      destruct (String.eqb_spec ext "pdf"); [now left|].
      destruct (String.eqb_spec ext "docx"); [now right|discriminate]. }
    destruct (if String.eqb ext "pdf" then _extract_pdf file_content
              else _extract_docx file_content) as [raw|e];
      [|repeat split; intros; discriminate].
    destruct (truthy (strip (_clean_text raw))) eqn:Ht; cbn [negb];
      [|repeat split; intros; discriminate].
    split; [intros; discriminate|]. split; [|intros; discriminate].
    intros text doc_type [= <- <-]. repeat split; eauto.
  - split; [intros; discriminate|]. split; [intros; discriminate|]. intros _. eauto.
Qed.

End DocumentProcessorFacts.

Lemma extract_text_outcomes_witness :
  exists ext, DocumentProcessor.get_file_extension "notes.txt" = Py.Ok ext
              /\ @DocumentProcessor.extract_text Doubles.readers [] "notes.txt"
                 = DocumentProcessor.DocumentProcessorError
                     (DocumentProcessor.UnsupportedFileType ext).
Proof.
  destruct (@extract_text_outcomes Doubles.readers [] "notes.txt") as (_ & _ & H).
  apply H. reflexivity.
Defined.

(** Three pages, one of them empty: runs of spaces shrink, every line is
    trimmed, the empty page leaves no trace; an unreadable DOCX file is
    reported as a failed extraction. *)
Example extract_text_runs :
  @DocumentProcessor.extract_text Doubles.readers [] "offer.pdf"
  = DocumentProcessor.Extracted
      ("Offer of admission" +:+ Py.newline +:+ Py.newline +:+ "Visa type: F-1") "pdf"
  /\ @DocumentProcessor.extract_text Doubles.readers [] "offer.docx"
     = DocumentProcessor.DocumentProcessorError
         (DocumentProcessor.FailedToExtract (Py.ServiceError "File is not a zip file")).
Proof. split; reflexivity. Qed.

(** Line feeds separated by blanks survive the first substitution and
    come together when the lines are trimmed. *)
Example clean_text_three_line_feeds :
  DocumentProcessor._clean_text
    ("a" +:+ Py.newline +:+ " " +:+ Py.newline +:+ " " +:+ Py.newline +:+ "b")
  = "a" +:+ Py.newline +:+ Py.newline +:+ Py.newline +:+ "b".
Proof. reflexivity. Qed.

Lemma upload_call_of_accepted_file_witness :
  exists call : Cloudinary.upload_call,
    @Cloudinary.upload Doubles.cdn [] "Offer.Letter.PDF" "rag_uploads" "auto"
      = @Cloudinary.uploader_upload Doubles.cdn call
    /\ Cloudinary.u_resource_type call = "raw"
    /\ Cloudinary.u_public_id call = "Offer.Letter".
Proof.
  destruct (@upload_call_of_accepted_file Doubles.cdn [] "Offer.Letter.PDF" "rag_uploads")
    as (call & Hcall & _ & _ & Hraw & _ & _ & Hid).
  exists call. split; [exact Hcall|]. split.
  - apply Hraw. reflexivity.
  - apply (Hid "Offer.Letter" "PDF"); reflexivity.
Defined.

(* ===================================================================== *)
(** * The streaming chat endpoint *)
(* ===================================================================== *)

Section EventStream.
Import Py Llm Prompts Classifier Retriever Generator Views.
Context {O : Oracle} {P : SystemPrompts} {U : Unicode} {B : VectorBackend} {D : Persistence}.

Lemma fragments_length (ds : list (option string)) :
  (length (fragments ds) <= length ds)%nat.
Proof.
  induction ds as [|[s|] ds IH]; simpl; [lia| |lia].
  destruct (truthy s); simpl; lia.
Qed.

(** The loop of [event_stream] sees the whole run of the generator. *)
Lemma drain_all_spec (question : string) (chunks : option (list RetrievedChunk)) :
  drain_all question chunks =
    match stream_request question chunks with
    | Raise e => ([], Failed e)
    | Ok u =>
        match upstream_end u with
        | None => (map Token (fragments (deltas u)) ++ [done_event chunks], Exhausted)
        | Some e => (map Token (fragments (deltas u)), Failed e)
        end
    end.
Proof.
  unfold drain_all. rewrite drain_created.
  destruct (stream_request question chunks) as [u|e]; [|reflexivity].
  apply drain_streaming. pose proof (fragments_length (deltas u)). lia.
Qed.

(** Consuming token events: the answer grows, the tokens are passed on. *)
Lemma fold_tokens (tokens : list string) (v : loop_vars) :
  fold_left on_event (map Token tokens) v =
    {| v_full_response := fold_left String.append tokens (v_full_response v);
       v_used_context := v_used_context v;
       v_sources := v_sources v;
       v_yielded := v_yielded v ++ map TokenData tokens |}.
Proof.
  revert v. induction tokens as [|t tokens IH]; intros v; simpl.
  - rewrite app_nil_r. now destruct v.
  - rewrite IH. simpl. now rewrite <- app_assoc.
Qed.

(** What [event_stream] does once the chunks are known. *)
Lemma event_stream_stages (table : list DocumentChunk)
    (message user_id session_id : string) :
  event_stream table message user_id session_id =
    match classify message with
    | Raise e => on_exception [] [] e
    | Ok query_type =>
        match (if needs_retrieval query_type
               then chunks ← retrieve table message user_id DEFAULT_TOP_K;
                    Ok (Some chunks)
               else Ok None) with
        | Raise e => on_exception [] [] e
        | Ok chunks =>
            match stream_request message chunks with
            | Raise e => on_exception [SessionData session_id] [] e
            | Ok u =>
                let tokens := fragments (deltas u) in
                let yielded := SessionData session_id :: map TokenData tokens in
                match upstream_end u with
                | Some e => on_exception yielded [] e
                | None =>
                    let assistant :=
                      {| m_session := session_id; m_role := "assistant";
                         m_content := fold_left String.append tokens EmptyString;
                         m_used_context := use_context_of chunks |} in
                    match create_message assistant with
                    | Raise e => on_exception yielded [assistant] e
                    | Ok _ =>
                        {| sent := yielded
                                   ++ [DoneData (use_context_of chunks)
                                         (stream_sources (use_context_of chunks) chunks)];
                           create_calls := [assistant] |}
                    end
                end
            end
        end
    end.
Proof.
  unfold event_stream.
  destruct (classify message) as [t|e]; [|reflexivity].
  destruct (if needs_retrieval t then _ else _) as [chunks|e]; [|reflexivity].
  rewrite drain_all_spec.
  destruct (stream_request message chunks) as [u|e]; [|reflexivity].
  destruct (upstream_end u) as [e|].
  - rewrite fold_tokens. reflexivity.
  - rewrite fold_left_app, fold_tokens. reflexivity.
Qed.

Lemma tokens_not_terminal (tokens : list string) :
  Forall (fun ev => terminal ev = false) (map TokenData tokens).
Proof. apply Forall_map, Forall_forall. reflexivity. Qed.

(** X26.  Whatever happens to classification, retrieval, generation or
    the database, the events of [event_stream] end with exactly one
    terminal event, [done] or [error], and no event before it is terminal:
    the stream is never closed silently. *)
Theorem event_stream_ends_with_terminal (table : list DocumentChunk)
    (message user_id session_id : string) :
  exists (body : list sse) (last : sse),
    sent (event_stream table message user_id session_id) = body ++ [last]
    /\ terminal last = true
    /\ Forall (fun ev => terminal ev = false) body.
Proof.
  rewrite event_stream_stages.
  destruct (classify message) as [t|e];
    [|exists [], (ErrorData (str_of_exception e)); repeat split; constructor].
  destruct (if needs_retrieval t then _ else _) as [chunks|e];
    [|exists [], (ErrorData (str_of_exception e)); repeat split; constructor].
  destruct (stream_request message chunks) as [u|e];
    [|exists [SessionData session_id], (ErrorData (str_of_exception e));
      repeat split; repeat constructor].
  assert (Forall (fun ev => terminal ev = false)
            (SessionData session_id :: map TokenData (fragments (deltas u)))) as Hbody
    by (constructor; [reflexivity|apply tokens_not_terminal]).
  destruct (upstream_end u) as [e|].
  - exists (SessionData session_id :: map TokenData (fragments (deltas u))),
      (ErrorData (str_of_exception e)).
    split; [reflexivity|]. split; [reflexivity|exact Hbody].
  - cbv zeta. destruct (create_message _) as [[]|e].
    + exists (SessionData session_id :: map TokenData (fragments (deltas u))),
        (DoneData (use_context_of chunks)
           (stream_sources (use_context_of chunks) chunks)).
      split; [reflexivity|]. split; [reflexivity|exact Hbody].
    + exists (SessionData session_id :: map TokenData (fragments (deltas u))),
        (ErrorData (str_of_exception e)).
      split; [reflexivity|]. split; [reflexivity|exact Hbody].
Qed.

(** X27.  A partial answer is never stored.  [event_stream] asks the
    database for at most one message, and only after the generator has
    finished normally: the message is the assistant's, in the session of
    the request, and its content is all fragments of an upstream that ended
    without exception, joined in order; the chunks of that run are those
    retrieved for the user, or none. *)
Theorem stored_answer_is_complete (table : list DocumentChunk)
    (message user_id session_id : string) :
  create_calls (event_stream table message user_id session_id) = []
  \/ exists (m : ChatMessage) (chunks : option (list RetrievedChunk)) (u : upstream),
       create_calls (event_stream table message user_id session_id) = [m]
       /\ (chunks = None
           \/ exists cs, retrieve table message user_id DEFAULT_TOP_K = Ok cs
                         /\ chunks = Some cs)
       /\ stream_request message chunks = Ok u
       /\ upstream_end u = None
       /\ m_role m = "assistant" /\ m_session m = session_id
       /\ m_content m = fold_left String.append (fragments (deltas u)) EmptyString
       /\ m_used_context m = use_context_of chunks.
Proof.
  rewrite event_stream_stages.
  destruct (classify message) as [t|e]; [|now left].
  destruct (if needs_retrieval t then _ else _) as [chunks|e] eqn:Hr; [|now left].
  assert (chunks = None
          \/ exists cs, retrieve table message user_id DEFAULT_TOP_K = Ok cs
                        /\ chunks = Some cs) as Hchunks.
  { destruct (needs_retrieval t); [|injection Hr as <-; now left].
    destruct (retrieve table message user_id DEFAULT_TOP_K) as [cs|]; simpl in Hr;
      [|discriminate].
    injection Hr as <-. right. eauto. }
  destruct (stream_request message chunks) as [u|e] eqn:Hu; [|now left].
  destruct (upstream_end u) as [e|] eqn:He; simpl; [now left|].
  right. destruct (create_message _) as [[]|e]; simpl;
    eexists _, chunks, u; repeat split; assumption || reflexivity.
Qed.

(** X28.  A question classified GENERAL is answered without the table:
    the run is the same for every content of [document_chunks], and a
    [done] event it sends says that no context was used and carries no
    sources. *)
Theorem general_question_skips_retrieval (table : list DocumentChunk)
    (message user_id session_id : string) :
  classify message = Ok GENERAL ->
  event_stream table message user_id session_id
    = event_stream [] message user_id session_id
  /\ forall used srcs,
       DoneData used srcs ∈ sent (event_stream table message user_id session_id) ->
       used = false /\ srcs = None.
Proof.
  intros Hc. split.
  - rewrite !event_stream_stages, Hc. reflexivity.
  - intros used srcs. rewrite event_stream_stages, Hc. simpl.
    destruct (stream_request message None) as [u|e]; simpl.
    + destruct (upstream_end u) as [e|]; simpl.
      * intros H. apply elem_of_cons in H as [H|H]; [discriminate|].
        apply elem_of_app in H as [H|H].
        -- apply list_elem_of_fmap in H as (? & ? & _). discriminate.
        -- apply list_elem_of_singleton in H. discriminate.
      * destruct (create_message _) as [[]|e]; simpl; intros H;
          apply elem_of_cons in H as [H|H]; try discriminate;
          apply elem_of_app in H as [H|H];
          try (apply list_elem_of_fmap in H as (? & ? & _); discriminate);
          apply list_elem_of_singleton in H; try discriminate.
        injection H as -> ->. split; reflexivity.
    + intros H. apply elem_of_cons in H as [H|H]; [discriminate|].
      apply list_elem_of_singleton in H. discriminate.
Qed.

(** X29.  Tenant isolation reaches the client: every source carried by
    a [done] event of [event_stream] is derived from a row of the table
    whose [user_id] is the user of the request. *)
Theorem streamed_sources_belong_to_user (table : list DocumentChunk)
    (message user_id session_id : string) (used : bool)
    (srcs : list (gmap string string)) :
  DoneData used (Some srcs) ∈ sent (event_stream table message user_id session_id) ->
  Forall (fun d => exists (q : list Q) (r : DocumentChunk),
                     generate_embedding message = Ok q
                     /\ r ∈ table /\ Retriever.user_id r = user_id
                     /\ d = source_dict (to_chunk (project q r))) srcs.
Proof.
  rewrite event_stream_stages.
  destruct (classify message) as [t|e]; simpl;
    [|intros H; apply list_elem_of_singleton in H; discriminate].
  destruct (if needs_retrieval t then _ else _) as [chunks|e] eqn:Hr; simpl;
    [|intros H; apply list_elem_of_singleton in H; discriminate].
  assert (Hdone : DoneData used (Some srcs)
                  = DoneData (use_context_of chunks)
                      (stream_sources (use_context_of chunks) chunks) ->
                  Forall (fun d => exists (q : list Q) (r : DocumentChunk),
                            generate_embedding message = Ok q
                            /\ r ∈ table /\ Retriever.user_id r = user_id
                            /\ d = source_dict (to_chunk (project q r))) srcs).
  { intros [= _ Hs]. rewrite stream_sources_take in Hs.
    destruct (sources_guard _ _); [|discriminate]. injection Hs as ->.
    destruct (needs_retrieval t); [|injection Hr as <-; constructor].
    destruct (retrieve table message user_id DEFAULT_TOP_K) as [cs|] eqn:Hret;
      simpl in Hr; [|discriminate].
    injection Hr as <-. simpl.
    apply retrieve_inv in Hret as (q & rows & Hq & Hsel & ->).
    apply selected_rows_spec in Hsel as (Hall & _ & _).
    apply Forall_map, Forall_forall. intros c Hc.
    apply elem_of_take in Hc as (i & Hc & _). apply list_elem_of_lookup_2 in Hc.
    apply list_elem_of_fmap in Hc as (r & -> & Hin).
    rewrite Forall_forall in Hall. destruct (Hall r Hin) as [Htab Hw].
    exists q, r. repeat split; try assumption.
    unfold where_clause in Hw. apply andb_true_iff in Hw as [Hu _].
    now apply String.eqb_eq in Hu. }
  destruct (stream_request message chunks) as [u|e]; simpl.
  - destruct (upstream_end u) as [e|]; simpl.
    + intros H. apply elem_of_cons in H as [H|H]; [discriminate|].
      apply elem_of_app in H as [H|H].
      * apply list_elem_of_fmap in H as (? & ? & _). discriminate.
      * apply list_elem_of_singleton in H. discriminate.
    + destruct (create_message _) as [[]|e]; simpl; intros H;
        apply elem_of_cons in H as [H|H]; try discriminate;
        apply elem_of_app in H as [H|H];
        try (apply list_elem_of_fmap in H as (? & ? & _); discriminate);
        apply list_elem_of_singleton in H; try discriminate.
      now apply Hdone.
  - intros H. apply elem_of_cons in H as [H|H]; [discriminate|].
    apply list_elem_of_singleton in H. discriminate.
Qed.

End EventStream.

Lemma general_question_skips_retrieval_witness :
  @Views.event_stream (Doubles.chatting "GENERAL" Doubles.two_fragments)
    Doubles.prompts Doubles.letters Doubles.plane Doubles.storing Doubles.two_tenants
    "What is IELTS?" "alice" "s1"
  = @Views.event_stream (Doubles.chatting "GENERAL" Doubles.two_fragments)
      Doubles.prompts Doubles.letters Doubles.plane Doubles.storing [] "What is IELTS?" "alice" "s1".
Proof.
  apply (@general_question_skips_retrieval
           (Doubles.chatting "GENERAL" Doubles.two_fragments)
           Doubles.prompts Doubles.letters Doubles.plane Doubles.storing Doubles.two_tenants
           "What is IELTS?" "alice" "s1").
  reflexivity.
Defined.

(** The run for a personal question of a user with two matching rows. *)
Example event_stream_personal_question :
  @Views.event_stream (Doubles.chatting "PROFILE_DEPENDENT" Doubles.two_fragments)
    Doubles.prompts Doubles.letters Doubles.plane Doubles.storing Doubles.two_tenants
    "What visa type am I applying for?" "alice" "s1"
  = {| Views.sent :=
         [ Views.SessionData "s1"; Views.TokenData "F-1"; Views.TokenData " visa";
           Views.DoneData true
             (Some (map (fun r => Generator.source_dict
                                    (Retriever.to_chunk
                                       (@Retriever.project Doubles.plane [1; 0]%Q r)))
                      [ Doubles.chunk_row "4" "alice" "admission letter" [4 # 5; 3 # 5]%Q;
                        Doubles.chunk_row "1" "alice" "visa: F-1" [3 # 5; 4 # 5]%Q ])) ];
       Views.create_calls :=
         [ {| Views.m_session := "s1"; Views.m_role := "assistant";
              Views.m_content := "F-1 visa"; Views.m_used_context := true |} ] |}.
Proof. reflexivity. Qed.

Lemma streamed_sources_belong_to_user_witness :
  Forall (fun d => exists (q : list Q) (r : Retriever.DocumentChunk),
                     @Retriever.generate_embedding Doubles.plane
                       "What visa type am I applying for?" = Py.Ok q
                     /\ r ∈ Doubles.two_tenants /\ Retriever.user_id r = "alice"
                     /\ d = Generator.source_dict
                              (Retriever.to_chunk (@Retriever.project Doubles.plane q r)))
    (map (fun r => Generator.source_dict
                     (Retriever.to_chunk (@Retriever.project Doubles.plane [1; 0]%Q r)))
       [ Doubles.chunk_row "4" "alice" "admission letter" [4 # 5; 3 # 5]%Q;
         Doubles.chunk_row "1" "alice" "visa: F-1" [3 # 5; 4 # 5]%Q ]).
Proof.
  apply (@streamed_sources_belong_to_user
           (Doubles.chatting "PROFILE_DEPENDENT" Doubles.two_fragments)
           Doubles.prompts Doubles.letters Doubles.plane Doubles.storing Doubles.two_tenants
           "What visa type am I applying for?" "alice" "s1" true).
  change (Views.sent
            (@Views.event_stream
               (Doubles.chatting "PROFILE_DEPENDENT" Doubles.two_fragments)
               Doubles.prompts Doubles.letters Doubles.plane Doubles.storing Doubles.two_tenants
               "What visa type am I applying for?" "alice" "s1"))
    with [ Views.SessionData "s1"; Views.TokenData "F-1"; Views.TokenData " visa";
           Views.DoneData true
             (Some (map (fun r => Generator.source_dict
                                    (Retriever.to_chunk
                                       (@Retriever.project Doubles.plane [1; 0]%Q r)))
                      [ Doubles.chunk_row "4" "alice" "admission letter" [4 # 5; 3 # 5]%Q;
                        Doubles.chunk_row "1" "alice" "visa: F-1" [3 # 5; 4 # 5]%Q ])) ].
  do 3 apply list_elem_of_further. apply list_elem_of_here.
Defined.

(** The upstream breaks after one token: the client is told, and no
    answer is stored. *)
Example event_stream_broken_upstream :
  @Views.event_stream (Doubles.chatting "GENERAL" Doubles.broken_after_one)
    Doubles.prompts Doubles.letters Doubles.plane Doubles.storing Doubles.two_tenants
    "What is IELTS?" "alice" "s1"
  = {| Views.sent := [ Views.SessionData "s1"; Views.TokenData "F-1";
                       Views.ErrorData "connection reset" ];
       Views.create_calls := [] |}.
Proof. reflexivity. Qed.
